(** * The IAVL node store: [nodeDB] (nodedb.go) and [nodeDB2] (the two-lock
    variant), embedded as state-passing functions.

    The store sits between tree nodes addressed by hash and an ordered
    byte-keyed key/value engine.  Both variants are transcribed function by
    function; every Go method [(ndb *nodeDB) f] becomes [nodeDB.f], every
    [(ndb *nodeDB2) f] becomes [nodeDB2.f].  Mutexes are not modelled: each
    method is embedded with its sequential meaning, i.e. what it does between
    taking and releasing its lock. *)

From Stdlib Require Import ZArith Lia.
From stdpp Require Import base tactics option list sorting gmap.

Local Open Scope Z_scope.

(** ** Bytes and 64-bit integers *)

(** A Go [[]byte] (and a Go [string] obtained by [string(b)]) is a list of
    8-bit values. *)
Abbreviation bytes := (list Z).

Definition is_byte (b : Z) : Prop := 0 <= b < 256.

(** Go's [int64]: a [Z] in the range below, arithmetic wrapping around. *)
Definition minInt64 : Z := - 2 ^ 63.
Definition maxInt64 : Z := 2 ^ 63 - 1.
Definition is_int64 (v : Z) : Prop := minInt64 <= v <= maxInt64.

Definition wrap64 (z : Z) : Z := (z + 2 ^ 63) mod 2 ^ 64 - 2 ^ 63.
Definition add64 (a b : Z) : Z := wrap64 (a + b).
Definition sub64 (a b : Z) : Z := wrap64 (a - b).
(** [uint64(v)] for an [int64] (or [int]) [v]. *)
Definition uint64 (v : Z) : Z := v mod 2 ^ 64.

(** [bytes.Compare]: lexicographic order, the order of the backing store. *)
Fixpoint bytes_compare (a b : bytes) : comparison :=
  match a, b with
  | [], [] => Eq
  | [], _ :: _ => Lt
  | _ :: _, [] => Gt
  | x :: a', y :: b' =>
      match x ?= y with
      | Eq => bytes_compare a' b'
      | c => c
      end
  end.

Definition bytes_leb (a b : bytes) : bool :=
  match bytes_compare a b with Gt => false | _ => true end.
Definition bytes_ltb (a b : bytes) : bool :=
  match bytes_compare a b with Lt => true | _ => false end.

(** [bytes.HasPrefix]. *)
Fixpoint HasPrefix (s prefix : bytes) {struct prefix} : bool :=
  match prefix, s with
  | [], _ => true
  | _ :: _, [] => false
  | p :: prefix', x :: s' => (x =? p) && HasPrefix s' prefix'
  end.

(** ** Key codec *)

(** Big-endian rendering of [u] on [n] bytes, and its inverse. *)
Fixpoint be_bytes (n : nat) (u : Z) : bytes :=
  match n with
  | O => []
  | S n' => be_bytes n' (u / 256) ++ [u mod 256]
  end.

Definition be_value (b : bytes) : Z :=
  foldl (fun acc x => acc * 256 + x) 0 b.

Definition int64Size : nat := 8.

(** Modelled from the spec: tmhash.Size is declared outside the sources;
    section 6 gives the hash length as fixed, typically 20 bytes.  The value
    only appears in the layouts below and no result depends on it. *)
Definition hashSize : nat := 20.

(** Modelled from the spec: key_format.go (the [KeyFormat] type with [Key],
    [KeyBytes] and [Scan]) is not among the sources.  Section 4.1 and section 6
    fix the result: the prefix byte followed by the segments in order, every
    integer on 8 bytes, big-endian, a hash as its raw bytes. *)
Record KeyFormat := NewKeyFormat { kf_prefix : Z; kf_layout : list nat }.

Inductive KeyArg :=
  | Int64 (v : Z)
  | Raw (b : bytes).

Definition format (a : KeyArg) : bytes :=
  match a with
  | Int64 v => be_bytes int64Size (uint64 v)
  | Raw b => b
  end.

Definition KeyBytes (kf : KeyFormat) (segments : list bytes) : bytes :=
  kf_prefix kf :: concat segments.

Definition Key (kf : KeyFormat) (args : list KeyArg) : bytes :=
  KeyBytes kf (format <$> args).

(** [ScanInt64 kf key i]: the [i]-th segment of [key] read as an [int64]
    (what [kf.Scan(key, &a0, ..., &ai)] stores in [ai]).  The offset and width
    come from the layout. *)
Definition segment (kf : KeyFormat) (key : bytes) (i : nat) : bytes :=
  take (kf_layout kf !!! i) (drop (1 + sum_list (take i (kf_layout kf))) key).

Definition ScanInt64 (kf : KeyFormat) (key : bytes) (i : nat) : Z :=
  wrap64 (be_value (segment kf key i)).

(** The three key families of nodedb.go. *)
Definition nodeKeyFormat : KeyFormat := NewKeyFormat 110 [hashSize].
Definition orphanKeyFormat : KeyFormat :=
  NewKeyFormat 111 [int64Size; int64Size; hashSize].
Definition rootKeyFormat : KeyFormat := NewKeyFormat 114 [int64Size].

(** [nodeKey], [orphanKey] and [rootKey] read no field of the receiver and are
    the same in both variants. *)
Definition nodeKey (hash : bytes) : bytes := KeyBytes nodeKeyFormat [hash].

Definition orphanKey (fromVersion toVersion : Z) (hash : bytes) : bytes :=
  Key orphanKeyFormat [Int64 toVersion; Int64 fromVersion; Raw hash].

Definition rootKey (version : Z) : bytes := Key rootKeyFormat [Int64 version].

(** ** The backing store (collaborator) *)

(** [dbm.DB] by its contract: a finite map from byte keys to byte values with
    point reads and ordered range scans. *)
Abbreviation DB := (gmap bytes bytes).

Definition Get (db : DB) (key : bytes) : option bytes := db !! key.

Definition entry_le (p q : bytes * bytes) : Prop :=
  Is_true (bytes_leb p.1 q.1).

#[global] Instance entry_le_dec : RelDecision entry_le.
Proof. intros p q. unfold entry_le. apply _. Defined.

Definition in_range (start end_ : bytes) (kv : bytes * bytes) : Prop :=
  Is_true (bytes_leb start kv.1 && bytes_ltb kv.1 end_).

Definition has_prefix (prefix : bytes) (kv : bytes * bytes) : Prop :=
  Is_true (HasPrefix kv.1 prefix).

(** [db.ReverseIterator(start, end)]: the entries with [start <= key < end],
    greatest key first. *)
Definition ReverseIterator (db : DB) (start end_ : bytes)
  : list (bytes * bytes) :=
  reverse (merge_sort entry_le (filter (in_range start end_) (map_to_list db))).

(** [dbm.IteratePrefix(db, prefix)]: the entries whose key starts with
    [prefix], least key first. *)
Definition IteratePrefix (db : DB) (prefix : bytes) : list (bytes * bytes) :=
  merge_sort entry_le (filter (has_prefix prefix) (map_to_list db)).

(** [dbm.Batch]: writes and deletes in the order they were buffered. *)
Inductive BatchOp :=
  | BSet (key value : bytes)
  | BDelete (key : bytes).

Definition apply_op (db : DB) (op : BatchOp) : DB :=
  match op with
  | BSet k v => <[k := v]> db
  | BDelete k => delete k db
  end.

(** [batch.Write()] *)
Definition Write (ops : list BatchOp) (db : DB) : DB := foldl apply_op db ops.

(** ** Tree nodes (collaborator) *)

(** The fields of [Node] that nodedb.go reads or writes.  A nil slice or nil
    pointer is [None]. *)
#[warnings="-register-all"]
Inductive Node := mkNode {
  key : bytes;
  value : option bytes;
  version : Z;
  height : Z;
  hash : option bytes;
  leftHash : option bytes;
  rightHash : option bytes;
  leftNode : option Node;
  rightNode : option Node;
  persisted : bool;
  persistedMem : bool;
}.

Definition set_hash (h : option bytes) (n : Node) : Node :=
  mkNode (key n) (value n) (version n) (height n) h (leftHash n)
    (rightHash n) (leftNode n) (rightNode n) (persisted n) (persistedMem n).
Definition set_leftHash (h : option bytes) (n : Node) : Node :=
  mkNode (key n) (value n) (version n) (height n) (hash n) h
    (rightHash n) (leftNode n) (rightNode n) (persisted n) (persistedMem n).
Definition set_rightHash (h : option bytes) (n : Node) : Node :=
  mkNode (key n) (value n) (version n) (height n) (hash n) (leftHash n)
    h (leftNode n) (rightNode n) (persisted n) (persistedMem n).
Definition set_leftNode (c : option Node) (n : Node) : Node :=
  mkNode (key n) (value n) (version n) (height n) (hash n) (leftHash n)
    (rightHash n) c (rightNode n) (persisted n) (persistedMem n).
Definition set_rightNode (c : option Node) (n : Node) : Node :=
  mkNode (key n) (value n) (version n) (height n) (hash n) (leftHash n)
    (rightHash n) (leftNode n) c (persisted n) (persistedMem n).
Definition set_persisted (b : bool) (n : Node) : Node :=
  mkNode (key n) (value n) (version n) (height n) (hash n) (leftHash n)
    (rightHash n) (leftNode n) (rightNode n) b (persistedMem n).
Definition set_persistedMem (b : bool) (n : Node) : Node :=
  mkNode (key n) (value n) (version n) (height n) (hash n) (leftHash n)
    (rightHash n) (leftNode n) (rightNode n) (persisted n) b.

(** [string(h)] for a possibly nil slice, and [len(h)]. *)
Definition string_of (h : option bytes) : bytes := default [] h.

(** The node codec and hashing of node.go, which the store only calls:
    [MakeNode(buf, cb)] ([None] is a decoding error),
    [node.writeBytes(buf, includeValues)] ([None] is an error) and
    [node._hash()], given by the node it leaves behind. *)
Class NodeCodec := {
  MakeNode : bytes -> option (bytes -> bytes) -> option Node;
  writeBytes : Node -> bool -> option bytes;
  Node_hash : Node -> Node;
}.

(** ** container/list *)

(** An element of a [list.List] is a pointer; [eid] stands for its
    identity.  [l_fresh] is the supply of identities for [PushBack]. *)
Record Element := mkElement { eid : nat; Value : Node }.
Record List := mkList { elems : list Element; l_fresh : nat }.

Definition list_New : List := mkList [] 0.
Definition Len (l : List) : Z := Z.of_nat (length (elems l)).
Definition Front (l : List) : option Element := head (elems l).

Definition PushBack (v : Node) (l : List) : Element * List :=
  let e := mkElement (l_fresh l) v in
  (e, mkList (elems l ++ [e]) (S (l_fresh l))).

(** [l.Remove(e)] unlinks [e] when it is an element of [l]; the caller reads
    [e.Value] itself. *)
Definition Remove (e : Element) (l : List) : List :=
  mkList (filter (fun e' => eid e' <> eid e) (elems l)) (l_fresh l).

(** [l.MoveToBack(e)]: nothing happens when [e] is not an element of [l]. *)
Definition MoveToBack (e : Element) (l : List) : List :=
  mkList (filter (fun e' => eid e' <> eid e) (elems l)
          ++ filter (fun e' => eid e' = eid e) (elems l)) (l_fresh l).

(** ** Panics, errors and the state monad *)

(** Every [panic] site of the two files, named by its message, and the two
    run-time panics the code can reach: a method call through a nil pointer
    or interface, and an assignment into a nil map. *)
Inductive panic :=
  | GetNodeRequiresHash
  | ValueMissing (hash : bytes)
  | ErrorReadingNode (buf : bytes)
  | ExpectedNodeHash
  | AlreadyPersisted
  | WriteBytesError
  | OrphanExpiresBeforeAlive (fromVersion toVersion : Z)
  | DeleteLatestVersion
  | HashShouldNotBeEmpty
  | NilDereference
  | NilMapAssignment.

(** The [error] value returned by [saveRoot]:
    "Must save consecutive versions. Expected %d, got %d". *)
Inductive error :=
  | MustSaveConsecutive (expected got : Z).

(** The error kinds of the specification (section 7) and the kind it gives
    to each failure of the code. *)
Inductive ErrorKind :=
  | InvariantViolation
  | NonConsecutiveVersion
  | Corrupt
  | BackingStoreError.

Definition panic_kind (p : panic) : option ErrorKind :=
  match p with
  | GetNodeRequiresHash | ValueMissing _ | ExpectedNodeHash
  | AlreadyPersisted | OrphanExpiresBeforeAlive _ _ | DeleteLatestVersion
  | HashShouldNotBeEmpty => Some InvariantViolation
  | ErrorReadingNode _ => Some Corrupt
  | WriteBytesError | NilDereference | NilMapAssignment => None
  end.

Definition error_kind (e : error) : ErrorKind :=
  match e with MustSaveConsecutive _ _ => NonConsecutiveVersion end.

Inductive Result (A : Type) :=
  | Ok (a : A)
  | Panic (p : panic).
Arguments Ok {A} a.
Arguments Panic {A} p.

(** A method with receiver state [S]: it returns or panics, and in both cases
    leaves the receiver as mutated so far. *)
Definition M (S A : Type) : Type := S -> Result A * S.

Section Monad.
Context {S : Type}.

Definition ret {A} (a : A) : M S A := fun s => (Ok a, s).
Definition bind {A B} (m : M S A) (f : A -> M S B) : M S B :=
  fun s => match m s with
           | (Ok a, s') => f a s'
           | (Panic p, s') => (Panic p, s')
           end.
Definition throw {A} (p : panic) : M S A := fun s => (Panic p, s).
Definition get : M S S := fun s => (Ok s, s).
Definition gets {A} (f : S -> A) : M S A := fun s => (Ok (f s), s).
Definition modify (f : S -> S) : M S unit := fun s => (Ok tt, f s).

(** A [for] loop over the items an iterator or a [range] produces. *)
Fixpoint forM_ {A} (l : list A) (body : A -> M S unit) : M S unit :=
  match l with
  | [] => ret tt
  | x :: l' => bind (body x) (fun _ => forM_ l' body)
  end.
End Monad.

Notation "x <- m ;; k" := (bind m (fun x => k))
  (at level 100, m at next level, right associativity).
Notation "m ;; k" := (bind m (fun _ => k))
  (at level 100, right associativity).

(** ** [nodeDB2]: the two-lock variant *)

Module nodeDB2.

Record t := mk {
  db : DB;                              (* Persistent node storage. *)
  batch : list BatchOp;                 (* Batched writing buffer. *)
  latestVersion : Z;
  nodeCache : gmap bytes Element;       (* Node cache. *)
  nodeCacheSize : Z;                    (* Node cache size limit in elements. *)
  nodeCacheQueue : List;                (* LRU queue of cache elements. *)
  getLeafValueCb : option (bytes -> bytes);
}.

Definition set_db (x : DB) (ndb : t) : t :=
  mk x (batch ndb) (latestVersion ndb) (nodeCache ndb) (nodeCacheSize ndb)
    (nodeCacheQueue ndb) (getLeafValueCb ndb).
Definition set_batch (x : list BatchOp) (ndb : t) : t :=
  mk (db ndb) x (latestVersion ndb) (nodeCache ndb) (nodeCacheSize ndb)
    (nodeCacheQueue ndb) (getLeafValueCb ndb).
Definition set_latestVersion (x : Z) (ndb : t) : t :=
  mk (db ndb) (batch ndb) x (nodeCache ndb) (nodeCacheSize ndb)
    (nodeCacheQueue ndb) (getLeafValueCb ndb).
Definition set_nodeCache (x : gmap bytes Element) (ndb : t) : t :=
  mk (db ndb) (batch ndb) (latestVersion ndb) x (nodeCacheSize ndb)
    (nodeCacheQueue ndb) (getLeafValueCb ndb).
Definition set_nodeCacheQueue (x : List) (ndb : t) : t :=
  mk (db ndb) (batch ndb) (latestVersion ndb) (nodeCache ndb)
    (nodeCacheSize ndb) x (getLeafValueCb ndb).

(** [ndb.batch.Set(key, value)] and [ndb.batch.Delete(key)] *)
Definition batch_Set (k v : bytes) : M t unit :=
  modify (fun ndb => set_batch (batch ndb ++ [BSet k v]) ndb).
Definition batch_Delete (k : bytes) : M t unit :=
  modify (fun ndb => set_batch (batch ndb ++ [BDelete k]) ndb).

Definition NewNodeDB2 (db : DB) (cacheSize : Z)
    (getLeafValueCb : option (bytes -> bytes)) : t :=
  mk db [] 0 ∅ cacheSize list_New getLeafValueCb.

Definition getCachedNode (hash : bytes) : M t (option Node) :=
  ndb <- get ;;
  match nodeCache ndb !! hash with
  | Some elem =>
      (* Already exists. Move to back of nodeCacheQueue. *)
      modify (set_nodeCacheQueue (MoveToBack elem (nodeCacheQueue ndb))) ;;
      ret (Some (Value elem))
  | None => ret None
  end.

Definition uncacheNode (hash : bytes) : M t unit :=
  ndb <- get ;;
  match nodeCache ndb !! hash with
  | Some elem =>
      modify (set_nodeCacheQueue (Remove elem (nodeCacheQueue ndb))) ;;
      modify (fun ndb => set_nodeCache (delete hash (nodeCache ndb)) ndb)
  | None => ret tt
  end.

(** Add a node to the cache and pop the least recently used node if we've
    reached the cache size limit. *)
Definition cacheNode (node : Node) : M t unit :=
  ndb <- get ;;
  let (elem, queue) := PushBack node (nodeCacheQueue ndb) in
  modify (set_nodeCacheQueue queue) ;;
  modify (fun ndb =>
    set_nodeCache (<[string_of (hash node) := elem]> (nodeCache ndb)) ndb) ;;
  ndb <- get ;;
  if Len (nodeCacheQueue ndb) >? nodeCacheSize ndb then
    match Front (nodeCacheQueue ndb) with
    | Some oldest =>
        modify (set_nodeCacheQueue (Remove oldest (nodeCacheQueue ndb))) ;;
        modify (fun ndb =>
          set_nodeCache
            (delete (string_of (hash (Value oldest))) (nodeCache ndb)) ndb)
    | None => throw NilDereference
    end
  else ret tt.

(** GetNode gets a node from cache or disk. *)
Definition GetNode `{NodeCodec} (hash : bytes) : M t Node :=
  if (length hash =? 0)%nat then throw GetNodeRequiresHash else
  (* Check the cache. *)
  cached <- getCachedNode hash ;;
  match cached with
  | Some node => ret node
  | None =>
      (* Doesn't exist, load. *)
      ndb <- get ;;
      match Get (db ndb) (nodeKey hash) with
      | None => throw (ValueMissing hash)
      | Some buf =>
          match MakeNode buf (getLeafValueCb ndb) with
          | None => throw (ErrorReadingNode buf)
          | Some node =>
              let node := set_hash (Some hash) node in
              let node := set_persisted true node in
              cacheNode node ;;
              ret node
          end
      end
  end.

(** The node is passed by pointer: the result is the node as the call
    leaves it. *)
Definition writeNode `{NodeCodec} (node : Node) : M t Node :=
  ndb <- get ;;
  (* Save node bytes to db. *)
  match writeBytes node (bool_decide (getLeafValueCb ndb = None :> option _)) with
  | None => throw WriteBytesError
  | Some buf =>
      batch_Set (nodeKey (string_of (hash node))) buf ;;
      ret (set_persisted true node)
  end.

(** SaveNode saves a node to disk. *)
Definition SaveNode `{NodeCodec} (node : Node) (flushToDisk : bool)
  : M t Node :=
  if bool_decide (hash node = None) then throw ExpectedNodeHash else
  if persisted node then throw AlreadyPersisted else
  node <- writeNode node ;;
  cacheNode node ;;
  ret node.

(** Has checks if a hash exists in the database. *)
Definition Has (hash : bytes) (ndb : t) : bool :=
  bool_decide (is_Some (Get (db ndb) (nodeKey hash))).

(** SaveBranch saves the given node and all of its descendants.  The result
    pairs the returned hash with the node as the call leaves it.  The
    children are read from the argument: the assignments to [leftHash] and
    [rightHash] made before do not touch them. *)
Fixpoint saveBranch `{NodeCodec} (node : Node) : M t (option bytes * Node) :=
  if persisted node then ret (hash node, node) else
  node1 <- match leftNode node with
           | Some l =>
               r <- saveBranch l ;;
               ret (set_leftHash r.1 (set_leftNode (Some r.2) node))
           | None => ret node
           end ;;
  node2 <- match rightNode node with
           | Some r' =>
               r <- saveBranch r' ;;
               ret (set_rightHash r.1 (set_rightNode (Some r.2) node1))
           | None => ret node1
           end ;;
  node3 <- SaveNode (Node_hash node2) true ;;
  let node4 := set_rightNode None (set_leftNode None node3) in
  ret (hash node4, node4).

Definition SaveBranch `{NodeCodec} (node : Node) (flushToDisk : bool)
  : M t (option bytes * Node) :=
  saveBranch node.

Definition getPreviousVersion (version : Z) (ndb : t) : Z :=
  match ReverseIterator (db ndb)
          (Key rootKeyFormat [Int64 1]) (Key rootKeyFormat [Int64 version])
  with
  | (k, _) :: _ => ScanInt64 rootKeyFormat k 0
  | [] => 0
  end.

Definition getLatestVersion : M t Z :=
  ndb <- get ;;
  (if latestVersion ndb =? 0
   then modify (set_latestVersion (getPreviousVersion (2 ^ 63 - 1) ndb))
   else ret tt) ;;
  gets latestVersion.

Definition updateLatestVersion (version : Z) : M t unit :=
  ndb <- get ;;
  if latestVersion ndb <? version
  then modify (set_latestVersion version)
  else ret tt.

Definition resetLatestVersion (version : Z) : M t unit :=
  modify (set_latestVersion version).

Definition ResetMemNodes : M t unit := ret tt.
Definition ResetBatch : M t unit := modify (set_batch []).
Definition RestMemBatch : M t unit := modify (set_batch []).

(** Saves a single orphan to disk. *)
Definition saveOrphan (hash : bytes) (fromVersion toVersion : Z)
  : M t unit :=
  if fromVersion >? toVersion
  then throw (OrphanExpiresBeforeAlive fromVersion toVersion)
  else batch_Set (orphanKey fromVersion toVersion hash) hash.

(** Saves orphaned nodes to disk under a special prefix.  [range] is the
    order in which [range orphans] yields the entries of the map, which Go
    leaves open. *)
Definition SaveOrphans_in (range : list (bytes * Z)) (version : Z)
  : M t unit :=
  toVersion <- gets (getPreviousVersion version) ;;
  forM_ range (fun '(hash, fromVersion) =>
    saveOrphan hash fromVersion toVersion).

Definition SaveOrphans (version : Z) (orphans : gmap bytes Z) : M t unit :=
  SaveOrphans_in (map_to_list orphans) version.

(** Traverse all keys with a certain prefix. *)
Definition traversePrefix (prefix : bytes) (fn : bytes -> bytes -> M t unit)
  : M t unit :=
  ndb <- get ;;
  forM_ (IteratePrefix (db ndb) prefix) (fun '(k, v) => fn k v).

(** Traverse orphans ending at a certain version. *)
Definition traverseOrphansVersion (version : Z)
    (fn : bytes -> bytes -> M t unit) : M t unit :=
  traversePrefix (Key orphanKeyFormat [Int64 version]) fn.

(** The closure [func(key, hash []byte)] that [deleteOrphans] hands to
    [traverseOrphansVersion]; it captures [predecessor]. *)
Definition deleteOrphans_fn (predecessor : Z) (key hash : bytes)
  : M t unit :=
  let toVersion := ScanInt64 orphanKeyFormat key 0 in
  let fromVersion := ScanInt64 orphanKeyFormat key 1 in
  (* Delete orphan key and reverse-lookup key. *)
  batch_Delete key ;;
  if (predecessor <? fromVersion) || (fromVersion =? toVersion) then
    batch_Delete (nodeKey hash) ;;
    uncacheNode hash
  else
    saveOrphan hash fromVersion predecessor.

(** deleteOrphans deletes orphaned nodes from disk, and the associated
    orphan entries. *)
Definition deleteOrphans (version : Z) : M t unit :=
  (* Will be zero if there is no previous version. *)
  predecessor <- gets (getPreviousVersion version) ;;
  (* Traverse orphans with a lifetime ending at the version specified. *)
  traverseOrphansVersion version (deleteOrphans_fn predecessor).

(** deleteRoot deletes the root entry from disk, but not the node it points
    to. *)
Definition deleteRoot (version : Z) (checkLatestVersion : bool) : M t unit :=
  isLatest <- (if checkLatestVersion
               then latest <- getLatestVersion ;; ret (version =? latest)
               else ret false) ;;
  if isLatest : bool then throw DeleteLatestVersion
  else batch_Delete (rootKey version).

(** DeleteVersion deletes a tree version from disk. *)
Definition DeleteVersion (version : Z) (checkLatestVersion : bool)
  : M t unit :=
  deleteOrphans version ;;
  deleteRoot version checkLatestVersion.

Definition DeleteMemoryVersion (version previous : Z) : M t unit :=
  DeleteVersion version false.

(** Write to disk. *)
Definition Commit : M t unit :=
  modify (fun ndb => set_db (Write (batch ndb) (db ndb)) ndb) ;;
  modify (set_batch []).

Definition getRoot (version : Z) (ndb : t) : option bytes :=
  Get (db ndb) (rootKey version).

Definition saveRoot (hash : bytes) (version : Z) : M t (option error) :=
  latest <- getLatestVersion ;;
  if negb (version =? add64 latest 1) then
    latest' <- getLatestVersion ;;
    ret (Some (MustSaveConsecutive (add64 latest' 1) version))
  else
    batch_Set (rootKey version) hash ;;
    updateLatestVersion version ;;
    ret None.

(** SaveRoot creates an entry on disk for the given root, so that it can be
    loaded later. *)
Definition SaveRoot (root : Node) (version : Z) : M t (option error) :=
  if (length (string_of (hash root)) =? 0)%nat
  then throw HashShouldNotBeEmpty
  else saveRoot (string_of (hash root)) version.

(** SaveEmptyRoot creates an entry on disk for an empty root. *)
Definition SaveEmptyRoot (version : Z) : M t (option error) :=
  saveRoot [] version.

Definition MaxChacheSizeExceeded (ndb : t) : bool := true.

(** [getRoots] hands [traversePrefix] a closure that writes into its local
    map [roots]; the result is the fold of that closure over the entries
    under the root prefix.  The error returned beside it is always nil. *)
Definition getRoots (ndb : t) : gmap Z bytes :=
  foldl (fun roots '(k, v) => <[ScanInt64 rootKeyFormat k 0 := v]> roots)
    ∅ (IteratePrefix (db ndb) (Key rootKeyFormat [])).

Definition roots (ndb : t) : gmap Z bytes := getRoots ndb.

End nodeDB2.

(** ** [nodeDB]: the single-lock variant with the memory tier *)

Module nodeDB.

(** The store a batch was created by and will write to.  A batch of a
    memory store that [ResetMemNodes] has since replaced writes to a store
    nothing refers to any more. *)
Inductive BatchOwner :=
  | OfDB
  | OfDBMem
  | OfDropped.

Record t := mk {
  db : DB;                              (* Persistent node storage. *)
  dbMem : option DB;                    (* Memory node storage. *)
  batchOwner : BatchOwner;
  batch : list BatchOp;                 (* Batched writing buffer. *)
  memNodes : option (gmap bytes Node);
  latestVersion : Z;
  nodeCache : gmap bytes Element;       (* Node cache. *)
  nodeCacheSize : Z;                    (* Node cache size limit in elements. *)
  nodeMaxCacheSize : Z;                 (* Node maximum cache size. *)
  nodeCacheOnlyFlushOnSave : bool;      (* Only check the cache when saving. *)
  nodeCacheQueue : List;                (* LRU queue of cache elements. *)
  getLeafValueCb : option (bytes -> bytes);
}.

Definition set_db (x : DB) (ndb : t) : t :=
  mk x (dbMem ndb) (batchOwner ndb) (batch ndb) (memNodes ndb)
    (latestVersion ndb) (nodeCache ndb) (nodeCacheSize ndb)
    (nodeMaxCacheSize ndb) (nodeCacheOnlyFlushOnSave ndb)
    (nodeCacheQueue ndb) (getLeafValueCb ndb).
Definition set_dbMem (x : option DB) (ndb : t) : t :=
  mk (db ndb) x (batchOwner ndb) (batch ndb) (memNodes ndb)
    (latestVersion ndb) (nodeCache ndb) (nodeCacheSize ndb)
    (nodeMaxCacheSize ndb) (nodeCacheOnlyFlushOnSave ndb)
    (nodeCacheQueue ndb) (getLeafValueCb ndb).
Definition set_batchOwner (x : BatchOwner) (ndb : t) : t :=
  mk (db ndb) (dbMem ndb) x (batch ndb) (memNodes ndb)
    (latestVersion ndb) (nodeCache ndb) (nodeCacheSize ndb)
    (nodeMaxCacheSize ndb) (nodeCacheOnlyFlushOnSave ndb)
    (nodeCacheQueue ndb) (getLeafValueCb ndb).
Definition set_batch (x : list BatchOp) (ndb : t) : t :=
  mk (db ndb) (dbMem ndb) (batchOwner ndb) x (memNodes ndb)
    (latestVersion ndb) (nodeCache ndb) (nodeCacheSize ndb)
    (nodeMaxCacheSize ndb) (nodeCacheOnlyFlushOnSave ndb)
    (nodeCacheQueue ndb) (getLeafValueCb ndb).
Definition set_memNodes (x : option (gmap bytes Node)) (ndb : t) : t :=
  mk (db ndb) (dbMem ndb) (batchOwner ndb) (batch ndb) x
    (latestVersion ndb) (nodeCache ndb) (nodeCacheSize ndb)
    (nodeMaxCacheSize ndb) (nodeCacheOnlyFlushOnSave ndb)
    (nodeCacheQueue ndb) (getLeafValueCb ndb).
Definition set_latestVersion (x : Z) (ndb : t) : t :=
  mk (db ndb) (dbMem ndb) (batchOwner ndb) (batch ndb) (memNodes ndb)
    x (nodeCache ndb) (nodeCacheSize ndb)
    (nodeMaxCacheSize ndb) (nodeCacheOnlyFlushOnSave ndb)
    (nodeCacheQueue ndb) (getLeafValueCb ndb).
Definition set_nodeCache (x : gmap bytes Element) (ndb : t) : t :=
  mk (db ndb) (dbMem ndb) (batchOwner ndb) (batch ndb) (memNodes ndb)
    (latestVersion ndb) x (nodeCacheSize ndb)
    (nodeMaxCacheSize ndb) (nodeCacheOnlyFlushOnSave ndb)
    (nodeCacheQueue ndb) (getLeafValueCb ndb).
Definition set_nodeCacheQueue (x : List) (ndb : t) : t :=
  mk (db ndb) (dbMem ndb) (batchOwner ndb) (batch ndb) (memNodes ndb)
    (latestVersion ndb) (nodeCache ndb) (nodeCacheSize ndb)
    (nodeMaxCacheSize ndb) (nodeCacheOnlyFlushOnSave ndb)
    x (getLeafValueCb ndb).

Definition batch_Set (k v : bytes) : M t unit :=
  modify (fun ndb => set_batch (batch ndb ++ [BSet k v]) ndb).
Definition batch_Delete (k : bytes) : M t unit :=
  modify (fun ndb => set_batch (batch ndb ++ [BDelete k]) ndb).

Definition NewNodeDB (db : DB) (cacheSize : Z)
    (getLeafValueCb : option (bytes -> bytes)) : t :=
  mk db (Some ∅) OfDB [] (Some ∅) 0 ∅ cacheSize 0 false list_New
    getLeafValueCb.

(** [dbMem] and [memNodes] are left nil; the [uint64] [minCacheSize] is
    converted to [int]. *)
Definition NewNodeDB3 (db : DB) (minCacheSize maxCacheSize : Z)
    (nodeCacheOnlyFlushOnSave : bool)
    (getLeafValueCb : option (bytes -> bytes)) : t :=
  mk db None OfDB [] None 0 ∅ (wrap64 minCacheSize) maxCacheSize
    nodeCacheOnlyFlushOnSave list_New getLeafValueCb.

Definition uncacheNode (hash : bytes) : M t unit :=
  ndb <- get ;;
  match nodeCache ndb !! hash with
  | Some elem =>
      modify (set_nodeCacheQueue (Remove elem (nodeCacheQueue ndb))) ;;
      modify (fun ndb => set_nodeCache (delete hash (nodeCache ndb)) ndb)
  | None => ret tt
  end.

Definition MaxChacheSizeExceeded (ndb : t) : bool :=
  (nodeMaxCacheSize ndb >? 0)
  && (uint64 (Len (nodeCacheQueue ndb)) >? nodeMaxCacheSize ndb).

(** The three statements [cacheNode] and [FlushCache] share: take the front
    element of the queue, unlink it, and delete the cache entry of the hash
    of its node. *)
Definition evictOldest : M t unit :=
  ndb <- get ;;
  match Front (nodeCacheQueue ndb) with
  | Some oldest =>
      modify (set_nodeCacheQueue (Remove oldest (nodeCacheQueue ndb))) ;;
      modify (fun ndb =>
        set_nodeCache
          (delete (string_of (hash (Value oldest))) (nodeCache ndb)) ndb)
  | None => throw NilDereference
  end.

(** Add a node to the cache and pop the least recently used node if we've
    reached the cache size limit. *)
Definition cacheNode (node : Node) : M t unit :=
  ndb <- get ;;
  let (elem, queue) := PushBack node (nodeCacheQueue ndb) in
  modify (set_nodeCacheQueue queue) ;;
  modify (fun ndb =>
    set_nodeCache (<[string_of (hash node) := elem]> (nodeCache ndb)) ndb) ;;
  ndb <- get ;;
  if negb (nodeCacheOnlyFlushOnSave ndb)
     && (Len (nodeCacheQueue ndb) >? nodeCacheSize ndb)
  then evictOldest
  else ret tt.

(** [for ndb.nodeCacheQueue.Len() > ndb.nodeCacheSize { ... }].  Every
    round unlinks the front element, so the loop runs at most once per
    element of the queue and once more; [FlushCache] gives it that many
    rounds. *)
Fixpoint FlushCache_loop (rounds : nat) : M t unit :=
  match rounds with
  | O => ret tt
  | S rounds' =>
      ndb <- get ;;
      if Len (nodeCacheQueue ndb) >? nodeCacheSize ndb
      then evictOldest ;; FlushCache_loop rounds'
      else ret tt
  end.

Definition FlushCache : M t unit :=
  ndb <- get ;;
  FlushCache_loop (S (length (elems (nodeCacheQueue ndb)))).

(** [ndb.memNodes[string(hash)]]: reading a nil map finds nothing. *)
Definition memNodes_lookup (hash : bytes) (ndb : t) : option Node :=
  m ← memNodes ndb; m !! hash.

(** [ndb.memNodes[string(hash)] = node]: writing a nil map panics. *)
Definition memNodes_store (hash : bytes) (node : Node) : M t unit :=
  ndb <- get ;;
  match memNodes ndb with
  | Some m => modify (set_memNodes (Some (<[hash := node]> m)))
  | None => throw NilMapAssignment
  end.

(** GetNode gets a node from cache or disk.  A node found in [memNodes] is
    shared with that map, which therefore sees the assignment to its
    [hash]. *)
Definition GetNode `{NodeCodec} (hash : bytes) : M t Node :=
  if (length hash =? 0)%nat then throw GetNodeRequiresHash else
  ndb <- get ;;
  (* Check the cache. *)
  match nodeCache ndb !! hash with
  | Some elem =>
      (* Already exists. Move to back of nodeCacheQueue. *)
      modify (set_nodeCacheQueue (MoveToBack elem (nodeCacheQueue ndb))) ;;
      ret (Value elem)
  | None =>
      (* Try reading from memory *)
      match memNodes_lookup hash ndb with
      | Some node =>
          let node := set_hash (Some hash) node in
          memNodes_store hash node ;;
          cacheNode node ;;
          ret node
      | None =>
          (* Doesn't exist, load from disk *)
          match Get (db ndb) (nodeKey hash) with
          | None => throw (ValueMissing hash)
          | Some buf =>
              match MakeNode buf (getLeafValueCb ndb) with
              | None => throw (ErrorReadingNode buf)
              | Some node =>
                  let node := set_persisted true node in
                  let node := set_hash (Some hash) node in
                  cacheNode node ;;
                  ret node
              end
          end
      end
  end.

(** SaveNode saves a node to disk.  The result is the node as the call
    leaves it. *)
Definition SaveNode `{NodeCodec} (node : Node) (flushToDisk : bool)
  : M t Node :=
  if bool_decide (hash node = None) then throw ExpectedNodeHash else
  if persistedMem node && negb flushToDisk then ret node else
  if persisted node then throw AlreadyPersisted else
  ndb <- get ;;
  (* Save node bytes to db. *)
  match writeBytes node (bool_decide (getLeafValueCb ndb = None :> option _)) with
  | None => throw WriteBytesError
  | Some buf =>
      node <- (if flushToDisk then
                 batch_Set (nodeKey (string_of (hash node))) buf ;;
                 ret (set_persisted true node)
               else
                 let node := set_persistedMem true node in
                 memNodes_store (string_of (hash node)) node ;;
                 ret node) ;;
      cacheNode node ;;
      ret node
  end.

Definition ResetMemNodes : M t unit :=
  modify (fun ndb =>
    set_batchOwner
      (match batchOwner ndb with OfDB => OfDB | _ => OfDropped end)
      (set_memNodes (Some ∅) (set_dbMem (Some ∅) ndb))).

Definition ResetBatch : M t unit :=
  modify (fun ndb => set_batchOwner OfDB (set_batch [] ndb)).

Definition RestMemBatch : M t unit :=
  ndb <- get ;;
  match dbMem ndb with
  | Some _ => modify (fun ndb => set_batchOwner OfDBMem (set_batch [] ndb))
  | None => throw NilDereference
  end.

(** Has checks if a hash exists in the database. *)
Definition Has (hash : bytes) (ndb : t) : bool :=
  bool_decide (is_Some (Get (db ndb) (nodeKey hash))).

(** SaveBranch saves the given node and all of its descendants.  The result
    pairs the returned hash with the node as the call leaves it. *)
Fixpoint SaveBranch `{NodeCodec} (node : Node) (flushToDisk : bool)
  : M t (option bytes * Node) :=
  if persisted node then ret (hash node, node) else
  if persistedMem node && negb flushToDisk then ret (hash node, node) else
  node1 <- match leftNode node with
           | Some l =>
               r <- SaveBranch l flushToDisk ;;
               ret (set_leftHash r.1 (set_leftNode (Some r.2) node))
           | None => ret node
           end ;;
  node2 <- match rightNode node with
           | Some r' =>
               r <- SaveBranch r' flushToDisk ;;
               ret (set_rightHash r.1 (set_rightNode (Some r.2) node1))
           | None => ret node1
           end ;;
  node3 <- SaveNode (Node_hash node2) flushToDisk ;;
  let node4 := if flushToDisk
               then set_rightNode None (set_leftNode None node3)
               else node3 in
  ret (hash node4, node4).

Definition getPreviousVersioni (version : Z) (db : DB) : Z :=
  match ReverseIterator db
          (Key rootKeyFormat [Int64 1]) (Key rootKeyFormat [Int64 version])
  with
  | (k, _) :: _ => ScanInt64 rootKeyFormat k 0
  | [] => 0
  end.

Definition getPreviousVersion (version : Z) (ndb : t) : Z :=
  getPreviousVersioni version (db ndb).

Definition getLatestVersion : M t Z :=
  ndb <- get ;;
  (if latestVersion ndb =? 0
   then modify (set_latestVersion (getPreviousVersion (2 ^ 63 - 1) ndb))
   else ret tt) ;;
  gets latestVersion.

Definition updateLatestVersion (version : Z) : M t unit :=
  ndb <- get ;;
  if latestVersion ndb <? version
  then modify (set_latestVersion version)
  else ret tt.

Definition resetLatestVersion (version : Z) : M t unit :=
  modify (set_latestVersion version).

(** Saves a single orphan to disk. *)
Definition saveOrphan (hash : bytes) (fromVersion toVersion : Z)
  : M t unit :=
  if fromVersion >? toVersion
  then throw (OrphanExpiresBeforeAlive fromVersion toVersion)
  else batch_Set (orphanKey fromVersion toVersion hash) hash.

(** Saves orphaned nodes to disk under a special prefix.  [range] is the
    order in which [range orphans] yields the entries of the map, which Go
    leaves open. *)
Definition SaveOrphans_in (range : list (bytes * Z)) (version : Z)
  : M t unit :=
  (* When saving a new version, the previous version will always be one
     less than the new version *)
  let toVersion := sub64 version 1 in
  forM_ range (fun '(hash, fromVersion) =>
    saveOrphan hash fromVersion toVersion).

Definition SaveOrphans (version : Z) (orphans : gmap bytes Z) : M t unit :=
  SaveOrphans_in (map_to_list orphans) version.

(** Traverse all keys with a certain prefix. *)
Definition traversePrefix (prefix : bytes) (fn : bytes -> bytes -> M t unit)
  : M t unit :=
  ndb <- get ;;
  forM_ (IteratePrefix (db ndb) prefix) (fun '(k, v) => fn k v).

(** Traverse orphans ending at a certain version. *)
Definition traverseOrphansVersion (version : Z)
    (fn : bytes -> bytes -> M t unit) : M t unit :=
  traversePrefix (Key orphanKeyFormat [Int64 version]) fn.

(** The closure [func(key, hash []byte)] that
    [deleteOrphansWithPredecessor] hands to [traverseOrphansVersion]; it
    captures [predecessor]. *)
Definition deleteOrphans_fn (predecessor : Z) (key hash : bytes)
  : M t unit :=
  let toVersion := ScanInt64 orphanKeyFormat key 0 in
  let fromVersion := ScanInt64 orphanKeyFormat key 1 in
  (* Delete orphan key and reverse-lookup key. *)
  batch_Delete key ;;
  if (predecessor <? fromVersion) || (fromVersion =? toVersion) then
    batch_Delete (nodeKey hash) ;;
    uncacheNode hash
  else
    saveOrphan hash fromVersion predecessor.

(** [deleteOrphansWithPredecessor(version, predecessor, nil)]: the part of
    the function that runs for a nil [unsavedOrphans], which is how
    [deleteOrphans] calls it.  The loop over a non-nil [unsavedOrphans]
    (reached from [DeleteMemoryVersion] only) deletes from and inserts into
    the map it ranges over, which Go does not make deterministic; it is not
    embedded. *)
Definition deleteOrphansWithPredecessor (version predecessor : Z)
  : M t unit :=
  (* Traverse orphans with a lifetime ending at the version specified. *)
  traverseOrphansVersion version (deleteOrphans_fn predecessor).

(** deleteOrphans deletes orphaned nodes from disk, and the associated
    orphan entries. *)
Definition deleteOrphans (version : Z) : M t unit :=
  (* Will be zero if there is no previous version. *)
  predecessor <- gets (getPreviousVersion version) ;;
  deleteOrphansWithPredecessor version predecessor.

(** deleteRoot deletes the root entry from disk, but not the node it points
    to. *)
Definition deleteRoot (version : Z) (checkLatestVersion : bool) : M t unit :=
  isLatest <- (if checkLatestVersion
               then latest <- getLatestVersion ;; ret (version =? latest)
               else ret false) ;;
  if isLatest : bool then throw DeleteLatestVersion
  else batch_Delete (rootKey version).

(** DeleteVersion deletes a tree version from disk. *)
Definition DeleteVersion (version : Z) (checkLatestVersion : bool)
  : M t unit :=
  deleteOrphans version ;;
  deleteRoot version checkLatestVersion.

(** [ndb.batch.Write()]: the batch goes to the store that created it. *)
Definition batch_Write : M t unit :=
  modify (fun ndb =>
    match batchOwner ndb with
    | OfDB => set_db (Write (batch ndb) (db ndb)) ndb
    | OfDBMem => set_dbMem (Write (batch ndb) <$> dbMem ndb) ndb
    | OfDropped => ndb
    end).

(** Write to disk. *)
Definition Commit : M t unit :=
  batch_Write ;;
  modify (fun ndb => set_batchOwner OfDB (set_batch [] ndb)) ;;
  FlushCache.

Definition getRoot (version : Z) : M t (option bytes) :=
  ndb <- get ;;
  match dbMem ndb with
  | None => throw NilDereference
  | Some mem =>
      let memroot := Get mem (rootKey version) in
      if (0 <? length (default [] memroot))%nat then ret memroot
      else ret (Get (db ndb) (rootKey version))
  end.

Definition saveRoot (hash : bytes) (version : Z) : M t (option error) :=
  latest <- getLatestVersion ;;
  if negb (version =? add64 latest 1) then
    latest' <- getLatestVersion ;;
    ret (Some (MustSaveConsecutive (add64 latest' 1) version))
  else
    batch_Set (rootKey version) hash ;;
    updateLatestVersion version ;;
    ret None.

(** SaveRoot creates an entry on disk for the given root, so that it can be
    loaded later. *)
Definition SaveRoot (root : Node) (version : Z) : M t (option error) :=
  if (length (string_of (hash root)) =? 0)%nat
  then throw HashShouldNotBeEmpty
  else saveRoot (string_of (hash root)) version.

(** SaveEmptyRoot creates an entry on disk for an empty root. *)
Definition SaveEmptyRoot (version : Z) : M t (option error) :=
  saveRoot [] version.

(** [DeleteMemoryVersion(version, previous, nil)]: deletes a tree version
    with the predecessor the caller names. *)
Definition DeleteMemoryVersion (version previous : Z) : M t unit :=
  deleteOrphansWithPredecessor version previous ;;
  deleteRoot version false.

(** [getRoots] reads the backing store only, through [traversePrefix]; its
    closure writes into the local map [roots]. *)
Definition getRoots (ndb : t) : gmap Z bytes :=
  foldl (fun roots '(k, v) => <[ScanInt64 rootKeyFormat k 0 := v]> roots)
    ∅ (IteratePrefix (db ndb) (Key rootKeyFormat [])).

Definition roots (ndb : t) : gmap Z bytes := getRoots ndb.

End nodeDB.

(** * Sample stores *)

(** A small codec for running the store on concrete inputs: a node is stored
    as its key, the empty buffer does not decode, and the hash of a node is
    its key. *)
Definition sample_node (k : bytes) : Node :=
  mkNode k None 0 0 None None None None None false false.

Definition sample_codec : NodeCodec := {|
  MakeNode buf cb :=
    match buf with [] => None | _ => Some (sample_node buf) end;
  writeBytes n includeValues := Some (key n);
  Node_hash n :=
    match hash n with Some _ => n | None => set_hash (Some (key n)) n end;
|}.

(** The state a method leaves behind. *)
Definition after {S A} (m : M S A) (s : S) : S := (m s).2.

(** A two-lock store in which version 1 is committed and an orphan of
    lifetime [1, 1] has been committed for the coming version 2. *)
Definition store_v1_orphan : nodeDB2.t :=
  after nodeDB2.Commit
    (after (nodeDB2.SaveOrphans 2 {[ [9] := 1 ]})
       (after nodeDB2.Commit
          (after (nodeDB2.saveRoot [1] 1) (nodeDB2.NewNodeDB2 ∅ 10 None)))).

(** A two-lock store and a single-lock store in which version 1 is committed
    and the root of version 2 is buffered but not yet committed. *)
Definition store2_v2_pending : nodeDB2.t :=
  after (nodeDB2.saveRoot [2] 2)
    (after nodeDB2.Commit
       (after (nodeDB2.saveRoot [1] 1) (nodeDB2.NewNodeDB2 ∅ 10 None))).

Definition store_v2_pending : nodeDB.t :=
  after (nodeDB.saveRoot [2] 2)
    (after nodeDB.Commit
       (after (nodeDB.saveRoot [1] 1) (nodeDB.NewNodeDB ∅ 10 None))).

(** A single-lock store made by [NewNodeDB3] with a cache limit of 0 that is
    only enforced on commit, after one node has been saved to disk. *)
Definition store_flush_on_save : nodeDB.t :=
  after (@nodeDB.SaveNode sample_codec
           (set_hash (Some [7]) (sample_node [7])) true)
    (nodeDB.NewNodeDB3 ∅ 0 0 true None).

(** A single-lock store with a cache limit of 0 in which one node has been
    saved to memory only. *)
Definition store_mem_node : nodeDB.t :=
  after (@nodeDB.SaveNode sample_codec
           (set_hash (Some [7]) (sample_node [7])) false)
    (nodeDB.NewNodeDB ∅ 0 None).

(** A two-lock store in which versions 1, 2 and 3 are committed, the third
    with one orphan of lifetime [1, 2]. *)
Definition store_v3_orphan : nodeDB2.t :=
  after nodeDB2.Commit
    (after (nodeDB2.saveRoot [3] 3)
       (after (nodeDB2.SaveOrphans 3 {[ [9] := 1 ]})
          (after nodeDB2.Commit
             (after (nodeDB2.saveRoot [2] 2)
                (after nodeDB2.Commit
                   (after (nodeDB2.saveRoot [1] 1)
                      (nodeDB2.NewNodeDB2 ∅ 10 None))))))).

(** A two-lock store with a cache limit of 0 whose backing store holds one
    committed node. *)
Definition store2_with_node : nodeDB2.t :=
  after nodeDB2.Commit
    (after (@nodeDB2.SaveNode sample_codec
              (set_hash (Some [7]) (sample_node [7])) true)
       (nodeDB2.NewNodeDB2 ∅ 0 None)).

(** * What the specification says, as definitions *)

(** Every key of the store under the root prefix is the root key of a
    version.  The store only ever writes root keys through [rootKey]. *)
Definition wf_roots (db : DB) : Prop :=
  forall k v, db !! k = Some v -> head k = Some 114 ->
    exists ver, is_int64 ver /\ k = rootKey ver.

(** A test for [wf_roots] that computes. *)
Definition root_key_ok (k : bytes) : bool :=
  if bool_decide (head k = Some 114)
  then bool_decide (k = rootKey (ScanInt64 rootKeyFormat k 0))
  else true.

Definition wf_roots_check (db : DB) : bool :=
  forallb (fun kv => root_key_ok kv.1) (map_to_list db).

(** A batch operation that writes under the root prefix writes the root key
    of a version. *)
Definition root_op_ok (op : BatchOp) : Prop :=
  match op with
  | BSet k _ =>
      head k = Some 114 -> exists ver, is_int64 ver /\ k = rootKey ver
  | BDelete _ => True
  end.

(** The root keys of a store are well formed in the backing store and in
    the pending batch. *)
Definition nodeDB2_roots_ok (ndb : nodeDB2.t) : Prop :=
  wf_roots (nodeDB2.db ndb) /\ Forall root_op_ok (nodeDB2.batch ndb).

Definition nodeDB_roots_ok (ndb : nodeDB.t) : Prop :=
  wf_roots (nodeDB.db ndb) /\ Forall root_op_ok (nodeDB.batch ndb).

(** The lifetime [first, last] an orphan key carries. *)
Definition orphan_last (key : bytes) : Z := ScanInt64 orphanKeyFormat key 0.
Definition orphan_first (key : bytes) : Z := ScanInt64 orphanKeyFormat key 1.

(** Section 4.5, delete_version, step 3: the node of an orphan goes when
    [predecessor < first] or [first == last]. *)
Definition orphan_expired (predecessor : Z) (key : bytes) : bool :=
  (predecessor <? orphan_first key) || (orphan_first key =? orphan_last key).

(** What step 3 buffers for one orphan entry: the deletion of the entry, then
    either the deletion of the node entry or a replacement orphan entry with
    [last := predecessor]. *)
Definition prune_ops (predecessor : Z) (entry : bytes * bytes)
  : list BatchOp :=
  BDelete entry.1 ::
    (if orphan_expired predecessor entry.1
     then [BDelete (nodeKey entry.2)]
     else [BSet (orphanKey (orphan_first entry.1) predecessor entry.2)
             entry.2]).

(** What step 3 does to the cache map for one orphan entry. *)
Definition prune_cache (predecessor : Z) (cache : gmap bytes Element)
    (entry : bytes * bytes) : gmap bytes Element :=
  if orphan_expired predecessor entry.1 then delete entry.2 cache else cache.

(** The queue once the element the cache holds for [hash], if any, is
    unlinked. *)
Definition uncached_queue (cache : gmap bytes Element) (hash : bytes)
    (queue : List) : List :=
  match cache !! hash with
  | Some elem => Remove elem queue
  | None => queue
  end.

(** The cache of [ndb'] is the cache of [ndb] with some elements unlinked
    and some entries deleted; nothing else differs. *)
Definition nodeDB_cache_shrunk (ndb ndb' : nodeDB.t) : Prop :=
  sublist (elems (nodeDB.nodeCacheQueue ndb'))
    (elems (nodeDB.nodeCacheQueue ndb))
  /\ nodeDB.nodeCache ndb' ⊆ nodeDB.nodeCache ndb
  /\ ndb' = nodeDB.set_nodeCache (nodeDB.nodeCache ndb')
              (nodeDB.set_nodeCacheQueue (nodeDB.nodeCacheQueue ndb') ndb).

(** The single-lock store once [Commit] has written the batch to the store
    that owns it and installed a fresh batch of the backing store, before
    the cache is trimmed. *)
Definition nodeDB_flushed (ndb : nodeDB.t) : nodeDB.t :=
  nodeDB.set_batchOwner nodeDB.OfDB
    (nodeDB.set_batch []
       match nodeDB.batchOwner ndb with
       | nodeDB.OfDB =>
           nodeDB.set_db (Write (nodeDB.batch ndb) (nodeDB.db ndb)) ndb
       | nodeDB.OfDBMem =>
           nodeDB.set_dbMem
             (Write (nodeDB.batch ndb) <$> nodeDB.dbMem ndb) ndb
       | nodeDB.OfDropped => ndb
       end).

(** The queue and the cache map agree: the elements of the queue are
    distinct and older than the next one to be allocated, and every entry of
    the map points to an element of the queue that holds a node of that
    hash. *)
Definition cache_wf (cache : gmap bytes Element) (q : List) : Prop :=
  NoDup (eid <$> elems q)
  /\ Forall (fun e => (eid e < l_fresh q)%nat) (elems q)
  /\ map_Forall
       (fun h e => e ∈ elems q /\ string_of (hash (Value e)) = h) cache.

(** The store once [node] is pushed on the queue and entered in the cache
    map, before any eviction. *)
Definition nodeDB2_pushed (node : Node) (ndb : nodeDB2.t) : nodeDB2.t :=
  nodeDB2.set_nodeCache
    (<[string_of (hash node) := (PushBack node (nodeDB2.nodeCacheQueue ndb)).1]>
       (nodeDB2.nodeCache ndb))
    (nodeDB2.set_nodeCacheQueue
       (PushBack node (nodeDB2.nodeCacheQueue ndb)).2 ndb).

Definition nodeDB_pushed (node : Node) (ndb : nodeDB.t) : nodeDB.t :=
  nodeDB.set_nodeCache
    (<[string_of (hash node) := (PushBack node (nodeDB.nodeCacheQueue ndb)).1]>
       (nodeDB.nodeCache ndb))
    (nodeDB.set_nodeCacheQueue
       (PushBack node (nodeDB.nodeCacheQueue ndb)).2 ndb).

(** The store once the element [oldest] is unlinked and the cache entry of
    its node's hash deleted. *)
Definition nodeDB2_evicted (oldest : Element) (ndb : nodeDB2.t) : nodeDB2.t :=
  nodeDB2.set_nodeCache
    (delete (string_of (hash (Value oldest))) (nodeDB2.nodeCache ndb))
    (nodeDB2.set_nodeCacheQueue
       (Remove oldest (nodeDB2.nodeCacheQueue ndb)) ndb).

Definition nodeDB_evicted (oldest : Element) (ndb : nodeDB.t) : nodeDB.t :=
  nodeDB.set_nodeCache
    (delete (string_of (hash (Value oldest))) (nodeDB.nodeCache ndb))
    (nodeDB.set_nodeCacheQueue
       (Remove oldest (nodeDB.nodeCacheQueue ndb)) ndb).

(** The cache is within its limit and well formed; for the single-lock
    store, with the limit enforced at every insert. *)
Definition nodeDB2_cache_bounded (ndb : nodeDB2.t) : Prop :=
  cache_wf (nodeDB2.nodeCache ndb) (nodeDB2.nodeCacheQueue ndb)
  /\ Len (nodeDB2.nodeCacheQueue ndb) <= nodeDB2.nodeCacheSize ndb.

Definition nodeDB_cache_bounded (ndb : nodeDB.t) : Prop :=
  nodeDB.nodeCacheOnlyFlushOnSave ndb = false
  /\ cache_wf (nodeDB.nodeCache ndb) (nodeDB.nodeCacheQueue ndb)
  /\ Len (nodeDB.nodeCacheQueue ndb) <= nodeDB.nodeCacheSize ndb.

(** A method keeps the property [I] of the store, whether it returns or
    panics. *)
Definition preserves {S A} (I : S -> Prop) (m : M S A) : Prop :=
  forall s, I s -> I (m s).2.

(** * Definitions for the further properties *)

(** A batch operation that writes a node entry. *)
Definition is_node_write (op : BatchOp) : Prop :=
  exists h buf, op = BSet (nodeKey h) buf.

(** The store [ndb'] is [ndb] with node writes appended to the batch and,
    possibly, another cache: the backing store, what the batch held and the
    version counter are the same. *)
Definition nodeDB2_appended (ndb ndb' : nodeDB2.t) : Prop :=
  nodeDB2.db ndb' = nodeDB2.db ndb
  /\ nodeDB2.latestVersion ndb' = nodeDB2.latestVersion ndb
  /\ exists ops,
       nodeDB2.batch ndb' = nodeDB2.batch ndb ++ ops
       /\ Forall is_node_write ops.

Definition nodeDB_appended (ndb ndb' : nodeDB.t) : Prop :=
  nodeDB.db ndb' = nodeDB.db ndb
  /\ nodeDB.dbMem ndb' = nodeDB.dbMem ndb
  /\ nodeDB.batchOwner ndb' = nodeDB.batchOwner ndb
  /\ nodeDB.latestVersion ndb' = nodeDB.latestVersion ndb
  /\ exists ops,
       nodeDB.batch ndb' = nodeDB.batch ndb ++ ops
       /\ Forall is_node_write ops.

(** A single-lock store without its memory tier: the memory store and the
    memory-node map are nil. *)
Definition nodeDB_no_memory (ndb : nodeDB.t) : Prop :=
  nodeDB.dbMem ndb = None /\ nodeDB.memNodes ndb = None.

(** * Properties *)

(** ** 64-bit arithmetic *)

Lemma pow2_63 : 2 ^ 63 = 9223372036854775808.
Proof. reflexivity. Qed.

Lemma pow2_64 : 2 ^ 64 = 18446744073709551616.
Proof. reflexivity. Qed.

Lemma is_int64_wrap64 z : is_int64 (wrap64 z).
Proof.
  unfold is_int64, wrap64, minInt64, maxInt64. rewrite pow2_63, pow2_64.
  pose proof (Z.mod_pos_bound (z + 9223372036854775808) 18446744073709551616).
  lia.
Qed.

Lemma wrap64_id v : is_int64 v -> wrap64 v = v.
Proof.
  unfold is_int64, wrap64, minInt64, maxInt64. rewrite pow2_63, pow2_64.
  intros Hv. rewrite Z.mod_small by lia. lia.
Qed.

Lemma wrap64_uint64 v : is_int64 v -> wrap64 (uint64 v) = v.
Proof.
  unfold is_int64, wrap64, uint64, minInt64, maxInt64.
  rewrite pow2_63, pow2_64. intros Hv.
  rewrite Zplus_mod_idemp_l. rewrite Z.mod_small by lia. lia.
Qed.

Lemma uint64_nonneg v : 0 <= v <= maxInt64 -> uint64 v = v.
Proof.
  unfold uint64, maxInt64. rewrite pow2_63, pow2_64. intros Hv.
  apply Z.mod_small. lia.
Qed.

Lemma uint64_neg v : minInt64 <= v < 0 -> 2 ^ 63 <= uint64 v < 2 ^ 64.
Proof.
  unfold uint64, minInt64. rewrite pow2_63, pow2_64. intros Hv.
  replace v with (v + 18446744073709551616 + (-1) * 18446744073709551616)
    by lia.
  rewrite Z.mod_add by lia. rewrite Z.mod_small by lia. lia.
Qed.

Lemma uint64_bound v : 0 <= uint64 v < 2 ^ 64.
Proof. unfold uint64. apply Z.mod_pos_bound. rewrite pow2_64. lia. Qed.

Lemma add64_succ v : minInt64 <= v < maxInt64 -> add64 v 1 = v + 1.
Proof.
  intros Hv. apply wrap64_id. unfold is_int64, minInt64, maxInt64 in *. lia.
Qed.

Lemma sub64_pred v : minInt64 < v <= maxInt64 -> sub64 v 1 = v - 1.
Proof.
  intros Hv. apply wrap64_id. unfold is_int64, minInt64, maxInt64 in *. lia.
Qed.

(** ** The byte order *)

Lemma bytes_compare_refl a : bytes_compare a a = Eq.
Proof. induction a as [|x a IH]; simpl; [done|]. by rewrite Z.compare_refl. Qed.

Lemma bytes_compare_eq a b : bytes_compare a b = Eq -> a = b.
Proof.
  revert b. induction a as [|x a IH]; intros [|y b]; simpl; try done.
  destruct (Z.compare_spec x y); try done. intros. f_equal; auto.
Qed.

Lemma bytes_compare_antisym a b :
  bytes_compare b a = CompOpp (bytes_compare a b).
Proof.
  revert b. induction a as [|x a IH]; intros [|y b]; simpl; try done.
  rewrite (Z.compare_antisym x y).
  destruct (x ?= y); simpl; auto.
Qed.

Lemma bytes_compare_lt_trans a b c :
  bytes_compare a b = Lt -> bytes_compare b c = Lt -> bytes_compare a c = Lt.
Proof.
  revert b c. induction a as [|x a IH]; intros [|y b] [|z c]; simpl; try done.
  destruct (Z.compare_spec x y), (Z.compare_spec y z); try done; subst.
  - rewrite Z.compare_refl. apply IH.
  - intros _ _. by apply Z.compare_lt_iff in H0 as ->.
  - intros _ _. by apply Z.compare_lt_iff in H as ->.
  - intros _ _. assert (x < z) as ->%Z.compare_lt_iff by lia. done.
Qed.

Lemma bytes_leb_spec a b :
  bytes_leb a b = true <-> bytes_compare a b = Lt \/ a = b.
Proof.
  unfold bytes_leb. split.
  - destruct (bytes_compare a b) eqn:E; try done; auto.
    right. by apply bytes_compare_eq.
  - intros [-> | ->]; [done|]. by rewrite bytes_compare_refl.
Qed.

Lemma bytes_ltb_spec a b : bytes_ltb a b = true <-> bytes_compare a b = Lt.
Proof. unfold bytes_ltb. destruct (bytes_compare a b); split; done. Qed.

#[global] Instance entry_le_trans : Transitive entry_le.
Proof.
  intros [a ?] [b ?] [c ?]. unfold entry_le. simpl.
  rewrite !Is_true_true, !bytes_leb_spec.
  intros [H1 | ->] [H2 | ->]; eauto using bytes_compare_lt_trans.
Qed.

#[global] Instance entry_le_total : Total entry_le.
Proof.
  intros [a ?] [b ?]. unfold entry_le, bytes_leb. simpl.
  rewrite (bytes_compare_antisym a b).
  destruct (bytes_compare a b); simpl; auto.
Qed.

Lemma bytes_compare_cons x a b :
  bytes_compare (x :: a) (x :: b) = bytes_compare a b.
Proof. simpl. by rewrite Z.compare_refl. Qed.

Lemma bytes_compare_snoc a b x y :
  length a = length b ->
  bytes_compare (a ++ [x]) (b ++ [y]) =
    match bytes_compare a b with Eq => x ?= y | c => c end.
Proof.
  revert b. induction a as [|x' a IH]; intros [|y' b]; simpl; try done.
  - by destruct (x ?= y).
  - intros [= Hlen]. destruct (x' ?= y'); auto.
Qed.

(** ** Big-endian integers *)

Lemma length_be_bytes n u : length (be_bytes n u) = n.
Proof.
  revert u. induction n as [|n IH]; intros u; simpl; [done|].
  rewrite length_app, IH. simpl. lia.
Qed.

Lemma be_value_snoc l x : be_value (l ++ [x]) = be_value l * 256 + x.
Proof. unfold be_value. by rewrite foldl_app. Qed.

Lemma be_value_be_bytes n u : be_value (be_bytes n u) = u mod 256 ^ Z.of_nat n.
Proof.
  revert u. induction n as [|n IH]; intros u.
  - simpl. by rewrite Z.mod_1_r.
  - cbn [be_bytes]. rewrite be_value_snoc, IH.
    rewrite Nat2Z.inj_succ, Z.pow_succ_r by lia.
    assert (0 < 256 ^ Z.of_nat n) by (apply Z.pow_pos_nonneg; lia).
    rewrite Z.rem_mul_r by lia. lia.
Qed.

Lemma be_bytes_compare n a b :
  0 <= a < 256 ^ Z.of_nat n -> 0 <= b < 256 ^ Z.of_nat n ->
  bytes_compare (be_bytes n a) (be_bytes n b) = (a ?= b).
Proof.
  revert a b. induction n as [|n IH]; intros a b Ha Hb.
  - simpl in *. assert (a = 0) as -> by lia. by assert (b = 0) as -> by lia.
  - cbn [be_bytes]. rewrite bytes_compare_snoc by by rewrite !length_be_bytes.
    rewrite Nat2Z.inj_succ, Z.pow_succ_r in Ha, Hb by lia.
    assert (0 < 256 ^ Z.of_nat n) by (apply Z.pow_pos_nonneg; lia).
    rewrite IH.
    2,3: split; [apply Z.div_pos; lia | apply Z.div_lt_upper_bound; lia].
    pose proof (Z.div_mod a 256 ltac:(lia)) as Ea.
    pose proof (Z.div_mod b 256 ltac:(lia)) as Eb.
    pose proof (Z.mod_pos_bound a 256 ltac:(lia)).
    pose proof (Z.mod_pos_bound b 256 ltac:(lia)).
    destruct (Z.compare_spec (a / 256) (b / 256)) as [E|E|E].
    + rewrite E in Ea.
      destruct (Z.compare_spec (a `mod` 256) (b `mod` 256));
        symmetry; [apply Z.compare_eq_iff | apply Z.compare_lt_iff
                  | apply Z.compare_gt_iff]; lia.
    + symmetry. apply Z.compare_lt_iff. lia.
    + symmetry. apply Z.compare_gt_iff. lia.
Qed.

Lemma pow256_8 : 256 ^ Z.of_nat int64Size = 2 ^ 64.
Proof. reflexivity. Qed.

(** The eight bytes are the shifts of [encoding/binary]'s [PutUint64]. *)
Lemma be_bytes_shifts u :
  be_bytes int64Size u =
    [Z.land (Z.shiftr u 56) 255; Z.land (Z.shiftr u 48) 255;
     Z.land (Z.shiftr u 40) 255; Z.land (Z.shiftr u 32) 255;
     Z.land (Z.shiftr u 24) 255; Z.land (Z.shiftr u 16) 255;
     Z.land (Z.shiftr u 8) 255; Z.land u 255].
Proof.
  cbn [be_bytes int64Size app].
  change 255 with (Z.ones 8). rewrite !Z.land_ones by lia.
  rewrite !Z.shiftr_div_pow2 by lia.
  rewrite !Z.div_div by lia. reflexivity.
Qed.

(** ** Keys *)

Arguments be_bytes : simpl never.

Lemma nodeKey_unfold hash : nodeKey hash = 110 :: hash.
Proof. unfold nodeKey, KeyBytes. cbn [concat kf_prefix nodeKeyFormat]. by rewrite app_nil_r. Qed.

Lemma rootKey_unfold v : rootKey v = 114 :: be_bytes int64Size (uint64 v).
Proof.
  unfold rootKey, Key, KeyBytes.
  cbn [fmap list_fmap format concat kf_prefix rootKeyFormat].
  by rewrite app_nil_r.
Qed.

Lemma orphanKey_unfold fromVersion toVersion hash :
  orphanKey fromVersion toVersion hash =
    111 :: be_bytes int64Size (uint64 toVersion)
        ++ be_bytes int64Size (uint64 fromVersion) ++ hash.
Proof.
  unfold orphanKey, Key, KeyBytes.
  cbn [fmap list_fmap format concat kf_prefix orphanKeyFormat].
  by rewrite app_nil_r.
Qed.

Lemma orphanPrefix_unfold v :
  Key orphanKeyFormat [Int64 v] = 111 :: be_bytes int64Size (uint64 v).
Proof.
  unfold Key, KeyBytes.
  cbn [fmap list_fmap format concat kf_prefix orphanKeyFormat].
  by rewrite app_nil_r.
Qed.

Lemma HasPrefix_spec s prefix :
  HasPrefix s prefix = true <-> exists k, s = prefix ++ k.
Proof.
  revert s. induction prefix as [|p prefix IH]; intros s; cbn [HasPrefix].
  - split; eauto.
  - destruct s as [|x s].
    + split; [done | by intros [k ?]].
    + rewrite andb_true_iff, IH, Z.eqb_eq. split.
      * intros [-> [k ->]]. eauto.
      * intros [k [= -> ->]]. eauto.
Qed.

Lemma ScanInt64_rootKey v : is_int64 v -> ScanInt64 rootKeyFormat (rootKey v) 0 = v.
Proof.
  intros Hv. unfold ScanInt64, segment. rewrite rootKey_unfold.
  cbn [rootKeyFormat kf_layout lookup_total list_lookup_total take sum_list
       sum_list_with Nat.add drop].
  rewrite drop_0, take_ge by (rewrite length_be_bytes; done).
  rewrite be_value_be_bytes, pow256_8.
  rewrite Z.mod_small by apply uint64_bound. by apply wrap64_uint64.
Qed.

Lemma ScanInt64_orphan_to key v :
  is_int64 v ->
  HasPrefix key (Key orphanKeyFormat [Int64 v]) = true ->
  ScanInt64 orphanKeyFormat key 0 = v.
Proof.
  intros Hv [k ->]%HasPrefix_spec. unfold ScanInt64, segment.
  rewrite orphanPrefix_unfold.
  cbn [orphanKeyFormat kf_layout lookup_total list_lookup_total take sum_list
       sum_list_with Nat.add drop app].
  rewrite drop_0, take_app_length' by (by rewrite length_be_bytes).
  rewrite be_value_be_bytes, pow256_8.
  rewrite Z.mod_small by apply uint64_bound. by apply wrap64_uint64.
Qed.

Lemma ScanInt64_orphanKey fromVersion toVersion hash :
  is_int64 fromVersion -> is_int64 toVersion ->
  ScanInt64 orphanKeyFormat (orphanKey fromVersion toVersion hash) 0 = toVersion
  /\ ScanInt64 orphanKeyFormat (orphanKey fromVersion toVersion hash) 1
     = fromVersion.
Proof.
  intros Hf Ht. split.
  - apply ScanInt64_orphan_to; [done|]. apply HasPrefix_spec.
    rewrite orphanKey_unfold, orphanPrefix_unfold.
    exists (be_bytes int64Size (uint64 fromVersion) ++ hash). done.
  - unfold ScanInt64, segment. rewrite orphanKey_unfold.
    cbn [orphanKeyFormat kf_layout lookup_total list_lookup_total take
         sum_list sum_list_with Nat.add drop].
    rewrite drop_app_length' by (by rewrite length_be_bytes).
    rewrite take_app_length' by (by rewrite length_be_bytes).
    rewrite be_value_be_bytes, pow256_8.
    rewrite Z.mod_small by apply uint64_bound. by apply wrap64_uint64.
Qed.

(** Root keys are ordered as their versions, for versions from 0 up. *)
Lemma rootKey_compare a b :
  0 <= a <= maxInt64 -> 0 <= b <= maxInt64 ->
  bytes_compare (rootKey a) (rootKey b) = (a ?= b).
Proof.
  intros Ha Hb. rewrite !rootKey_unfold, bytes_compare_cons.
  rewrite be_bytes_compare by (rewrite pow256_8; apply uint64_bound).
  by rewrite !uint64_nonneg.
Qed.

(** ** Iterators of the backing store *)

Lemma elem_of_IteratePrefix db prefix k v :
  (k, v) ∈ IteratePrefix db prefix <->
  db !! k = Some v /\ HasPrefix k prefix = true.
Proof.
  unfold IteratePrefix. rewrite merge_sort_Permutation.
  rewrite list_elem_of_filter, elem_of_map_to_list.
  unfold has_prefix. simpl. rewrite Is_true_true. tauto.
Qed.

Lemma elem_of_ReverseIterator db start end_ k v :
  (k, v) ∈ ReverseIterator db start end_ <->
  db !! k = Some v /\ bytes_leb start k = true /\ bytes_ltb k end_ = true.
Proof.
  unfold ReverseIterator. rewrite elem_of_reverse, merge_sort_Permutation.
  rewrite list_elem_of_filter, elem_of_map_to_list.
  unfold in_range. simpl. rewrite Is_true_true, andb_true_iff. tauto.
Qed.

(** The first entry a reverse iterator yields has the greatest key of the
    range. *)
Lemma ReverseIterator_first db start end_ k v rest :
  ReverseIterator db start end_ = (k, v) :: rest ->
  forall k' v', (k', v') ∈ ReverseIterator db start end_ ->
    bytes_leb k' k = true.
Proof.
  unfold ReverseIterator. intros Hrev k' v' Hin.
  set (l := merge_sort entry_le _) in *.
  assert (StronglySorted entry_le l) as Hs
    by (apply Sorted_StronglySorted; [apply _ | apply Sorted_merge_sort, _]).
  assert (l = reverse rest ++ [(k, v)]) as El.
  { rewrite <- (reverse_involutive l), Hrev. by rewrite reverse_cons. }
  rewrite Hrev in Hin. rewrite El in Hs.
  apply elem_of_cons in Hin as [[= -> ->] | Hin].
  - apply bytes_leb_spec. by right.
  - apply Is_true_true.
    apply (StronglySorted_app_1_elem_of entry_le _ _ (k', v') (k, v) Hs);
      [by apply elem_of_reverse | by apply list_elem_of_singleton].
Qed.

(** ** The version index *)

Lemma nodeDB2_getPreviousVersion version ndb :
  nodeDB2.getPreviousVersion version ndb
  = nodeDB.getPreviousVersioni version (nodeDB2.db ndb).
Proof. reflexivity. Qed.

Lemma root_range_head k v :
  bytes_leb (rootKey 1) k = true -> bytes_ltb k (rootKey v) = true ->
  head k = Some 114.
Proof.
  rewrite !rootKey_unfold. unfold bytes_leb, bytes_ltb.
  destruct k as [|x k]; [done|]. cbn [bytes_compare head].
  destruct (Z.compare_spec 114 x), (Z.compare_spec x 114);
    try done; try lia; by subst.
Qed.

Lemma root_range_version ver version :
  is_int64 ver -> 1 <= version <= maxInt64 ->
  bytes_leb (rootKey 1) (rootKey ver) = true ->
  bytes_ltb (rootKey ver) (rootKey version) = true ->
  1 <= ver < version.
Proof.
  intros Hver Hv. rewrite !rootKey_unfold. unfold bytes_leb, bytes_ltb.
  rewrite !bytes_compare_cons.
  rewrite !be_bytes_compare by (rewrite pow256_8; apply uint64_bound).
  rewrite (uint64_nonneg 1) by (unfold maxInt64; rewrite pow2_63; lia).
  rewrite (uint64_nonneg version) by lia.
  destruct (Z.compare_spec 1 (uint64 ver)) as [E|E|E]; try done;
    destruct (Z.compare_spec (uint64 ver) version) as [E'|E'|E']; try done;
    intros _ _.
  all: destruct (Z_lt_ge_dec ver 0) as [Hneg|Hpos];
    [ pose proof (uint64_neg ver ltac:(unfold is_int64 in *; lia));
      unfold maxInt64 in *; lia
    | rewrite uint64_nonneg in * by (unfold is_int64 in *; lia); lia ].
Qed.

Lemma root_in_range v' version :
  1 <= v' < version -> version <= maxInt64 ->
  bytes_leb (rootKey 1) (rootKey v') = true
  /\ bytes_ltb (rootKey v') (rootKey version) = true.
Proof.
  intros Hv' Hv. unfold bytes_leb, bytes_ltb.
  assert (maxInt64 = 9223372036854775807) as Hmax by reflexivity.
  rewrite !rootKey_compare by lia.
  destruct (Z.compare_spec 1 v'), (Z.compare_spec v' version);
    try done; lia.
Qed.

(** [getPreviousVersion(version)] is the greatest version below [version]
    that has a root entry in the store, and 0 when there is none. *)
Lemma getPreviousVersioni_spec version db :
  1 <= version <= maxInt64 -> wf_roots db ->
  let p := nodeDB.getPreviousVersioni version db in
  0 <= p < version
  /\ (p <> 0 -> is_Some (db !! rootKey p))
  /\ (forall v', 1 <= v' < version -> is_Some (db !! rootKey v') -> v' <= p).
Proof.
  intros Hv Hwf. unfold nodeDB.getPreviousVersioni.
  fold (rootKey 1). fold (rootKey version).
  destruct (ReverseIterator db (rootKey 1) (rootKey version))
    as [|[k val] rest] eqn:Hit; cbn zeta.
  - split; [lia|]. split; [done|]. intros v' Hv' [val Hval].
    destruct (root_in_range v' version) as [H1 H2]; [lia..|].
    assert ((rootKey v', val) ∈ ReverseIterator db (rootKey 1) (rootKey version))
      as Hin by by apply elem_of_ReverseIterator.
    rewrite Hit in Hin. by apply elem_of_nil in Hin.
  - assert ((k, val) ∈ ReverseIterator db (rootKey 1) (rootKey version))
      as (Hk & Hlo & Hhi)%elem_of_ReverseIterator
      by (rewrite Hit; apply list_elem_of_here).
    destruct (Hwf k val Hk (root_range_head _ _ Hlo Hhi)) as (ver & Hver & ->).
    rewrite ScanInt64_rootKey by done.
    pose proof (root_range_version ver version Hver Hv Hlo Hhi).
    split; [lia|]. split; [by eauto|].
    intros v' Hv' [val' Hval'].
    destruct (root_in_range v' version) as [H1 H2]; [lia..|].
    assert ((rootKey v', val') ∈ ReverseIterator db (rootKey 1) (rootKey version))
      as Hin by by apply elem_of_ReverseIterator.
    pose proof (ReverseIterator_first _ _ _ _ _ _ Hit _ _ Hin) as Hle.
    unfold bytes_leb in Hle.
    assert (maxInt64 = 9223372036854775807) as Hmax by reflexivity.
    rewrite rootKey_compare in Hle by lia.
    destruct (Z.compare_spec v' ver); try done; lia.
Qed.

(** ** Recording an orphan *)

Lemma nodeDB_saveOrphan_eq hash fromVersion toVersion (ndb : nodeDB.t) :
  nodeDB.saveOrphan hash fromVersion toVersion ndb =
    if fromVersion >? toVersion
    then (Panic (OrphanExpiresBeforeAlive fromVersion toVersion), ndb)
    else (Ok tt,
          nodeDB.set_batch
            (nodeDB.batch ndb
               ++ [BSet (orphanKey fromVersion toVersion hash) hash]) ndb).
Proof. unfold nodeDB.saveOrphan. by destruct (fromVersion >? toVersion). Qed.

Lemma nodeDB2_saveOrphan_eq hash fromVersion toVersion (ndb : nodeDB2.t) :
  nodeDB2.saveOrphan hash fromVersion toVersion ndb =
    if fromVersion >? toVersion
    then (Panic (OrphanExpiresBeforeAlive fromVersion toVersion), ndb)
    else (Ok tt,
          nodeDB2.set_batch
            (nodeDB2.batch ndb
               ++ [BSet (orphanKey fromVersion toVersion hash) hash]) ndb).
Proof. unfold nodeDB2.saveOrphan. by destruct (fromVersion >? toVersion). Qed.

(** C7.  In both variants, recording an orphan [(hash, first, last)] panics
    with "Orphan expires before it comes alive" (an InvariantViolation)
    exactly when [first > last], leaving the store as it was; when
    [first <= last] it appends to the batch one write whose key is the byte
    'o' (111), then [last] on 8 bytes big-endian, then [first] on 8 bytes
    big-endian, then the hash, and whose value is the hash. *)
Theorem saveOrphan_records (hash : bytes) (first last : Z) :
  let key := 111 :: be_bytes 8 (uint64 last)
                 ++ be_bytes 8 (uint64 first) ++ hash in
  panic_kind (OrphanExpiresBeforeAlive first last) = Some InvariantViolation
  /\ (forall ndb : nodeDB.t,
        (first > last ->
           nodeDB.saveOrphan hash first last ndb
           = (Panic (OrphanExpiresBeforeAlive first last), ndb))
        /\ (first <= last ->
           nodeDB.saveOrphan hash first last ndb
           = (Ok tt,
              nodeDB.set_batch (nodeDB.batch ndb ++ [BSet key hash]) ndb)))
  /\ (forall ndb : nodeDB2.t,
        (first > last ->
           nodeDB2.saveOrphan hash first last ndb
           = (Panic (OrphanExpiresBeforeAlive first last), ndb))
        /\ (first <= last ->
           nodeDB2.saveOrphan hash first last ndb
           = (Ok tt,
              nodeDB2.set_batch (nodeDB2.batch ndb ++ [BSet key hash]) ndb))).
Proof.
  intros key. split; [done|].
  assert (orphanKey first last hash = key) as Hkey
    by apply orphanKey_unfold.
  split; intros ndb.
  - rewrite nodeDB_saveOrphan_eq, Hkey.
    split; intros H; destruct (Z.gtb_spec first last); try lia; done.
  - rewrite nodeDB2_saveOrphan_eq, Hkey.
    split; intros H; destruct (Z.gtb_spec first last); try lia; done.
Qed.

(** ** The cache-size predicate *)

(** C9.  [nodeDB2.MaxChacheSizeExceeded] is [true] in every state, whatever
    the cache holds; [nodeDB.MaxChacheSizeExceeded] is [true] exactly when
    the configured maximum is positive and the queue length, read as a
    [uint64], exceeds it. *)
Theorem MaxChacheSizeExceeded_variants :
  (forall ndb : nodeDB2.t, nodeDB2.MaxChacheSizeExceeded ndb = true)
  /\ (forall ndb : nodeDB.t,
        nodeDB.MaxChacheSizeExceeded ndb = true <->
        0 < nodeDB.nodeMaxCacheSize ndb
        /\ nodeDB.nodeMaxCacheSize ndb
           < uint64 (Len (nodeDB.nodeCacheQueue ndb))).
Proof.
  split; [done|]. intros ndb. unfold nodeDB.MaxChacheSizeExceeded.
  rewrite andb_true_iff, !Z.gtb_ltb, !Z.ltb_lt. done.
Qed.

(** ** Running monadic code *)

Lemma bind_Ok {S A B} (m : M S A) (f : A -> M S B) s a s' :
  m s = (Ok a, s') -> bind m f s = f a s'.
Proof. unfold bind. by intros ->. Qed.

Lemma bind_Panic {S A B} (m : M S A) (f : A -> M S B) s p s' :
  m s = (Panic p, s') -> bind m f s = (Panic p, s').
Proof. unfold bind. by intros ->. Qed.

Lemma forM__app {S A} (l1 l2 : list A) (body : A -> M S unit) s :
  forM_ (l1 ++ l2) body s = bind (forM_ l1 body) (fun _ => forM_ l2 body) s.
Proof.
  revert s. induction l1 as [|x l1 IH]; intros s; cbn [forM_ app].
  - reflexivity.
  - unfold bind in *. destruct (body x s) as [[[]|p] s']; [|reflexivity].
    apply IH.
Qed.

Arguments rootKey : simpl never.
Arguments orphanKey : simpl never.
Arguments nodeKey : simpl never.
Arguments Key : simpl never.
Arguments ScanInt64 : simpl never.
Arguments ReverseIterator : simpl never.
Arguments IteratePrefix : simpl never.
Arguments Write : simpl never.
Arguments add64 : simpl never.
Arguments sub64 : simpl never.
Arguments nodeDB.getPreviousVersioni : simpl never.
Arguments nodeDB.getPreviousVersion : simpl never.
Arguments nodeDB2.getPreviousVersion : simpl never.

(** ** Saving a root *)

Lemma nodeDB2_getLatestVersion_eq (ndb : nodeDB2.t) :
  nodeDB2.getLatestVersion ndb =
    let L := if nodeDB2.latestVersion ndb =? 0
             then nodeDB2.getPreviousVersion (2 ^ 63 - 1) ndb
             else nodeDB2.latestVersion ndb in
    (Ok L, nodeDB2.set_latestVersion L ndb).
Proof.
  unfold nodeDB2.getLatestVersion, bind, get, gets, modify, ret.
  destruct ndb as [d b l c cs q cb]; cbn.
  destruct (l =? 0); reflexivity.
Qed.

Lemma nodeDB_getLatestVersion_eq (ndb : nodeDB.t) :
  nodeDB.getLatestVersion ndb =
    let L := if nodeDB.latestVersion ndb =? 0
             then nodeDB.getPreviousVersion (2 ^ 63 - 1) ndb
             else nodeDB.latestVersion ndb in
    (Ok L, nodeDB.set_latestVersion L ndb).
Proof.
  unfold nodeDB.getLatestVersion, bind, get, gets, modify, ret.
  destruct ndb as [d dm bo b mn l c cs mcs fl q cb]; cbn.
  destruct (l =? 0); reflexivity.
Qed.

Lemma nodeDB2_getLatestVersion_idem (ndb ndb1 : nodeDB2.t) L :
  nodeDB2.getLatestVersion ndb = (Ok L, ndb1) ->
  nodeDB2.getLatestVersion ndb1 = (Ok L, ndb1)
  /\ ndb1 = nodeDB2.set_latestVersion L ndb.
Proof.
  rewrite !nodeDB2_getLatestVersion_eq. cbn zeta. intros [= HL <-].
  rewrite HL. split; [|done].
  destruct ndb as [d b l c cs q cb]; cbn in *.
  destruct (Z.eqb_spec L 0) as [->|?]; [|done].
  unfold nodeDB2.getPreviousVersion in *. cbn in *.
  destruct (Z.eqb_spec l 0); [by rewrite HL | done].
Qed.

Lemma nodeDB_getLatestVersion_idem (ndb ndb1 : nodeDB.t) L :
  nodeDB.getLatestVersion ndb = (Ok L, ndb1) ->
  nodeDB.getLatestVersion ndb1 = (Ok L, ndb1)
  /\ ndb1 = nodeDB.set_latestVersion L ndb.
Proof.
  rewrite !nodeDB_getLatestVersion_eq. cbn zeta. intros [= HL <-].
  rewrite HL. split; [|done].
  destruct ndb as [d dm bo b mn l c cs mcs fl q cb]; cbn in *.
  destruct (Z.eqb_spec L 0) as [->|?]; [|done].
  unfold nodeDB.getPreviousVersion in *. cbn in *.
  destruct (Z.eqb_spec l 0); [by rewrite HL | done].
Qed.

Lemma nodeDB2_saveRoot_spec (ndb ndb1 : nodeDB2.t) L hash v :
  nodeDB2.getLatestVersion ndb = (Ok L, ndb1) ->
  (v <> add64 L 1 ->
     nodeDB2.saveRoot hash v ndb
     = (Ok (Some (MustSaveConsecutive (add64 L 1) v)), ndb1))
  /\ (v = add64 L 1 ->
     nodeDB2.saveRoot hash v ndb
     = (Ok None,
        nodeDB2.set_latestVersion (Z.max L v)
          (nodeDB2.set_batch
             (nodeDB2.batch ndb ++ [BSet (rootKey v) hash]) ndb))).
Proof.
  intros Hget.
  destruct (nodeDB2_getLatestVersion_idem _ _ _ Hget) as [Hget1 Hndb1].
  unfold nodeDB2.saveRoot. rewrite (bind_Ok _ _ _ _ _ Hget).
  split; intros Hv.
  - destruct (Z.eqb_spec v (add64 L 1)); [done|]. cbn [negb].
    by rewrite (bind_Ok _ _ _ _ _ Hget1).
  - destruct (Z.eqb_spec v (add64 L 1)); [|done]. cbn [negb]. subst ndb1.
    unfold nodeDB2.updateLatestVersion, nodeDB2.batch_Set, bind, get,
      modify, ret.
    destruct ndb; cbn.
    destruct (Z.ltb_spec L v);
      [by rewrite Z.max_r by lia | by rewrite Z.max_l by lia].
Qed.

Lemma nodeDB_saveRoot_spec (ndb ndb1 : nodeDB.t) L hash v :
  nodeDB.getLatestVersion ndb = (Ok L, ndb1) ->
  (v <> add64 L 1 ->
     nodeDB.saveRoot hash v ndb
     = (Ok (Some (MustSaveConsecutive (add64 L 1) v)), ndb1))
  /\ (v = add64 L 1 ->
     nodeDB.saveRoot hash v ndb
     = (Ok None,
        nodeDB.set_latestVersion (Z.max L v)
          (nodeDB.set_batch
             (nodeDB.batch ndb ++ [BSet (rootKey v) hash]) ndb))).
Proof.
  intros Hget.
  destruct (nodeDB_getLatestVersion_idem _ _ _ Hget) as [Hget1 Hndb1].
  unfold nodeDB.saveRoot. rewrite (bind_Ok _ _ _ _ _ Hget).
  split; intros Hv.
  - destruct (Z.eqb_spec v (add64 L 1)); [done|]. cbn [negb].
    by rewrite (bind_Ok _ _ _ _ _ Hget1).
  - destruct (Z.eqb_spec v (add64 L 1)); [|done]. cbn [negb]. subst ndb1.
    unfold nodeDB.updateLatestVersion, nodeDB.batch_Set, bind, get,
      modify, ret.
    destruct ndb; cbn.
    destruct (Z.ltb_spec L v);
      [by rewrite Z.max_r by lia | by rewrite Z.max_l by lia].
Qed.

(** C5.  In both variants, let [L] be what [getLatestVersion] returns and
    [L + 1] the [int64] sum the code compares with.  For every hash (the
    empty one of [SaveEmptyRoot] included) and every version [v]:
    [saveRoot] returns the "Must save consecutive versions" error (a
    NonConsecutiveVersion) and leaves batch and store untouched when [v] is
    not [L + 1]; when [v] is [L + 1] it returns nil, appends the write
    [rootKey(v) := hash] to the batch, leaves the store untouched and sets
    the counter to the larger of [L] and [v].  For [L] from 0 up to but
    excluding the largest [int64], the sum does not wrap around and
    [getLatestVersion] returns [v] after a successful call. *)
Theorem saveRoot_consecutive (hash : bytes) (v : Z) :
  (forall (ndb ndb1 : nodeDB.t) (L : Z),
     nodeDB.getLatestVersion ndb = (Ok L, ndb1) ->
     nodeDB.SaveEmptyRoot v ndb = nodeDB.saveRoot [] v ndb
     /\ nodeDB.batch ndb1 = nodeDB.batch ndb
     /\ nodeDB.db ndb1 = nodeDB.db ndb
     /\ (0 <= L < maxInt64 -> add64 L 1 = L + 1)
     /\ (v <> add64 L 1 ->
           nodeDB.saveRoot hash v ndb
           = (Ok (Some (MustSaveConsecutive (add64 L 1) v)), ndb1)
           /\ error_kind (MustSaveConsecutive (add64 L 1) v)
              = NonConsecutiveVersion)
     /\ (v = add64 L 1 ->
           exists ndb2,
             nodeDB.saveRoot hash v ndb = (Ok None, ndb2)
             /\ nodeDB.batch ndb2
                = nodeDB.batch ndb ++ [BSet (rootKey v) hash]
             /\ nodeDB.db ndb2 = nodeDB.db ndb
             /\ nodeDB.latestVersion ndb2 = Z.max L v
             /\ (0 <= L < maxInt64 ->
                   nodeDB.getLatestVersion ndb2 = (Ok v, ndb2))))
  /\
  (forall (ndb ndb1 : nodeDB2.t) (L : Z),
     nodeDB2.getLatestVersion ndb = (Ok L, ndb1) ->
     nodeDB2.SaveEmptyRoot v ndb = nodeDB2.saveRoot [] v ndb
     /\ nodeDB2.batch ndb1 = nodeDB2.batch ndb
     /\ nodeDB2.db ndb1 = nodeDB2.db ndb
     /\ (0 <= L < maxInt64 -> add64 L 1 = L + 1)
     /\ (v <> add64 L 1 ->
           nodeDB2.saveRoot hash v ndb
           = (Ok (Some (MustSaveConsecutive (add64 L 1) v)), ndb1)
           /\ error_kind (MustSaveConsecutive (add64 L 1) v)
              = NonConsecutiveVersion)
     /\ (v = add64 L 1 ->
           exists ndb2,
             nodeDB2.saveRoot hash v ndb = (Ok None, ndb2)
             /\ nodeDB2.batch ndb2
                = nodeDB2.batch ndb ++ [BSet (rootKey v) hash]
             /\ nodeDB2.db ndb2 = nodeDB2.db ndb
             /\ nodeDB2.latestVersion ndb2 = Z.max L v
             /\ (0 <= L < maxInt64 ->
                   nodeDB2.getLatestVersion ndb2 = (Ok v, ndb2)))).
Proof.
  assert (forall L, 0 <= L < maxInt64 -> add64 L 1 = L + 1) as Hadd
    by (intros L HL; apply add64_succ; unfold minInt64, maxInt64 in *; lia).
  split; intros ndb ndb1 L Hget.
  - destruct (nodeDB_saveRoot_spec ndb ndb1 L hash v Hget) as [Hne Heq].
    destruct (nodeDB_getLatestVersion_idem _ _ _ Hget) as [_ ->].
    split; [done|]. split; [by destruct ndb|]. split; [by destruct ndb|].
    split; [by auto|]. split; [by auto|].
    intros Hv. eexists. split; [by apply Heq|].
    split; [by destruct ndb|]. split; [by destruct ndb|].
    split; [by destruct ndb|]. intros HL.
    rewrite nodeDB_getLatestVersion_eq. rewrite (Hadd L HL) in Hv.
    destruct ndb; cbn. rewrite Z.max_r by lia.
    destruct (Z.eqb_spec v 0); [lia | done].
  - destruct (nodeDB2_saveRoot_spec ndb ndb1 L hash v Hget) as [Hne Heq].
    destruct (nodeDB2_getLatestVersion_idem _ _ _ Hget) as [_ ->].
    split; [done|]. split; [by destruct ndb|]. split; [by destruct ndb|].
    split; [by auto|]. split; [by auto|].
    intros Hv. eexists. split; [by apply Heq|].
    split; [by destruct ndb|]. split; [by destruct ndb|].
    split; [by destruct ndb|]. intros HL.
    rewrite nodeDB2_getLatestVersion_eq. rewrite (Hadd L HL) in Hv.
    destruct ndb; cbn. rewrite Z.max_r by lia.
    destruct (Z.eqb_spec v 0); [lia | done].
Qed.

(** ** Pruning the orphans of a version *)

Lemma sublist_uncached_queue cache hash q :
  sublist (elems (uncached_queue cache hash q)) (elems q).
Proof.
  unfold uncached_queue. destruct (cache !! hash); [|done].
  apply sublist_filter.
Qed.


Lemma nodeDB2_uncacheNode_spec hash (ndb : nodeDB2.t) :
  nodeDB2.uncacheNode hash ndb =
    (Ok tt,
     nodeDB2.set_nodeCache (delete hash (nodeDB2.nodeCache ndb))
       (nodeDB2.set_nodeCacheQueue
          (uncached_queue (nodeDB2.nodeCache ndb) hash
             (nodeDB2.nodeCacheQueue ndb)) ndb)).
Proof.
  unfold nodeDB2.uncacheNode, uncached_queue, bind, get, modify, ret.
  destruct (nodeDB2.nodeCache ndb !! hash) eqn:E; [done|].
  rewrite delete_id by done. by destruct ndb.
Qed.

Lemma nodeDB2_deleteOrphans_fn_spec predecessor key hash (ndb : nodeDB2.t) :
  nodeDB2.deleteOrphans_fn predecessor key hash ndb =
    (Ok tt,
     let ndb1 := nodeDB2.set_batch
                   (nodeDB2.batch ndb ++ prune_ops predecessor (key, hash))
                   ndb in
     if orphan_expired predecessor key
     then nodeDB2.set_nodeCache (delete hash (nodeDB2.nodeCache ndb))
            (nodeDB2.set_nodeCacheQueue
               (uncached_queue (nodeDB2.nodeCache ndb) hash
                  (nodeDB2.nodeCacheQueue ndb)) ndb1)
     else ndb1).
Proof.
  unfold nodeDB2.deleteOrphans_fn, prune_ops, orphan_expired, orphan_first,
    orphan_last. cbn [fst snd].
  unfold nodeDB2.batch_Delete at 1. unfold bind at 1, modify at 1.
  destruct (_ || _) eqn:Hc.
  - unfold bind, nodeDB2.batch_Delete, modify.
    rewrite nodeDB2_uncacheNode_spec. destruct ndb; cbn.
    by rewrite <- !(assoc_L (++)).
  - rewrite nodeDB2_saveOrphan_eq.
    apply orb_false_iff in Hc as [Hc _]. apply Z.ltb_ge in Hc.
    destruct (Z.gtb_spec (ScanInt64 orphanKeyFormat key 1) predecessor);
      [lia|].
    destruct ndb; cbn. by rewrite <- !(assoc_L (++)).
Qed.
Lemma nodeDB2_prune_all predecessor entries (ndb : nodeDB2.t) :
  exists ndb',
    forM_ entries
      (fun '(k, v) => nodeDB2.deleteOrphans_fn predecessor k v) ndb
    = (Ok tt, ndb')
    /\ nodeDB2.batch ndb'
       = nodeDB2.batch ndb ++ concat (prune_ops predecessor <$> entries)
    /\ nodeDB2.nodeCache ndb'
       = foldl (prune_cache predecessor) (nodeDB2.nodeCache ndb) entries
    /\ sublist (elems (nodeDB2.nodeCacheQueue ndb'))
         (elems (nodeDB2.nodeCacheQueue ndb))
    /\ nodeDB2.db ndb' = nodeDB2.db ndb
    /\ nodeDB2.latestVersion ndb' = nodeDB2.latestVersion ndb
    /\ nodeDB2.nodeCacheSize ndb' = nodeDB2.nodeCacheSize ndb.
Proof.
  revert ndb. induction entries as [|[k v] entries IH]; intros ndb.
  - exists ndb. cbn. by rewrite app_nil_r.
  - cbn [forM_]. unfold bind. rewrite nodeDB2_deleteOrphans_fn_spec.
    cbn zeta.
    edestruct IH as (ndb' & -> & Hb & Hc & Hq & Hd & Hl & Hs).
    exists ndb'. split; [done|].
    rewrite Hb, Hc, Hd, Hl, Hs. cbn [fmap list_fmap concat foldl].
    assert (prune_cache predecessor (nodeDB2.nodeCache ndb) (k, v)
            = if orphan_expired predecessor k
              then delete v (nodeDB2.nodeCache ndb)
              else nodeDB2.nodeCache ndb) as -> by done.
    destruct (orphan_expired predecessor k) eqn:He, ndb; cbn in *;
      rewrite <- ?(assoc_L (++)); repeat split; try done.
    all: etrans; [exact Hq|]; apply sublist_uncached_queue.
Qed.

Lemma nodeDB2_deleteOrphans_eq version (ndb : nodeDB2.t) :
  nodeDB2.deleteOrphans version ndb =
    forM_ (IteratePrefix (nodeDB2.db ndb) (Key orphanKeyFormat [Int64 version]))
      (fun '(k, v) =>
         nodeDB2.deleteOrphans_fn (nodeDB2.getPreviousVersion version ndb) k v)
      ndb.
Proof. reflexivity. Qed.

Lemma nodeDB_uncacheNode_spec hash (ndb : nodeDB.t) :
  nodeDB.uncacheNode hash ndb =
    (Ok tt,
     nodeDB.set_nodeCache (delete hash (nodeDB.nodeCache ndb))
       (nodeDB.set_nodeCacheQueue
          (uncached_queue (nodeDB.nodeCache ndb) hash
             (nodeDB.nodeCacheQueue ndb)) ndb)).
Proof.
  unfold nodeDB.uncacheNode, uncached_queue, bind, get, modify, ret.
  destruct (nodeDB.nodeCache ndb !! hash) eqn:E; [done|].
  rewrite delete_id by done. by destruct ndb.
Qed.

Lemma nodeDB_deleteOrphans_fn_spec predecessor key hash (ndb : nodeDB.t) :
  nodeDB.deleteOrphans_fn predecessor key hash ndb =
    (Ok tt,
     let ndb1 := nodeDB.set_batch
                   (nodeDB.batch ndb ++ prune_ops predecessor (key, hash))
                   ndb in
     if orphan_expired predecessor key
     then nodeDB.set_nodeCache (delete hash (nodeDB.nodeCache ndb))
            (nodeDB.set_nodeCacheQueue
               (uncached_queue (nodeDB.nodeCache ndb) hash
                  (nodeDB.nodeCacheQueue ndb)) ndb1)
     else ndb1).
Proof.
  unfold nodeDB.deleteOrphans_fn, prune_ops, orphan_expired, orphan_first,
    orphan_last. cbn [fst snd].
  unfold nodeDB.batch_Delete at 1. unfold bind at 1, modify at 1.
  destruct (_ || _) eqn:Hc.
  - unfold bind, nodeDB.batch_Delete, modify.
    rewrite nodeDB_uncacheNode_spec. destruct ndb; cbn.
    by rewrite <- !(assoc_L (++)).
  - rewrite nodeDB_saveOrphan_eq.
    apply orb_false_iff in Hc as [Hc _]. apply Z.ltb_ge in Hc.
    destruct (Z.gtb_spec (ScanInt64 orphanKeyFormat key 1) predecessor);
      [lia|].
    destruct ndb; cbn. by rewrite <- !(assoc_L (++)).
Qed.
Lemma nodeDB_prune_all predecessor entries (ndb : nodeDB.t) :
  exists ndb',
    forM_ entries
      (fun '(k, v) => nodeDB.deleteOrphans_fn predecessor k v) ndb
    = (Ok tt, ndb')
    /\ nodeDB.batch ndb'
       = nodeDB.batch ndb ++ concat (prune_ops predecessor <$> entries)
    /\ nodeDB.nodeCache ndb'
       = foldl (prune_cache predecessor) (nodeDB.nodeCache ndb) entries
    /\ sublist (elems (nodeDB.nodeCacheQueue ndb'))
         (elems (nodeDB.nodeCacheQueue ndb))
    /\ nodeDB.db ndb' = nodeDB.db ndb
    /\ nodeDB.latestVersion ndb' = nodeDB.latestVersion ndb
    /\ nodeDB.nodeCacheSize ndb' = nodeDB.nodeCacheSize ndb.
Proof.
  revert ndb. induction entries as [|[k v] entries IH]; intros ndb.
  - exists ndb. cbn. by rewrite app_nil_r.
  - cbn [forM_]. unfold bind. rewrite nodeDB_deleteOrphans_fn_spec.
    cbn zeta.
    edestruct IH as (ndb' & -> & Hb & Hc & Hq & Hd & Hl & Hs).
    exists ndb'. split; [done|].
    rewrite Hb, Hc, Hd, Hl, Hs. cbn [fmap list_fmap concat foldl].
    assert (prune_cache predecessor (nodeDB.nodeCache ndb) (k, v)
            = if orphan_expired predecessor k
              then delete v (nodeDB.nodeCache ndb)
              else nodeDB.nodeCache ndb) as -> by done.
    destruct (orphan_expired predecessor k) eqn:He, ndb; cbn in *;
      rewrite <- ?(assoc_L (++)); repeat split; try done.
    all: etrans; [exact Hq|]; apply sublist_uncached_queue.
Qed.

Lemma nodeDB_deleteOrphans_eq version (ndb : nodeDB.t) :
  nodeDB.deleteOrphans version ndb =
    forM_ (IteratePrefix (nodeDB.db ndb) (Key orphanKeyFormat [Int64 version]))
      (fun '(k, v) =>
         nodeDB.deleteOrphans_fn (nodeDB.getPreviousVersion version ndb) k v)
      ndb.
Proof. reflexivity. Qed.

Lemma orphan_expired_iff predecessor key :
  orphan_expired predecessor key = true <->
  predecessor < orphan_first key \/ orphan_first key = orphan_last key.
Proof.
  unfold orphan_expired. by rewrite orb_true_iff, Z.ltb_lt, Z.eqb_eq.
Qed.

Lemma shortened_lifetime version predecessor key hash :
  is_int64 version -> 0 <= predecessor < version ->
  HasPrefix key (Key orphanKeyFormat [Int64 version]) = true ->
  orphan_last (orphanKey (orphan_first key) predecessor hash) = predecessor
  /\ orphan_first (orphanKey (orphan_first key) predecessor hash)
     = orphan_first key
  /\ predecessor < orphan_last key.
Proof.
  intros Hv Hp Hk.
  assert (is_int64 predecessor)
    by (unfold is_int64, minInt64 in *; rewrite pow2_63; lia).
  pose proof (is_int64_wrap64 (be_value (segment orphanKeyFormat key 1))).
  destruct (ScanInt64_orphanKey (orphan_first key) predecessor hash)
    as [H1 H2]; [done..|].
  assert (orphan_last key = version) as ->
    by by apply ScanInt64_orphan_to.
  repeat split; [exact H1 | exact H2 | lia].
Qed.

(** C3.  In both variants, [DeleteVersion(version, check)] first runs
    [deleteOrphans(version)], which never panics, and then [deleteRoot].  With
    [predecessor = getPreviousVersion(version)], the entries enumerated are
    exactly the entries of the store whose key starts with 'o' and [version];
    each carries [last = version].  For each entry [(key, hash)], in
    whatever state the traversal has reached, the closure buffers the
    deletion of [key]; if [predecessor < first] or [first == last] it also
    buffers the deletion of the node entry of [hash] and removes [hash] from
    the cache map and its element from the queue; otherwise it buffers a
    replacement orphan entry [(first, predecessor, hash)] and nothing else.
    Over the whole traversal the batch grows by these operations in the order
    of enumeration, and the store itself is not written.  For a version from
    1 up and a store whose root keys are well formed, [predecessor] is the
    greatest version below [version] with a root entry (0 when there is
    none), so every replacement entry has [last = predecessor < version]. *)
Theorem DeleteVersion_prunes_orphans (version : Z) (check : bool) :
  (forall ndb : nodeDB.t,
     let predecessor := nodeDB.getPreviousVersion version ndb in
     let entries :=
       IteratePrefix (nodeDB.db ndb) (Key orphanKeyFormat [Int64 version]) in
     (forall key hash,
        (key, hash) ∈ entries <->
        nodeDB.db ndb !! key = Some hash
        /\ HasPrefix key (Key orphanKeyFormat [Int64 version]) = true)
     /\ (is_int64 version ->
         forall key hash, (key, hash) ∈ entries -> orphan_last key = version)
     /\ (forall key,
           orphan_expired predecessor key = true <->
           predecessor < orphan_first key
           \/ orphan_first key = orphan_last key)
     /\ (forall (st : nodeDB.t) key hash,
           nodeDB.deleteOrphans_fn predecessor key hash st =
             (Ok tt,
              let st1 := nodeDB.set_batch
                           (nodeDB.batch st
                              ++ prune_ops predecessor (key, hash)) st in
              if orphan_expired predecessor key
              then nodeDB.set_nodeCache (delete hash (nodeDB.nodeCache st))
                     (nodeDB.set_nodeCacheQueue
                        (uncached_queue (nodeDB.nodeCache st) hash
                           (nodeDB.nodeCacheQueue st)) st1)
              else st1))
     /\ (exists ndb',
           nodeDB.deleteOrphans version ndb = (Ok tt, ndb')
           /\ nodeDB.DeleteVersion version check ndb
              = nodeDB.deleteRoot version check ndb'
           /\ nodeDB.batch ndb'
              = nodeDB.batch ndb
                  ++ concat (prune_ops predecessor <$> entries)
           /\ nodeDB.nodeCache ndb'
              = foldl (prune_cache predecessor) (nodeDB.nodeCache ndb) entries
           /\ nodeDB.db ndb' = nodeDB.db ndb)
     /\ (1 <= version <= maxInt64 -> wf_roots (nodeDB.db ndb) ->
         0 <= predecessor < version
         /\ (predecessor <> 0 ->
             is_Some (nodeDB.db ndb !! rootKey predecessor))
         /\ (forall v', 1 <= v' < version ->
               is_Some (nodeDB.db ndb !! rootKey v') -> v' <= predecessor)
         /\ (forall key hash, (key, hash) ∈ entries ->
               orphan_last (orphanKey (orphan_first key) predecessor hash)
               = predecessor
               /\ orphan_first (orphanKey (orphan_first key) predecessor hash)
                  = orphan_first key
               /\ predecessor < orphan_last key)))
  /\
  (forall ndb : nodeDB2.t,
     let predecessor := nodeDB2.getPreviousVersion version ndb in
     let entries :=
       IteratePrefix (nodeDB2.db ndb) (Key orphanKeyFormat [Int64 version]) in
     (forall key hash,
        (key, hash) ∈ entries <->
        nodeDB2.db ndb !! key = Some hash
        /\ HasPrefix key (Key orphanKeyFormat [Int64 version]) = true)
     /\ (is_int64 version ->
         forall key hash, (key, hash) ∈ entries -> orphan_last key = version)
     /\ (forall key,
           orphan_expired predecessor key = true <->
           predecessor < orphan_first key
           \/ orphan_first key = orphan_last key)
     /\ (forall (st : nodeDB2.t) key hash,
           nodeDB2.deleteOrphans_fn predecessor key hash st =
             (Ok tt,
              let st1 := nodeDB2.set_batch
                           (nodeDB2.batch st
                              ++ prune_ops predecessor (key, hash)) st in
              if orphan_expired predecessor key
              then nodeDB2.set_nodeCache (delete hash (nodeDB2.nodeCache st))
                     (nodeDB2.set_nodeCacheQueue
                        (uncached_queue (nodeDB2.nodeCache st) hash
                           (nodeDB2.nodeCacheQueue st)) st1)
              else st1))
     /\ (exists ndb',
           nodeDB2.deleteOrphans version ndb = (Ok tt, ndb')
           /\ nodeDB2.DeleteVersion version check ndb
              = nodeDB2.deleteRoot version check ndb'
           /\ nodeDB2.batch ndb'
              = nodeDB2.batch ndb
                  ++ concat (prune_ops predecessor <$> entries)
           /\ nodeDB2.nodeCache ndb'
              = foldl (prune_cache predecessor) (nodeDB2.nodeCache ndb) entries
           /\ nodeDB2.db ndb' = nodeDB2.db ndb)
     /\ (1 <= version <= maxInt64 -> wf_roots (nodeDB2.db ndb) ->
         0 <= predecessor < version
         /\ (predecessor <> 0 ->
             is_Some (nodeDB2.db ndb !! rootKey predecessor))
         /\ (forall v', 1 <= v' < version ->
               is_Some (nodeDB2.db ndb !! rootKey v') -> v' <= predecessor)
         /\ (forall key hash, (key, hash) ∈ entries ->
               orphan_last (orphanKey (orphan_first key) predecessor hash)
               = predecessor
               /\ orphan_first (orphanKey (orphan_first key) predecessor hash)
                  = orphan_first key
               /\ predecessor < orphan_last key))).
Proof.
  split; intros ndb predecessor entries.
  - split; [intros; apply elem_of_IteratePrefix|].
    split.
    { intros Hv key hash [_ Hp]%elem_of_IteratePrefix.
      by apply ScanInt64_orphan_to. }
    split; [intros; apply orphan_expired_iff|].
    split; [intros; apply nodeDB_deleteOrphans_fn_spec|].
    split.
    { destruct (nodeDB_prune_all predecessor entries ndb)
        as (ndb' & Hrun & Hb & Hc & _ & Hd & _).
      exists ndb'. split; [by rewrite nodeDB_deleteOrphans_eq|].
      split; [|done].
      unfold nodeDB.DeleteVersion, bind. rewrite nodeDB_deleteOrphans_eq.
      fold predecessor entries. by rewrite Hrun. }
    intros Hv Hwf.
    destruct (getPreviousVersioni_spec version (nodeDB.db ndb) Hv Hwf)
      as (Hp & Hin & Hmax).
    split; [done|]. split; [done|]. split; [done|].
    intros key hash [_ Hk]%elem_of_IteratePrefix.
    apply (shortened_lifetime version); [|done..].
    unfold is_int64, minInt64. rewrite pow2_63. lia.
  - split; [intros; apply elem_of_IteratePrefix|].
    split.
    { intros Hv key hash [_ Hp]%elem_of_IteratePrefix.
      by apply ScanInt64_orphan_to. }
    split; [intros; apply orphan_expired_iff|].
    split; [intros; apply nodeDB2_deleteOrphans_fn_spec|].
    split.
    { destruct (nodeDB2_prune_all predecessor entries ndb)
        as (ndb' & Hrun & Hb & Hc & _ & Hd & _).
      exists ndb'. split; [by rewrite nodeDB2_deleteOrphans_eq|].
      split; [|done].
      unfold nodeDB2.DeleteVersion, bind. rewrite nodeDB2_deleteOrphans_eq.
      fold predecessor entries. by rewrite Hrun. }
    intros Hv Hwf.
    destruct (getPreviousVersioni_spec version (nodeDB2.db ndb) Hv Hwf)
      as (Hp & Hin & Hmax).
    split; [done|]. split; [done|]. split; [done|].
    intros key hash [_ Hk]%elem_of_IteratePrefix.
    apply (shortened_lifetime version); [|done..].
    unfold is_int64, minInt64. rewrite pow2_63. lia.
Qed.

(** ** Deleting a version and the latest-version counter *)

Lemma nodeDB2_deleteRoot_unchecked version (ndb : nodeDB2.t) :
  nodeDB2.deleteRoot version false ndb
  = (Ok tt,
     nodeDB2.set_batch (nodeDB2.batch ndb ++ [BDelete (rootKey version)]) ndb).
Proof. reflexivity. Qed.

Lemma nodeDB_deleteRoot_unchecked version (ndb : nodeDB.t) :
  nodeDB.deleteRoot version false ndb
  = (Ok tt,
     nodeDB.set_batch (nodeDB.batch ndb ++ [BDelete (rootKey version)]) ndb).
Proof. reflexivity. Qed.

Lemma nodeDB2_deleteRoot_checked version (ndb : nodeDB2.t) L :
  (nodeDB2.getLatestVersion ndb).1 = Ok L ->
  nodeDB2.deleteRoot version true ndb
  = if version =? L
    then (Panic DeleteLatestVersion, nodeDB2.set_latestVersion L ndb)
    else (Ok tt,
          nodeDB2.set_batch
            (nodeDB2.batch ndb ++ [BDelete (rootKey version)])
            (nodeDB2.set_latestVersion L ndb)).
Proof.
  rewrite nodeDB2_getLatestVersion_eq. cbn zeta. intros [= HL].
  unfold nodeDB2.deleteRoot, bind. rewrite nodeDB2_getLatestVersion_eq.
  cbn zeta. rewrite HL. unfold ret.
  destruct (version =? L); [done|]. by destruct ndb.
Qed.

Lemma nodeDB_deleteRoot_checked version (ndb : nodeDB.t) L :
  (nodeDB.getLatestVersion ndb).1 = Ok L ->
  nodeDB.deleteRoot version true ndb
  = if version =? L
    then (Panic DeleteLatestVersion, nodeDB.set_latestVersion L ndb)
    else (Ok tt,
          nodeDB.set_batch
            (nodeDB.batch ndb ++ [BDelete (rootKey version)])
            (nodeDB.set_latestVersion L ndb)).
Proof.
  rewrite nodeDB_getLatestVersion_eq. cbn zeta. intros [= HL].
  unfold nodeDB.deleteRoot, bind. rewrite nodeDB_getLatestVersion_eq.
  cbn zeta. rewrite HL. unfold ret.
  destruct (version =? L); [done|]. by destruct ndb.
Qed.

(** The value [getLatestVersion] returns depends on the counter and on the
    store only. *)
Lemma nodeDB2_getLatestVersion_frame (ndb ndb' : nodeDB2.t) :
  nodeDB2.latestVersion ndb' = nodeDB2.latestVersion ndb ->
  nodeDB2.db ndb' = nodeDB2.db ndb ->
  (nodeDB2.getLatestVersion ndb').1 = (nodeDB2.getLatestVersion ndb).1.
Proof.
  intros Hl Hd. rewrite !nodeDB2_getLatestVersion_eq. cbn.
  rewrite !nodeDB2_getPreviousVersion. by rewrite Hl, Hd.
Qed.

Lemma nodeDB_getLatestVersion_frame (ndb ndb' : nodeDB.t) :
  nodeDB.latestVersion ndb' = nodeDB.latestVersion ndb ->
  nodeDB.db ndb' = nodeDB.db ndb ->
  (nodeDB.getLatestVersion ndb').1 = (nodeDB.getLatestVersion ndb).1.
Proof.
  intros Hl Hd. rewrite !nodeDB_getLatestVersion_eq. cbn.
  unfold nodeDB.getPreviousVersion. by rewrite Hl, Hd.
Qed.

Lemma getPreviousVersioni_max_nonneg db :
  wf_roots db -> 0 <= nodeDB.getPreviousVersioni (2 ^ 63 - 1) db.
Proof.
  intros Hwf.
  destruct (getPreviousVersioni_spec (2 ^ 63 - 1) db) as [H _]; [|done|lia].
  unfold maxInt64. rewrite pow2_63. lia.
Qed.

(** C10.  In both variants [DeleteVersion(v, false)] returns for every [v],
    the latest version included, with the in-memory counter and the store as
    they were, so that [getLatestVersion] returns afterwards what it returned
    before, while the deletion of the root entry of [v] is the last operation
    queued in the batch.  The counter is written in three places:
    [updateLatestVersion] never lowers it, the lazy initialisation in
    [getLatestVersion] never lowers it on a store with well-formed root keys,
    and [resetLatestVersion] sets it to its argument whatever it was. *)
Theorem DeleteVersion_keeps_latestVersion (v : Z) :
  (forall ndb : nodeDB.t,
     (exists ndb',
        nodeDB.DeleteVersion v false ndb = (Ok tt, ndb')
        /\ nodeDB.latestVersion ndb' = nodeDB.latestVersion ndb
        /\ nodeDB.db ndb' = nodeDB.db ndb
        /\ (nodeDB.getLatestVersion ndb').1 = (nodeDB.getLatestVersion ndb).1
        /\ last (nodeDB.batch ndb') = Some (BDelete (rootKey v)))
     /\ (nodeDB.latestVersion ndb
         <= nodeDB.latestVersion (nodeDB.updateLatestVersion v ndb).2)
     /\ (wf_roots (nodeDB.db ndb) ->
         nodeDB.latestVersion ndb
         <= nodeDB.latestVersion (nodeDB.getLatestVersion ndb).2)
     /\ nodeDB.latestVersion (nodeDB.resetLatestVersion v ndb).2 = v)
  /\
  (forall ndb : nodeDB2.t,
     (exists ndb',
        nodeDB2.DeleteVersion v false ndb = (Ok tt, ndb')
        /\ nodeDB2.latestVersion ndb' = nodeDB2.latestVersion ndb
        /\ nodeDB2.db ndb' = nodeDB2.db ndb
        /\ (nodeDB2.getLatestVersion ndb').1
           = (nodeDB2.getLatestVersion ndb).1
        /\ last (nodeDB2.batch ndb') = Some (BDelete (rootKey v)))
     /\ (nodeDB2.latestVersion ndb
         <= nodeDB2.latestVersion (nodeDB2.updateLatestVersion v ndb).2)
     /\ (wf_roots (nodeDB2.db ndb) ->
         nodeDB2.latestVersion ndb
         <= nodeDB2.latestVersion (nodeDB2.getLatestVersion ndb).2)
     /\ nodeDB2.latestVersion (nodeDB2.resetLatestVersion v ndb).2 = v).
Proof.
  split; intros ndb.
  - split.
    { destruct (nodeDB_prune_all (nodeDB.getPreviousVersion v ndb)
                  (IteratePrefix (nodeDB.db ndb)
                     (Key orphanKeyFormat [Int64 v])) ndb)
        as (ndb1 & Hrun & _ & _ & _ & Hd & Hl & _).
      eexists. split.
      { unfold nodeDB.DeleteVersion, bind. rewrite nodeDB_deleteOrphans_eq.
        rewrite Hrun. apply nodeDB_deleteRoot_unchecked. }
      assert (nodeDB.latestVersion
                (nodeDB.set_batch
                   (nodeDB.batch ndb1 ++ [BDelete (rootKey v)]) ndb1)
              = nodeDB.latestVersion ndb) as Hl' by by destruct ndb1.
      assert (nodeDB.db
                (nodeDB.set_batch
                   (nodeDB.batch ndb1 ++ [BDelete (rootKey v)]) ndb1)
              = nodeDB.db ndb) as Hd' by by destruct ndb1.
      split; [done|]. split; [done|].
      split; [by apply nodeDB_getLatestVersion_frame|].
      destruct ndb1; cbn. apply last_snoc. }
    split.
    { unfold nodeDB.updateLatestVersion, bind, get, modify, ret.
      destruct (Z.ltb_spec (nodeDB.latestVersion ndb) v);
        destruct ndb; cbn in *; lia. }
    split; [|by destruct ndb].
    intros Hwf. rewrite nodeDB_getLatestVersion_eq. cbn zeta.
    pose proof (getPreviousVersioni_max_nonneg _ Hwf).
    unfold nodeDB.getPreviousVersion.
    destruct (Z.eqb_spec (nodeDB.latestVersion ndb) 0) as [E|E];
      destruct ndb; cbn in *; lia.
  - split.
    { destruct (nodeDB2_prune_all (nodeDB2.getPreviousVersion v ndb)
                  (IteratePrefix (nodeDB2.db ndb)
                     (Key orphanKeyFormat [Int64 v])) ndb)
        as (ndb1 & Hrun & _ & _ & _ & Hd & Hl & _).
      eexists. split.
      { unfold nodeDB2.DeleteVersion, bind. rewrite nodeDB2_deleteOrphans_eq.
        rewrite Hrun. apply nodeDB2_deleteRoot_unchecked. }
      assert (nodeDB2.latestVersion
                (nodeDB2.set_batch
                   (nodeDB2.batch ndb1 ++ [BDelete (rootKey v)]) ndb1)
              = nodeDB2.latestVersion ndb) as Hl' by by destruct ndb1.
      assert (nodeDB2.db
                (nodeDB2.set_batch
                   (nodeDB2.batch ndb1 ++ [BDelete (rootKey v)]) ndb1)
              = nodeDB2.db ndb) as Hd' by by destruct ndb1.
      split; [done|]. split; [done|].
      split; [by apply nodeDB2_getLatestVersion_frame|].
      destruct ndb1; cbn. apply last_snoc. }
    split.
    { unfold nodeDB2.updateLatestVersion, bind, get, modify, ret.
      destruct (Z.ltb_spec (nodeDB2.latestVersion ndb) v);
        destruct ndb; cbn in *; lia. }
    split; [|by destruct ndb].
    intros Hwf. rewrite nodeDB2_getLatestVersion_eq. cbn zeta.
    pose proof (getPreviousVersioni_max_nonneg _ Hwf).
    rewrite nodeDB2_getPreviousVersion.
    destruct (Z.eqb_spec (nodeDB2.latestVersion ndb) 0) as [E|E];
      destruct ndb; cbn in *; lia.
Qed.

(** C4.  In both variants [DeleteVersion(v, true)] with [v] the latest
    version panics with "Tried to delete latest version" (an
    InvariantViolation) and never queues the deletion of the root entry.
    The test sits in [deleteRoot], after [deleteOrphans(v)] has run: the
    batch already holds what the orphan entries expiring at [v] caused, the
    cache has lost the nodes deleted for them, and the counter holds [v].
    When no orphan entry expires at [v] the batch, the cache and the store
    are as before the call. *)
Theorem DeleteVersion_latest_panics (v : Z) :
  panic_kind DeleteLatestVersion = Some InvariantViolation
  /\ (forall ndb : nodeDB.t,
        (nodeDB.getLatestVersion ndb).1 = Ok v ->
        let predecessor := nodeDB.getPreviousVersion v ndb in
        let entries :=
          IteratePrefix (nodeDB.db ndb) (Key orphanKeyFormat [Int64 v]) in
        exists ndb1,
          nodeDB.deleteOrphans v ndb = (Ok tt, ndb1)
          /\ nodeDB.DeleteVersion v true ndb
             = (Panic DeleteLatestVersion, nodeDB.set_latestVersion v ndb1)
          /\ nodeDB.batch ndb1
             = nodeDB.batch ndb ++ concat (prune_ops predecessor <$> entries)
          /\ nodeDB.nodeCache ndb1
             = foldl (prune_cache predecessor) (nodeDB.nodeCache ndb) entries
          /\ nodeDB.db ndb1 = nodeDB.db ndb
          /\ (entries = [] -> ndb1 = ndb))
  /\ (forall ndb : nodeDB2.t,
        (nodeDB2.getLatestVersion ndb).1 = Ok v ->
        let predecessor := nodeDB2.getPreviousVersion v ndb in
        let entries :=
          IteratePrefix (nodeDB2.db ndb) (Key orphanKeyFormat [Int64 v]) in
        exists ndb1,
          nodeDB2.deleteOrphans v ndb = (Ok tt, ndb1)
          /\ nodeDB2.DeleteVersion v true ndb
             = (Panic DeleteLatestVersion, nodeDB2.set_latestVersion v ndb1)
          /\ nodeDB2.batch ndb1
             = nodeDB2.batch ndb ++ concat (prune_ops predecessor <$> entries)
          /\ nodeDB2.nodeCache ndb1
             = foldl (prune_cache predecessor) (nodeDB2.nodeCache ndb) entries
          /\ nodeDB2.db ndb1 = nodeDB2.db ndb
          /\ (entries = [] -> ndb1 = ndb)).
Proof.
  split; [done|]. split; intros ndb Hlatest predecessor entries.
  - destruct (nodeDB_prune_all predecessor entries ndb)
      as (ndb1 & Hrun & Hb & Hc & _ & Hd & Hl & _).
    exists ndb1. split; [by rewrite nodeDB_deleteOrphans_eq|].
    split.
    { unfold nodeDB.DeleteVersion, bind. rewrite nodeDB_deleteOrphans_eq.
      fold predecessor entries. rewrite Hrun.
      rewrite (nodeDB_deleteRoot_checked v ndb1 v).
      - by rewrite Z.eqb_refl.
      - by rewrite (nodeDB_getLatestVersion_frame ndb ndb1). }
    repeat split; try done.
    intros He. rewrite He in Hrun. cbn in Hrun. by injection Hrun.
  - destruct (nodeDB2_prune_all predecessor entries ndb)
      as (ndb1 & Hrun & Hb & Hc & _ & Hd & Hl & _).
    exists ndb1. split; [by rewrite nodeDB2_deleteOrphans_eq|].
    split.
    { unfold nodeDB2.DeleteVersion, bind. rewrite nodeDB2_deleteOrphans_eq.
      fold predecessor entries. rewrite Hrun.
      rewrite (nodeDB2_deleteRoot_checked v ndb1 v).
      - by rewrite Z.eqb_refl.
      - by rewrite (nodeDB2_getLatestVersion_frame ndb ndb1). }
    repeat split; try done.
    intros He. rewrite He in Hrun. cbn in Hrun. by injection Hrun.
Qed.

(** C4, as first stated, fails: on the store [store_v1_orphan], whose latest
    version is 1, [DeleteVersion(1, true)] panics with the batch, empty
    before the call, now holding the deletion of an orphan entry and of a
    node entry. *)
Lemma DeleteVersion_latest_check_not_first :
  (nodeDB2.getLatestVersion store_v1_orphan).1 = Ok 1
  /\ nodeDB2.batch store_v1_orphan = []
  /\ (nodeDB2.DeleteVersion 1 true store_v1_orphan).1
     = Panic DeleteLatestVersion
  /\ nodeDB2.batch (nodeDB2.DeleteVersion 1 true store_v1_orphan).2
     = [BDelete (orphanKey 1 1 [9]); BDelete (nodeKey [9])].
Proof. vm_compute. done. Qed.

(** ** Commit and the cache *)

Lemma nodeDB_evictOldest_eq (ndb : nodeDB.t) oldest :
  Front (nodeDB.nodeCacheQueue ndb) = Some oldest ->
  nodeDB.evictOldest ndb =
    (Ok tt,
     nodeDB.set_nodeCache
       (delete (string_of (hash (Value oldest))) (nodeDB.nodeCache ndb))
       (nodeDB.set_nodeCacheQueue
          (Remove oldest (nodeDB.nodeCacheQueue ndb)) ndb)).
Proof.
  intros HF. unfold nodeDB.evictOldest, bind, get, modify. by rewrite HF.
Qed.

Lemma Remove_Front_length q oldest :
  Front q = Some oldest ->
  (length (elems (Remove oldest q)) < length (elems q))%nat.
Proof.
  unfold Front, Remove. destruct q as [[|e l] f]; cbn [elems head];
    intros [= ->].
  rewrite filter_cons_False by (intros H; by apply H).
  pose proof (length_filter (fun e' => eid e' <> eid oldest) l).
  cbn [length]. lia.
Qed.

Lemma nodeDB_cache_shrunk_refl ndb : nodeDB_cache_shrunk ndb ndb.
Proof. repeat split; [done..|]. by destruct ndb. Qed.

Lemma nodeDB_cache_shrunk_evict ndb ndb' oldest :
  nodeDB_cache_shrunk
    (nodeDB.set_nodeCache
       (delete (string_of (hash (Value oldest))) (nodeDB.nodeCache ndb))
       (nodeDB.set_nodeCacheQueue
          (Remove oldest (nodeDB.nodeCacheQueue ndb)) ndb)) ndb' ->
  nodeDB_cache_shrunk ndb ndb'.
Proof.
  intros (Hq & Hc & He). destruct ndb; cbn in *. repeat split.
  - etrans; [exact Hq|]. apply sublist_filter.
  - etrans; [exact Hc|]. apply delete_subseteq.
  - done.
Qed.

(** The loop of [FlushCache], given more rounds than the queue has
    elements, stops by itself: either within the limit, or, for a negative
    limit, by dereferencing the nil front of the emptied queue. *)
Lemma nodeDB_FlushCache_loop_spec rounds (ndb : nodeDB.t) :
  (length (elems (nodeDB.nodeCacheQueue ndb)) < rounds)%nat ->
  exists r ndb',
    nodeDB.FlushCache_loop rounds ndb = (r, ndb')
    /\ nodeDB_cache_shrunk ndb ndb'
    /\ ((r = Ok tt
         /\ Len (nodeDB.nodeCacheQueue ndb') <= nodeDB.nodeCacheSize ndb)
        \/ (r = Panic NilDereference
            /\ elems (nodeDB.nodeCacheQueue ndb') = []
            /\ nodeDB.nodeCacheSize ndb < 0)).
Proof.
  revert ndb. induction rounds as [|rounds IH]; intros ndb Hlen; [lia|].
  cbn [nodeDB.FlushCache_loop]. unfold bind at 1, get at 1.
  destruct (Z.gtb_spec (Len (nodeDB.nodeCacheQueue ndb))
              (nodeDB.nodeCacheSize ndb)) as [Hgt|Hle].
  - destruct (Front (nodeDB.nodeCacheQueue ndb)) as [oldest|] eqn:HF.
    + rewrite (bind_Ok _ _ _ _ _ (nodeDB_evictOldest_eq _ _ HF)).
      pose proof (Remove_Front_length _ _ HF).
      edestruct IH as (r & ndb' & -> & Hs & Hr);
        [|exists r, ndb'; split; [done|]; split;
          [by eapply nodeDB_cache_shrunk_evict|]].
      * destruct ndb; cbn in *. lia.
      * by destruct ndb.
    + exists (Panic NilDereference), ndb.
      unfold nodeDB.evictOldest, bind, get, throw. rewrite HF.
      split; [done|]. split; [apply nodeDB_cache_shrunk_refl|]. right.
      unfold Front, Len in *.
      destruct (elems (nodeDB.nodeCacheQueue ndb)); [|done].
      cbn in *. split; [done|]. split; [done|lia].
  - exists (Ok tt), ndb. split; [done|].
    split; [apply nodeDB_cache_shrunk_refl|]. left. split; [done|lia].
Qed.

Lemma nodeDB_FlushCache_loop_S rounds (ndb : nodeDB.t) :
  nodeDB.FlushCache_loop (S rounds) ndb =
    if Len (nodeDB.nodeCacheQueue ndb) >? nodeDB.nodeCacheSize ndb
    then bind nodeDB.evictOldest (fun _ => nodeDB.FlushCache_loop rounds) ndb
    else (Ok tt, ndb).
Proof.
  cbn [nodeDB.FlushCache_loop]. unfold bind at 1, get.
  by destruct (_ >? _).
Qed.

(** More rounds than that change nothing. *)
Lemma nodeDB_FlushCache_loop_rounds rounds (ndb : nodeDB.t) :
  (length (elems (nodeDB.nodeCacheQueue ndb)) < rounds)%nat ->
  nodeDB.FlushCache_loop (S rounds) ndb = nodeDB.FlushCache_loop rounds ndb.
Proof.
  revert ndb. induction rounds as [|rounds IH]; intros ndb Hlen; [lia|].
  rewrite (nodeDB_FlushCache_loop_S (S rounds)), (nodeDB_FlushCache_loop_S rounds).
  destruct (_ >? _); [|done].
  destruct (Front (nodeDB.nodeCacheQueue ndb)) as [oldest|] eqn:HF.
  - rewrite !(bind_Ok _ _ _ _ _ (nodeDB_evictOldest_eq _ _ HF)).
    apply IH. pose proof (Remove_Front_length _ _ HF).
    destruct ndb; cbn in *. lia.
  - unfold nodeDB.evictOldest, bind, get, throw. by rewrite HF.
Qed.

Lemma filter_all {A} (P : A -> Prop) `{forall x, Decision (P x)} (l : list A) :
  Forall P l -> filter P l = l.
Proof.
  induction 1 as [|x l Hx Hl IH]; [done|].
  rewrite filter_cons_True by done. by rewrite IH.
Qed.

(** In a queue whose elements are distinct, removing the front element
    leaves the rest. *)
Lemma Remove_Front_tail q oldest :
  NoDup (eid <$> elems q) -> Front q = Some oldest ->
  elems (Remove oldest q) = tail (elems q).
Proof.
  unfold Front, Remove. destruct q as [[|e l] f]; cbn [elems head tail];
    intros Hnd [= ->].
  rewrite fmap_cons in Hnd. apply NoDup_cons in Hnd as [Hnotin _].
  rewrite filter_cons_False by (intros H; by apply H).
  apply filter_all, Forall_forall. intros e He Heq.
  apply Hnotin. rewrite <- Heq. by apply list_elem_of_fmap_2.
Qed.

(** With a limit from 0 up and distinct elements, the loop of [FlushCache]
    returns, having dropped from the front of the queue what exceeded the
    limit, and deleted from the cache map the hash of each dropped node. *)
Lemma nodeDB_FlushCache_loop_drop rounds (ndb : nodeDB.t) :
  NoDup (eid <$> elems (nodeDB.nodeCacheQueue ndb)) ->
  0 <= nodeDB.nodeCacheSize ndb ->
  (length (elems (nodeDB.nodeCacheQueue ndb)) < rounds)%nat ->
  let excess := (length (elems (nodeDB.nodeCacheQueue ndb))
                 - Z.to_nat (nodeDB.nodeCacheSize ndb))%nat in
  exists ndb',
    nodeDB.FlushCache_loop rounds ndb = (Ok tt, ndb')
    /\ elems (nodeDB.nodeCacheQueue ndb')
       = drop excess (elems (nodeDB.nodeCacheQueue ndb))
    /\ nodeDB.nodeCache ndb'
       = foldl (fun c e => delete (string_of (hash (Value e))) c)
           (nodeDB.nodeCache ndb)
           (take excess (elems (nodeDB.nodeCacheQueue ndb))).
Proof.
  revert ndb. induction rounds as [|rounds IH]; intros ndb Hnd Hsz Hlen;
    [lia|].
  cbn zeta. rewrite nodeDB_FlushCache_loop_S. unfold Len.
  destruct (Z.gtb_spec
              (Z.of_nat (length (elems (nodeDB.nodeCacheQueue ndb))))
              (nodeDB.nodeCacheSize ndb)) as [Hgt|Hle].
  - destruct (Front (nodeDB.nodeCacheQueue ndb)) as [oldest|] eqn:HF.
    2: { unfold Front in HF.
         destruct (elems (nodeDB.nodeCacheQueue ndb)); cbn in *; [lia|done]. }
    rewrite (bind_Ok _ _ _ _ _ (nodeDB_evictOldest_eq _ _ HF)).
    pose proof (Remove_Front_tail _ _ Hnd HF) as Htl.
    unfold Front in HF.
    destruct (elems (nodeDB.nodeCacheQueue ndb)) as [|e l] eqn:El; [done|].
    cbn [head tail] in *. injection HF as ->.
    assert (NoDup (eid <$> l)) as Hnd'.
    { rewrite fmap_cons in Hnd. by apply NoDup_cons in Hnd as [_ ?]. }
    edestruct (IH (nodeDB.set_nodeCache
                     (delete (string_of (hash (Value oldest)))
                        (nodeDB.nodeCache ndb))
                     (nodeDB.set_nodeCacheQueue
                        (Remove oldest (nodeDB.nodeCacheQueue ndb)) ndb)))
      as (ndb' & -> & Hq & Hc).
    + destruct ndb; cbn [nodeDB.nodeCacheQueue nodeDB.set_nodeCache
                           nodeDB.set_nodeCacheQueue] in *.
      by rewrite Htl.
    + by destruct ndb.
    + destruct ndb; cbn in *. rewrite Htl. lia.
    + exists ndb'. split; [done|]. rewrite Hq, Hc. clear IH Hq Hc.
      destruct ndb; cbn in *. rewrite Htl.
      replace (S (length l) - Z.to_nat nodeCacheSize)%nat
        with (S (length l - Z.to_nat nodeCacheSize)) by lia.
      done.
  - exists ndb. split; [done|].
    replace (length (elems (nodeDB.nodeCacheQueue ndb))
             - Z.to_nat (nodeDB.nodeCacheSize ndb))%nat with 0%nat by lia.
    done.
Qed.

Lemma nodeDB_Commit_eq (ndb : nodeDB.t) :
  nodeDB.Commit ndb = nodeDB.FlushCache (nodeDB_flushed ndb).
Proof. reflexivity. Qed.

Lemma nodeDB_FlushCache_eq (ndb : nodeDB.t) :
  nodeDB.FlushCache ndb =
    nodeDB.FlushCache_loop
      (S (length (elems (nodeDB.nodeCacheQueue ndb)))) ndb.
Proof. reflexivity. Qed.

(** C2.  [nodeDB2.Commit] writes the batch to the backing store in the order
    it was buffered, installs an empty batch and touches nothing else: cache
    map and queue are as before.  [nodeDB.Commit] writes the batch to the
    store that issued it (the backing store, unless [RestMemBatch] pointed
    the batch at the memory store), installs an empty batch of the backing
    store, and then runs [FlushCache]: the cache is untouched when the queue
    is within [nodeCacheSize]; in general, for a limit from 0 up, it returns
    with the queue within the limit, having only unlinked elements and
    deleted cache entries, and when the elements of the queue are distinct
    the elements dropped are exactly those at the front that exceeded the
    limit, each taking the cache entry of its node's hash with it. *)
Theorem Commit_flushes_batch :
  (forall ndb : nodeDB2.t,
     nodeDB2.Commit ndb
     = (Ok tt,
        nodeDB2.set_batch []
          (nodeDB2.set_db (Write (nodeDB2.batch ndb) (nodeDB2.db ndb)) ndb))
     /\ nodeDB2.nodeCache (after nodeDB2.Commit ndb) = nodeDB2.nodeCache ndb
     /\ nodeDB2.nodeCacheQueue (after nodeDB2.Commit ndb)
        = nodeDB2.nodeCacheQueue ndb)
  /\
  (forall ndb : nodeDB.t,
     let flushed := nodeDB_flushed ndb in
     let queue := elems (nodeDB.nodeCacheQueue ndb) in
     let excess :=
       (length queue - Z.to_nat (nodeDB.nodeCacheSize ndb))%nat in
     nodeDB.batch flushed = []
     /\ (nodeDB.batchOwner ndb = nodeDB.OfDB ->
         nodeDB.db flushed = Write (nodeDB.batch ndb) (nodeDB.db ndb)
         /\ nodeDB.dbMem flushed = nodeDB.dbMem ndb)
     /\ (nodeDB.batchOwner ndb = nodeDB.OfDBMem ->
         nodeDB.db flushed = nodeDB.db ndb
         /\ nodeDB.dbMem flushed
            = Write (nodeDB.batch ndb) <$> nodeDB.dbMem ndb)
     /\ nodeDB.nodeCache flushed = nodeDB.nodeCache ndb
     /\ nodeDB.nodeCacheQueue flushed = nodeDB.nodeCacheQueue ndb
     /\ (Len (nodeDB.nodeCacheQueue ndb) <= nodeDB.nodeCacheSize ndb ->
         nodeDB.Commit ndb = (Ok tt, flushed))
     /\ (0 <= nodeDB.nodeCacheSize ndb ->
         exists ndb',
           nodeDB.Commit ndb = (Ok tt, ndb')
           /\ nodeDB_cache_shrunk flushed ndb'
           /\ Len (nodeDB.nodeCacheQueue ndb') <= nodeDB.nodeCacheSize ndb
           /\ (NoDup (eid <$> queue) ->
               elems (nodeDB.nodeCacheQueue ndb') = drop excess queue
               /\ nodeDB.nodeCache ndb'
                  = foldl (fun c e => delete (string_of (hash (Value e))) c)
                      (nodeDB.nodeCache ndb) (take excess queue)))).
Proof.
  split; [intros ndb; by destruct ndb|].
  intros ndb flushed queue excess.
  assert (nodeDB.nodeCache flushed = nodeDB.nodeCache ndb) as Hc
    by (subst flushed; unfold nodeDB_flushed;
        by destruct (nodeDB.batchOwner ndb), ndb).
  assert (nodeDB.nodeCacheQueue flushed = nodeDB.nodeCacheQueue ndb) as Hq
    by (subst flushed; unfold nodeDB_flushed;
        by destruct (nodeDB.batchOwner ndb), ndb).
  assert (nodeDB.nodeCacheSize flushed = nodeDB.nodeCacheSize ndb) as Hs
    by (subst flushed; unfold nodeDB_flushed;
        by destruct (nodeDB.batchOwner ndb), ndb).
  split; [by destruct ndb|].
  split; [intros Ho; subst flushed; unfold nodeDB_flushed; rewrite Ho;
          by destruct ndb|].
  split; [intros Ho; subst flushed; unfold nodeDB_flushed; rewrite Ho;
          by destruct ndb|].
  split; [done|]. split; [done|].
  rewrite nodeDB_Commit_eq, nodeDB_FlushCache_eq. fold flushed.
  split.
  - intros Hle. rewrite nodeDB_FlushCache_loop_S, Hq, Hs.
    by destruct (Z.gtb_spec (Len (nodeDB.nodeCacheQueue ndb))
                   (nodeDB.nodeCacheSize ndb)); [lia|].
  - intros Hsz.
    destruct (nodeDB_FlushCache_loop_spec
                (S (length (elems (nodeDB.nodeCacheQueue flushed)))) flushed)
      as (r & ndb' & Hrun & Hsh & [[-> Hlen] | (_ & _ & Hneg)]); [lia| |lia].
    exists ndb'. split; [done|]. split; [done|]. split; [lia|].
    intros Hnd.
    destruct (nodeDB_FlushCache_loop_drop
                (S (length (elems (nodeDB.nodeCacheQueue flushed)))) flushed)
      as (ndb'' & Hrun' & Hq' & Hc'); [by rewrite Hq | lia | lia |].
    rewrite Hrun in Hrun'. injection Hrun' as <-.
    rewrite Hq', Hc', Hq, Hc, Hs. done.
Qed.

(** C2, as first stated, fails: on the store [store_flush_on_save] the cache
    holds the node of hash [7] before [Commit] and nothing after it. *)
Lemma Commit_evicts_cached_node :
  Value <$> nodeDB.nodeCache store_flush_on_save !! [7]
    = Some (set_persisted true (set_hash (Some [7]) (sample_node [7])))
  /\ (nodeDB.Commit store_flush_on_save).1 = Ok tt
  /\ nodeDB.nodeCache (after nodeDB.Commit store_flush_on_save) = ∅
  /\ elems (nodeDB.nodeCacheQueue (after nodeDB.Commit store_flush_on_save))
     = [].
Proof. vm_compute. done. Qed.

(** ** Inserting into the cache *)

Lemma Front_PushBack node q :
  Front (PushBack node q).2
  = Some (default (PushBack node q).1 (head (elems q))).
Proof. unfold Front, PushBack. cbn. by destruct (elems q). Qed.

Lemma Len_PushBack node q : Len (PushBack node q).2 = Len q + 1.
Proof. unfold Len, PushBack. cbn. rewrite length_app. cbn. lia. Qed.

Lemma Len_Remove_Front q oldest :
  Front q = Some oldest -> Len (Remove oldest q) < Len q.
Proof. intros HF. pose proof (Remove_Front_length _ _ HF). unfold Len. lia. Qed.

(** [cacheNode] never panics: after the push the queue has a front. *)
Lemma nodeDB2_cacheNode_eq node (ndb : nodeDB2.t) :
  nodeDB2.cacheNode node ndb =
    (Ok tt,
     let oldest := default (PushBack node (nodeDB2.nodeCacheQueue ndb)).1
                     (head (elems (nodeDB2.nodeCacheQueue ndb))) in
     if Len (nodeDB2.nodeCacheQueue ndb) + 1 >? nodeDB2.nodeCacheSize ndb
     then nodeDB2_evicted oldest (nodeDB2_pushed node ndb)
     else nodeDB2_pushed node ndb).
Proof.
  unfold nodeDB2.cacheNode, bind, get, modify, ret, throw.
  destruct ndb as [d b l c cs q cb]; cbn -[PushBack Front Remove Len].
  destruct (PushBack node q) as [e q1] eqn:Hp.
  cbn -[PushBack Front Remove Len].
  assert (q1 = (PushBack node q).2) as -> by by rewrite Hp.
  assert (e = (PushBack node q).1) as -> by by rewrite Hp.
  rewrite Len_PushBack, Front_PushBack.
  by destruct (_ >? _).
Qed.

Lemma nodeDB_cacheNode_eq node (ndb : nodeDB.t) :
  nodeDB.cacheNode node ndb =
    (Ok tt,
     let oldest := default (PushBack node (nodeDB.nodeCacheQueue ndb)).1
                     (head (elems (nodeDB.nodeCacheQueue ndb))) in
     if negb (nodeDB.nodeCacheOnlyFlushOnSave ndb)
        && (Len (nodeDB.nodeCacheQueue ndb) + 1 >? nodeDB.nodeCacheSize ndb)
     then nodeDB_evicted oldest (nodeDB_pushed node ndb)
     else nodeDB_pushed node ndb).
Proof.
  unfold nodeDB.cacheNode, nodeDB.evictOldest, bind, get, modify, ret, throw.
  destruct ndb as [d dm bo b mn l c cs mcs fl q cb];
    cbn -[PushBack Front Remove Len].
  destruct (PushBack node q) as [e q1] eqn:Hp.
  cbn -[PushBack Front Remove Len].
  assert (q1 = (PushBack node q).2) as -> by by rewrite Hp.
  assert (e = (PushBack node q).1) as -> by by rewrite Hp.
  rewrite Len_PushBack.
  destruct (negb fl && _); [|done].
  cbn -[PushBack Front Remove Len]. by rewrite Front_PushBack.
Qed.

(** ** The cache invariant *)

Lemma same_eid (l : list Element) x y :
  NoDup (eid <$> l) -> x ∈ l -> y ∈ l -> eid x = eid y -> x = y.
Proof.
  induction l as [|z l IH]; [by intros _ ?%elem_of_nil|].
  rewrite fmap_cons, NoDup_cons. intros [Hz Hnd].
  intros [->|Hx]%elem_of_cons [->|Hy]%elem_of_cons He; auto.
  - destruct Hz. rewrite He. by apply list_elem_of_fmap_2.
  - destruct Hz. rewrite <- He. by apply list_elem_of_fmap_2.
Qed.

Lemma cache_wf_empty : cache_wf ∅ list_New.
Proof.
  split_and!; cbn; [apply NoDup_nil_2 | done | apply map_Forall_empty].
Qed.

(** The cache map holds no more entries than the queue has elements. *)
Lemma cache_wf_size cache q :
  cache_wf cache q -> Z.of_nat (size cache) <= Len q.
Proof.
  intros (Hnd & _ & Hm). unfold Len.
  rewrite <- length_map_to_list.
  rewrite <- (length_fmap snd (map_to_list cache)).
  apply inj_le, submseteq_length, NoDup_submseteq.
  - apply NoDup_fmap_2_strong; [|apply NoDup_map_to_list].
    intros [h1 e1] [h2 e2] H1%elem_of_map_to_list H2%elem_of_map_to_list.
    cbn. intros ->. f_equal.
    destruct (Hm _ _ H1) as [_ <-]. by destruct (Hm _ _ H2) as [_ <-].
  - intros e ([h e'] & -> & He%elem_of_map_to_list)%list_elem_of_fmap.
    by destruct (Hm _ _ He).
Qed.

Lemma cache_wf_sub cache q cache' q' :
  cache_wf cache q ->
  sublist (elems q') (elems q) -> l_fresh q' = l_fresh q ->
  (forall h e, cache' !! h = Some e -> cache !! h = Some e /\ e ∈ elems q') ->
  cache_wf cache' q'.
Proof.
  intros (Hnd & Hfr & Hm) Hsub Hfresh Hc. split_and!.
  - apply (sublist_NoDup _ (eid <$> elems q)); [done|by apply fmap_sublist].
  - rewrite Hfresh. rewrite Forall_forall in *.
    intros e He. apply Hfr. by eapply elem_of_sublist.
  - intros h e He. destruct (Hc _ _ He) as [He' Hin].
    split; [done|]. by destruct (Hm _ _ He').
Qed.

Lemma cache_wf_Remove cache q oldest :
  cache_wf cache q -> oldest ∈ elems q ->
  cache_wf (delete (string_of (hash (Value oldest))) cache) (Remove oldest q).
Proof.
  intros Hwf Hin. eapply cache_wf_sub; [exact Hwf | apply sublist_filter | done |].
  intros h e [Hne He]%lookup_delete_Some. split; [done|].
  destruct Hwf as (Hnd & _ & Hm). destruct (Hm _ _ He) as [Hq Hh].
  apply list_elem_of_filter. split; [|done].
  intros Heid. apply Hne. rewrite <- Hh. f_equal. f_equal. f_equal.
  symmetry. by apply (same_eid (elems q)).
Qed.

Lemma cache_wf_uncached cache q h :
  cache_wf cache q -> cache_wf (delete h cache) (uncached_queue cache h q).
Proof.
  intros Hwf. unfold uncached_queue.
  destruct (cache !! h) as [elem|] eqn:Hl.
  - destruct Hwf as (Hnd & Hfr & Hm). destruct (Hm _ _ Hl) as [Hin Hh].
    rewrite <- Hh. by apply cache_wf_Remove.
  - by rewrite delete_id.
Qed.

Lemma cache_wf_PushBack cache q node :
  cache_wf cache q ->
  cache_wf (<[string_of (hash node) := (PushBack node q).1]> cache)
    (PushBack node q).2.
Proof.
  intros (Hnd & Hfr & Hm). unfold PushBack. cbn. split_and!; cbn.
  - rewrite fmap_app. apply NoDup_app. split; [done|]. split.
    + intros x (e' & Hx & He)%list_elem_of_fmap Hs%list_elem_of_singleton.
      rewrite Forall_forall in Hfr. apply Hfr in He. cbn in Hs. lia.
    + apply NoDup_singleton.
  - apply Forall_app. split.
    + eapply Forall_impl; [exact Hfr|]. cbn. lia.
    + apply Forall_singleton. cbn. lia.
  - apply map_Forall_insert_2.
    + split; [|done]. apply elem_of_app. right. by apply list_elem_of_singleton.
    + intros h e He. destruct (Hm _ _ He). split; [|done].
      apply elem_of_app. by left.
Qed.

Lemma cache_wf_MoveToBack cache q e :
  cache_wf cache q -> cache_wf cache (MoveToBack e q).
Proof.
  intros (Hnd & Hfr & Hm).
  assert (filter (fun e' => eid e' <> eid e) (elems q)
            ++ filter (fun e' => eid e' = eid e) (elems q) ≡ₚ elems q) as Hp.
  { assert (filter (fun e' => eid e' = eid e) (elems q)
            = filter (fun x => ~ eid x <> eid e) (elems q)) as ->.
    { apply list_filter_iff. intros x.
      destruct (decide (eid x = eid e)); tauto. }
    apply filter_app_complement. }
  unfold MoveToBack. split_and!; cbn.
  - by rewrite Hp.
  - by rewrite Hp.
  - intros h e' He. destruct (Hm _ _ He). split; [|done]. by rewrite Hp.
Qed.

(** ** Reading a node *)

Lemma nodeDB2_GetNode_eq `{NodeCodec} (hash : bytes) (ndb : nodeDB2.t) :
  nodeDB2.GetNode hash ndb =
    match hash with
    | [] => (Panic GetNodeRequiresHash, ndb)
    | _ =>
        match nodeDB2.nodeCache ndb !! hash with
        | Some elem =>
            (Ok (Value elem),
             nodeDB2.set_nodeCacheQueue
               (MoveToBack elem (nodeDB2.nodeCacheQueue ndb)) ndb)
        | None =>
            match nodeDB2.db ndb !! nodeKey hash with
            | None => (Panic (ValueMissing hash), ndb)
            | Some buf =>
                match MakeNode buf (nodeDB2.getLeafValueCb ndb) with
                | None => (Panic (ErrorReadingNode buf), ndb)
                | Some node =>
                    let node' :=
                      set_persisted true (set_hash (Some hash) node) in
                    (Ok node', after (nodeDB2.cacheNode node') ndb)
                end
            end
        end
    end.
Proof.
  unfold nodeDB2.GetNode. destruct hash as [|x hash]; [done|].
  cbn [length Nat.eqb]. unfold bind at 1, nodeDB2.getCachedNode at 1.
  unfold bind at 1, get at 1.
  destruct (nodeDB2.nodeCache ndb !! (x :: hash)) as [elem|]; [done|].
  unfold ret at 1, bind at 1, get at 1, Get.
  destruct (nodeDB2.db ndb !! nodeKey (x :: hash)) as [buf|]; [|done].
  destruct (MakeNode buf (nodeDB2.getLeafValueCb ndb)) as [node|]; [|done].
  unfold bind, after. rewrite nodeDB2_cacheNode_eq. done.
Qed.

Lemma nodeDB_memNodes_store_eq h node (ndb : nodeDB.t) m :
  nodeDB.memNodes ndb = Some m ->
  nodeDB.memNodes_store h node ndb
  = (Ok tt, nodeDB.set_memNodes (Some (<[h := node]> m)) ndb).
Proof.
  intros Em. unfold nodeDB.memNodes_store, bind, get, modify.
  by rewrite Em.
Qed.

Lemma nodeDB_GetNode_eq `{NodeCodec} (hash : bytes) (ndb : nodeDB.t) :
  nodeDB.GetNode hash ndb =
    match hash with
    | [] => (Panic GetNodeRequiresHash, ndb)
    | _ =>
        match nodeDB.nodeCache ndb !! hash with
        | Some elem =>
            (Ok (Value elem),
             nodeDB.set_nodeCacheQueue
               (MoveToBack elem (nodeDB.nodeCacheQueue ndb)) ndb)
        | None =>
            match nodeDB.memNodes_lookup hash ndb with
            | Some node =>
                let node' := set_hash (Some hash) node in
                (Ok node',
                 after (nodeDB.cacheNode node')
                   (after (nodeDB.memNodes_store hash node') ndb))
            | None =>
                match nodeDB.db ndb !! nodeKey hash with
                | None => (Panic (ValueMissing hash), ndb)
                | Some buf =>
                    match MakeNode buf (nodeDB.getLeafValueCb ndb) with
                    | None => (Panic (ErrorReadingNode buf), ndb)
                    | Some node =>
                        let node' :=
                          set_hash (Some hash) (set_persisted true node) in
                        (Ok node', after (nodeDB.cacheNode node') ndb)
                    end
                end
            end
        end
    end.
Proof.
  unfold nodeDB.GetNode. destruct hash as [|x hash]; [done|].
  cbn [length Nat.eqb]. unfold bind at 1, get at 1.
  destruct (nodeDB.nodeCache ndb !! (x :: hash)) as [elem|]; [done|].
  destruct (nodeDB.memNodes_lookup (x :: hash) ndb) as [node|] eqn:Hm.
  - unfold nodeDB.memNodes_lookup in Hm.
    destruct (nodeDB.memNodes ndb) as [m|] eqn:Em; [|done].
    unfold after.
    rewrite (bind_Ok _ _ _ _ _ (nodeDB_memNodes_store_eq _ _ _ _ Em)).
    rewrite (nodeDB_memNodes_store_eq _ _ _ _ Em). cbn [snd].
    unfold bind. rewrite nodeDB_cacheNode_eq. done.
  - unfold Get.
    destruct (nodeDB.db ndb !! nodeKey (x :: hash)) as [buf|]; [|done].
    destruct (MakeNode buf (nodeDB.getLeafValueCb ndb)) as [node|]; [|done].
    unfold bind, after. rewrite nodeDB_cacheNode_eq. done.
Qed.

Lemma filter_same_eid (l : list Element) e :
  NoDup (eid <$> l) -> e ∈ l -> filter (fun e' => eid e' = eid e) l = [e].
Proof.
  induction l as [|x l IH]; [by intros _ ?%elem_of_nil|].
  rewrite fmap_cons, NoDup_cons. intros [Hnotin Hnd] Hin.
  apply elem_of_cons in Hin as [->|Hin].
  - rewrite filter_cons_True by reflexivity. f_equal.
    assert (Forall (fun e' => ~ eid e' = eid x) l) as Hall.
    { apply Forall_forall. intros e' He' Heq. apply Hnotin.
      rewrite <- Heq. by apply list_elem_of_fmap_2. }
    clear -Hall. induction Hall as [|y l Hy _ IH]; [done|].
    by rewrite filter_cons_False.
  - rewrite filter_cons_False; [by apply IH|].
    intros Heq. apply Hnotin. rewrite Heq. by apply list_elem_of_fmap_2.
Qed.

(** In a well-formed cache, [MoveToBack] puts the element last and keeps the
    others in order. *)
Lemma MoveToBack_last cache q h elem :
  cache_wf cache q -> cache !! h = Some elem ->
  elems (MoveToBack elem q)
  = filter (fun e' => eid e' <> eid elem) (elems q) ++ [elem].
Proof.
  intros (Hnd & _ & Hm) Hl. destruct (Hm _ _ Hl) as [Hin _].
  unfold MoveToBack. cbn [elems]. f_equal. by apply filter_same_eid.
Qed.

(** C6.  For a non-empty hash [h], [GetNode(h)] returns the node of the
    cached element and moves that element to the back of the queue when the
    cache map has [h].  Otherwise [nodeDB2] reads [nodeKey(h)] from the
    backing store: it panics with "Value missing" (an InvariantViolation)
    when there is no entry, with "Error reading Node" (Corrupt) when the
    entry does not decode, and else returns the decoded node with
    [persisted = true] and [hash = h], having passed it to [cacheNode].
    [nodeDB] does the same only for a hash that [memNodes] does not hold; a
    node found in [memNodes] is returned with [hash = h] and passed to
    [cacheNode] without the backing store being read and without its
    [persisted] flag being set.  For the empty hash both panic with
    "requires hash" (an InvariantViolation) and change nothing. *)
Theorem GetNode_cache_then_store `{NodeCodec} (h : bytes) :
  panic_kind GetNodeRequiresHash = Some InvariantViolation
  /\ panic_kind (ValueMissing h) = Some InvariantViolation
  /\ (forall buf, panic_kind (ErrorReadingNode buf) = Some Corrupt)
  /\ (forall ndb : nodeDB2.t,
        (h = [] -> nodeDB2.GetNode h ndb = (Panic GetNodeRequiresHash, ndb))
        /\ (forall elem,
              h <> [] -> nodeDB2.nodeCache ndb !! h = Some elem ->
              nodeDB2.GetNode h ndb
              = (Ok (Value elem),
                 nodeDB2.set_nodeCacheQueue
                   (MoveToBack elem (nodeDB2.nodeCacheQueue ndb)) ndb)
              /\ (cache_wf (nodeDB2.nodeCache ndb)
                    (nodeDB2.nodeCacheQueue ndb) ->
                  last (elems (MoveToBack elem (nodeDB2.nodeCacheQueue ndb)))
                  = Some elem))
        /\ (h <> [] -> nodeDB2.nodeCache ndb !! h = None ->
            (nodeDB2.db ndb !! nodeKey h = None ->
             nodeDB2.GetNode h ndb = (Panic (ValueMissing h), ndb))
            /\ (forall buf,
                  nodeDB2.db ndb !! nodeKey h = Some buf ->
                  MakeNode buf (nodeDB2.getLeafValueCb ndb) = None ->
                  nodeDB2.GetNode h ndb = (Panic (ErrorReadingNode buf), ndb))
            /\ (forall buf node,
                  nodeDB2.db ndb !! nodeKey h = Some buf ->
                  MakeNode buf (nodeDB2.getLeafValueCb ndb) = Some node ->
                  let node' := set_persisted true (set_hash (Some h) node) in
                  nodeDB2.GetNode h ndb
                  = (Ok node', after (nodeDB2.cacheNode node') ndb)
                  /\ persisted node' = true /\ hash node' = Some h)))
  /\ (forall ndb : nodeDB.t,
        (h = [] -> nodeDB.GetNode h ndb = (Panic GetNodeRequiresHash, ndb))
        /\ (forall elem,
              h <> [] -> nodeDB.nodeCache ndb !! h = Some elem ->
              nodeDB.GetNode h ndb
              = (Ok (Value elem),
                 nodeDB.set_nodeCacheQueue
                   (MoveToBack elem (nodeDB.nodeCacheQueue ndb)) ndb)
              /\ (cache_wf (nodeDB.nodeCache ndb)
                    (nodeDB.nodeCacheQueue ndb) ->
                  last (elems (MoveToBack elem (nodeDB.nodeCacheQueue ndb)))
                  = Some elem))
        /\ (forall node,
              h <> [] -> nodeDB.nodeCache ndb !! h = None ->
              nodeDB.memNodes_lookup h ndb = Some node ->
              let node' := set_hash (Some h) node in
              nodeDB.GetNode h ndb
              = (Ok node',
                 after (nodeDB.cacheNode node')
                   (after (nodeDB.memNodes_store h node') ndb))
              /\ persisted node' = persisted node /\ hash node' = Some h)
        /\ (h <> [] -> nodeDB.nodeCache ndb !! h = None ->
            nodeDB.memNodes_lookup h ndb = None ->
            (nodeDB.db ndb !! nodeKey h = None ->
             nodeDB.GetNode h ndb = (Panic (ValueMissing h), ndb))
            /\ (forall buf,
                  nodeDB.db ndb !! nodeKey h = Some buf ->
                  MakeNode buf (nodeDB.getLeafValueCb ndb) = None ->
                  nodeDB.GetNode h ndb = (Panic (ErrorReadingNode buf), ndb))
            /\ (forall buf node,
                  nodeDB.db ndb !! nodeKey h = Some buf ->
                  MakeNode buf (nodeDB.getLeafValueCb ndb) = Some node ->
                  let node' := set_hash (Some h) (set_persisted true node) in
                  nodeDB.GetNode h ndb
                  = (Ok node', after (nodeDB.cacheNode node') ndb)
                  /\ persisted node' = true /\ hash node' = Some h))).
Proof.
  split; [done|]. split; [done|]. split; [done|]. split; intros ndb.
  - rewrite nodeDB2_GetNode_eq. split; [by intros ->|]. split.
    { intros elem Hne Hc. destruct h; [done|]. rewrite Hc. split; [done|].
      intros Hwf. rewrite (MoveToBack_last _ _ _ _ Hwf Hc). apply last_snoc. }
    intros Hne Hc. destruct h; [done|]. rewrite Hc.
    split; [by intros ->|]. split; [by intros buf -> ->|].
    by intros buf node -> ->.
  - rewrite nodeDB_GetNode_eq. split; [by intros ->|]. split.
    { intros elem Hne Hc. destruct h; [done|]. rewrite Hc. split; [done|].
      intros Hwf. rewrite (MoveToBack_last _ _ _ _ Hwf Hc). apply last_snoc. }
    split.
    { intros node Hne Hc Hm. destruct h; [done|]. by rewrite Hc, Hm. }
    intros Hne Hc Hm. destruct h; [done|]. rewrite Hc, Hm.
    split; [by intros ->|]. split; [by intros buf -> ->|].
    by intros buf node -> ->.
Qed.

(** C6, as first stated, fails: on the store [store_mem_node] neither the
    cache nor the backing store has an entry for the hash [7], and
    [GetNode] returns a node all the same, not marked persisted: the one
    [memNodes] holds. *)
Lemma GetNode_serves_memory_node :
  nodeDB.nodeCache store_mem_node !! [7] = None
  /\ nodeDB.db store_mem_node !! nodeKey [7] = None
  /\ (@nodeDB.GetNode sample_codec [7] store_mem_node).1
     = Ok (set_persistedMem true (set_hash (Some [7]) (sample_node [7])))
  /\ persisted
       (set_persistedMem true (set_hash (Some [7]) (sample_node [7])))
     = false.
Proof. vm_compute. done. Qed.

(** ** The cache limit *)

Lemma preserves_ret {S A} (I : S -> Prop) (a : A) : preserves I (ret a).
Proof. by intros s. Qed.

Lemma preserves_throw {S A} (I : S -> Prop) p : preserves I (@throw S A p).
Proof. by intros s. Qed.

Lemma preserves_get {S} (I : S -> Prop) : preserves I get.
Proof. by intros s. Qed.

Lemma preserves_modify {S} (I : S -> Prop) (f : S -> S) :
  (forall s, I s -> I (f s)) -> preserves I (modify f).
Proof. intros Hf s. apply Hf. Qed.

Lemma preserves_bind {S A B} (I : S -> Prop) (m : M S A) (f : A -> M S B) :
  preserves I m -> (forall a, preserves I (f a)) -> preserves I (bind m f).
Proof.
  intros Hm Hf s Hs. unfold bind. specialize (Hm s Hs).
  destruct (m s) as [[a|p] s']; cbn in *; [by apply Hf | done].
Qed.

Lemma Node_ind_children (P : Node -> Prop) :
  (forall n,
     match leftNode n with Some l => P l | None => True end ->
     match rightNode n with Some r => P r | None => True end ->
     P n) ->
  forall n, P n.
Proof.
  intros Hstep. fix IH 1. intros n. apply Hstep.
  - destruct n as [k v ver ht hs lh rh [l|] rn p pm]; cbn; [apply IH|exact I].
  - destruct n as [k v ver ht hs lh rh ln [r|] p pm]; cbn; [apply IH|exact I].
Qed.

Lemma oldest_in_pushed node q :
  default (PushBack node q).1 (head (elems q)) ∈ elems (PushBack node q).2.
Proof.
  unfold PushBack. cbn. destruct (elems q) as [|e l]; cbn.
  - by apply list_elem_of_singleton.
  - apply list_elem_of_here.
Qed.

(** One insert, in any state: the queue does not grow beyond the larger of
    its previous length and the limit. *)
Lemma nodeDB2_cacheNode_Len node (ndb : nodeDB2.t) :
  Len (nodeDB2.nodeCacheQueue (after (nodeDB2.cacheNode node) ndb))
  <= Z.max (Len (nodeDB2.nodeCacheQueue ndb)) (nodeDB2.nodeCacheSize ndb).
Proof.
  unfold after. rewrite nodeDB2_cacheNode_eq. cbn [snd].
  pose proof (Len_PushBack node (nodeDB2.nodeCacheQueue ndb)) as Hp.
  destruct (Z.gtb_spec (Len (nodeDB2.nodeCacheQueue ndb) + 1)
              (nodeDB2.nodeCacheSize ndb)).
  - pose proof (Len_Remove_Front _ _
                  (Front_PushBack node (nodeDB2.nodeCacheQueue ndb))).
    destruct ndb; cbn in *. lia.
  - destruct ndb; cbn in *. lia.
Qed.

Lemma nodeDB2_cacheNode_wf node (ndb : nodeDB2.t) :
  cache_wf (nodeDB2.nodeCache ndb) (nodeDB2.nodeCacheQueue ndb) ->
  cache_wf (nodeDB2.nodeCache (after (nodeDB2.cacheNode node) ndb))
    (nodeDB2.nodeCacheQueue (after (nodeDB2.cacheNode node) ndb)).
Proof.
  intros Hwf. unfold after. rewrite nodeDB2_cacheNode_eq. cbn [snd].
  pose proof (cache_wf_PushBack _ _ node Hwf) as Hp.
  destruct (_ >? _).
  - pose proof (cache_wf_Remove _ _ _ Hp (oldest_in_pushed node _)).
    by destruct ndb.
  - by destruct ndb.
Qed.

Lemma nodeDB2_cacheNode_bounded node :
  preserves nodeDB2_cache_bounded (nodeDB2.cacheNode node).
Proof.
  intros ndb [Hwf Hlen]. split.
  - by apply nodeDB2_cacheNode_wf.
  - pose proof (nodeDB2_cacheNode_Len node ndb).
    assert (nodeDB2.nodeCacheSize (nodeDB2.cacheNode node ndb).2
            = nodeDB2.nodeCacheSize ndb) as ->.
    { rewrite nodeDB2_cacheNode_eq. cbn [snd].
      by destruct (_ >? _), ndb. }
    unfold after in *. lia.
Qed.

Lemma nodeDB_cacheNode_Len node (ndb : nodeDB.t) :
  nodeDB.nodeCacheOnlyFlushOnSave ndb = false ->
  Len (nodeDB.nodeCacheQueue (after (nodeDB.cacheNode node) ndb))
  <= Z.max (Len (nodeDB.nodeCacheQueue ndb)) (nodeDB.nodeCacheSize ndb).
Proof.
  intros Hfl. unfold after. rewrite nodeDB_cacheNode_eq, Hfl.
  cbn [snd negb andb].
  pose proof (Len_PushBack node (nodeDB.nodeCacheQueue ndb)) as Hp.
  destruct (Z.gtb_spec (Len (nodeDB.nodeCacheQueue ndb) + 1)
              (nodeDB.nodeCacheSize ndb)).
  - pose proof (Len_Remove_Front _ _
                  (Front_PushBack node (nodeDB.nodeCacheQueue ndb))).
    destruct ndb; cbn in *. lia.
  - destruct ndb; cbn in *. lia.
Qed.

Lemma nodeDB_cacheNode_wf node (ndb : nodeDB.t) :
  cache_wf (nodeDB.nodeCache ndb) (nodeDB.nodeCacheQueue ndb) ->
  cache_wf (nodeDB.nodeCache (after (nodeDB.cacheNode node) ndb))
    (nodeDB.nodeCacheQueue (after (nodeDB.cacheNode node) ndb)).
Proof.
  intros Hwf. unfold after. rewrite nodeDB_cacheNode_eq. cbn [snd].
  pose proof (cache_wf_PushBack _ _ node Hwf) as Hp.
  destruct (_ && _).
  - pose proof (cache_wf_Remove _ _ _ Hp (oldest_in_pushed node _)).
    by destruct ndb.
  - by destruct ndb.
Qed.

Lemma nodeDB_cacheNode_bounded node :
  preserves nodeDB_cache_bounded (nodeDB.cacheNode node).
Proof.
  intros ndb (Hfl & Hwf & Hlen).
  assert (nodeDB.nodeCacheSize (nodeDB.cacheNode node ndb).2
          = nodeDB.nodeCacheSize ndb
          /\ nodeDB.nodeCacheOnlyFlushOnSave (nodeDB.cacheNode node ndb).2
             = nodeDB.nodeCacheOnlyFlushOnSave ndb) as [Hs Hf].
  { rewrite nodeDB_cacheNode_eq. cbn [snd]. by destruct (_ && _), ndb. }
  split_and!.
  - by rewrite Hf.
  - by apply nodeDB_cacheNode_wf.
  - pose proof (nodeDB_cacheNode_Len node ndb Hfl).
    rewrite Hs. unfold after in *. lia.
Qed.

Lemma Len_MoveToBack e q : Len (MoveToBack e q) = Len q.
Proof.
  unfold Len, MoveToBack. cbn [elems]. f_equal.
  rewrite length_app.
  induction (elems q) as [|x l IH]; [done|].
  destruct (decide (eid x = eid e)).
  - rewrite filter_cons_False, filter_cons_True by tauto. cbn. lia.
  - rewrite filter_cons_True, filter_cons_False by tauto. cbn. lia.
Qed.

Lemma nodeDB2_GetNode_bounded `{NodeCodec} h :
  preserves nodeDB2_cache_bounded (nodeDB2.GetNode h).
Proof.
  intros ndb Hb. rewrite nodeDB2_GetNode_eq. destruct h as [|x h]; [done|].
  destruct (nodeDB2.nodeCache ndb !! (x :: h)) as [elem|].
  - destruct Hb as [Hwf Hlen]. split; destruct ndb; cbn in *.
    + by apply cache_wf_MoveToBack.
    + by rewrite Len_MoveToBack.
  - destruct (nodeDB2.db ndb !! nodeKey (x :: h)) as [buf|]; [|done].
    destruct (MakeNode buf (nodeDB2.getLeafValueCb ndb)); [|done].
    by apply nodeDB2_cacheNode_bounded.
Qed.

Lemma nodeDB2_batch_Set_bounded k v :
  preserves nodeDB2_cache_bounded (nodeDB2.batch_Set k v).
Proof. intros ndb Hb. by destruct ndb. Qed.

Lemma nodeDB2_SaveNode_bounded `{NodeCodec} node flushToDisk :
  preserves nodeDB2_cache_bounded (nodeDB2.SaveNode node flushToDisk).
Proof.
  unfold nodeDB2.SaveNode. case_bool_decide; [apply preserves_throw|].
  destruct (persisted node); [apply preserves_throw|].
  apply preserves_bind.
  - unfold nodeDB2.writeNode. apply preserves_bind; [apply preserves_get|].
    intros ndb. destruct (writeBytes _ _); [|apply preserves_throw].
    apply preserves_bind; [apply nodeDB2_batch_Set_bounded|].
    intros _. apply preserves_ret.
  - intros node'. apply preserves_bind; [apply nodeDB2_cacheNode_bounded|].
    intros _. apply preserves_ret.
Qed.

Lemma nodeDB2_saveBranch_unfold `{NodeCodec} node :
  nodeDB2.saveBranch node =
    if persisted node then ret (hash node, node) else
    bind (match leftNode node with
          | Some l =>
              bind (nodeDB2.saveBranch l) (fun r =>
                ret (set_leftHash r.1 (set_leftNode (Some r.2) node)))
          | None => ret node
          end) (fun node1 =>
    bind (match rightNode node with
          | Some r' =>
              bind (nodeDB2.saveBranch r') (fun r =>
                ret (set_rightHash r.1 (set_rightNode (Some r.2) node1)))
          | None => ret node1
          end) (fun node2 =>
    bind (nodeDB2.SaveNode (Node_hash node2) true) (fun node3 =>
    let node4 := set_rightNode None (set_leftNode None node3) in
    ret (hash node4, node4)))).
Proof. by destruct node. Qed.

Lemma nodeDB2_saveBranch_bounded `{NodeCodec} node :
  preserves nodeDB2_cache_bounded (nodeDB2.saveBranch node).
Proof.
  induction node as [node IHl IHr] using Node_ind_children.
  rewrite nodeDB2_saveBranch_unfold.
  destruct (persisted node); [apply preserves_ret|].
  apply preserves_bind.
  { destruct (leftNode node); [|apply preserves_ret].
    apply preserves_bind; [done|]. intros r. apply preserves_ret. }
  intros node1. apply preserves_bind.
  { destruct (rightNode node); [|apply preserves_ret].
    apply preserves_bind; [done|]. intros r. apply preserves_ret. }
  intros node2. apply preserves_bind; [apply nodeDB2_SaveNode_bounded|].
  intros node3. apply preserves_ret.
Qed.

Lemma nodeDB_GetNode_bounded `{NodeCodec} h :
  preserves nodeDB_cache_bounded (nodeDB.GetNode h).
Proof.
  intros ndb Hb. rewrite nodeDB_GetNode_eq. destruct h as [|x h]; [done|].
  destruct (nodeDB.nodeCache ndb !! (x :: h)) as [elem|].
  - destruct Hb as (Hfl & Hwf & Hlen). split_and!; destruct ndb; cbn in *.
    + done.
    + by apply cache_wf_MoveToBack.
    + by rewrite Len_MoveToBack.
  - destruct (nodeDB.memNodes_lookup (x :: h) ndb) as [node|] eqn:Hm.
    + apply nodeDB_cacheNode_bounded. unfold after, nodeDB.memNodes_store,
        bind, get, modify, throw.
      destruct (nodeDB.memNodes ndb); by destruct ndb.
    + destruct (nodeDB.db ndb !! nodeKey (x :: h)) as [buf|]; [|done].
      destruct (MakeNode buf (nodeDB.getLeafValueCb ndb)); [|done].
      by apply nodeDB_cacheNode_bounded.
Qed.

Lemma nodeDB_batch_Set_bounded k v :
  preserves nodeDB_cache_bounded (nodeDB.batch_Set k v).
Proof. intros ndb Hb. by destruct ndb. Qed.

Lemma nodeDB_memNodes_store_bounded h node :
  preserves nodeDB_cache_bounded (nodeDB.memNodes_store h node).
Proof.
  intros ndb Hb. unfold nodeDB.memNodes_store, bind, get, modify, throw.
  destruct (nodeDB.memNodes ndb); by destruct ndb.
Qed.

Lemma nodeDB_SaveNode_bounded `{NodeCodec} node flushToDisk :
  preserves nodeDB_cache_bounded (nodeDB.SaveNode node flushToDisk).
Proof.
  unfold nodeDB.SaveNode. case_bool_decide; [apply preserves_throw|].
  destruct (_ && _); [apply preserves_ret|].
  destruct (persisted node); [apply preserves_throw|].
  apply preserves_bind; [apply preserves_get|]. intros ndb.
  destruct (writeBytes _ _); [|apply preserves_throw].
  apply preserves_bind.
  - destruct flushToDisk.
    + apply preserves_bind; [apply nodeDB_batch_Set_bounded|].
      intros _. apply preserves_ret.
    + apply preserves_bind; [apply nodeDB_memNodes_store_bounded|].
      intros _. apply preserves_ret.
  - intros node'. apply preserves_bind; [apply nodeDB_cacheNode_bounded|].
    intros _. apply preserves_ret.
Qed.

Lemma nodeDB_SaveBranch_unfold `{NodeCodec} node flushToDisk :
  nodeDB.SaveBranch node flushToDisk =
    if persisted node then ret (hash node, node) else
    if persistedMem node && negb flushToDisk then ret (hash node, node) else
    bind (match leftNode node with
          | Some l =>
              bind (nodeDB.SaveBranch l flushToDisk) (fun r =>
                ret (set_leftHash r.1 (set_leftNode (Some r.2) node)))
          | None => ret node
          end) (fun node1 =>
    bind (match rightNode node with
          | Some r' =>
              bind (nodeDB.SaveBranch r' flushToDisk) (fun r =>
                ret (set_rightHash r.1 (set_rightNode (Some r.2) node1)))
          | None => ret node1
          end) (fun node2 =>
    bind (nodeDB.SaveNode (Node_hash node2) flushToDisk) (fun node3 =>
    let node4 := if flushToDisk
                 then set_rightNode None (set_leftNode None node3)
                 else node3 in
    ret (hash node4, node4)))).
Proof. by destruct node. Qed.

Lemma nodeDB_SaveBranch_bounded `{NodeCodec} node flushToDisk :
  preserves nodeDB_cache_bounded (nodeDB.SaveBranch node flushToDisk).
Proof.
  induction node as [node IHl IHr] using Node_ind_children.
  rewrite nodeDB_SaveBranch_unfold.
  destruct (persisted node); [apply preserves_ret|].
  destruct (_ && _); [apply preserves_ret|].
  apply preserves_bind.
  { destruct (leftNode node); [|apply preserves_ret].
    apply preserves_bind; [done|]. intros r. apply preserves_ret. }
  intros node1. apply preserves_bind.
  { destruct (rightNode node); [|apply preserves_ret].
    apply preserves_bind; [done|]. intros r. apply preserves_ret. }
  intros node2. apply preserves_bind; [apply nodeDB_SaveNode_bounded|].
  intros node3. apply preserves_ret.
Qed.

Lemma nodeDB2_cacheNode_elems node (ndb : nodeDB2.t) :
  cache_wf (nodeDB2.nodeCache ndb) (nodeDB2.nodeCacheQueue ndb) ->
  elems (nodeDB2.nodeCacheQueue (after (nodeDB2.cacheNode node) ndb))
  = let pushed := elems (PushBack node (nodeDB2.nodeCacheQueue ndb)).2 in
    if Len (nodeDB2.nodeCacheQueue ndb) + 1 >? nodeDB2.nodeCacheSize ndb
    then tail pushed else pushed.
Proof.
  intros Hwf. unfold after. rewrite nodeDB2_cacheNode_eq. cbn [snd].
  destruct (cache_wf_PushBack _ _ node Hwf) as (Hnd & _).
  pose proof (Remove_Front_tail _ _ Hnd (Front_PushBack node _)) as Ht.
  destruct (_ >? _); by destruct ndb.
Qed.

Lemma nodeDB_cacheNode_elems node (ndb : nodeDB.t) :
  cache_wf (nodeDB.nodeCache ndb) (nodeDB.nodeCacheQueue ndb) ->
  elems (nodeDB.nodeCacheQueue (after (nodeDB.cacheNode node) ndb))
  = let pushed := elems (PushBack node (nodeDB.nodeCacheQueue ndb)).2 in
    if negb (nodeDB.nodeCacheOnlyFlushOnSave ndb)
       && (Len (nodeDB.nodeCacheQueue ndb) + 1 >? nodeDB.nodeCacheSize ndb)
    then tail pushed else pushed.
Proof.
  intros Hwf. unfold after. rewrite nodeDB_cacheNode_eq. cbn [snd].
  destruct (cache_wf_PushBack _ _ node Hwf) as (Hnd & _).
  pose proof (Remove_Front_tail _ _ Hnd (Front_PushBack node _)) as Ht.
  destruct (_ && _); by destruct ndb.
Qed.

(** C8.  [cacheNode] pushes the node at the back of the queue, enters it in
    the cache map, and never panics.  In [nodeDB2], and in [nodeDB] when
    [nodeCacheOnlyFlushOnSave] is off, it then unlinks the front element
    when the queue has become longer than [nodeCacheSize]: the queue never
    grows beyond the larger of its previous length and the limit, so a cache
    within its limit stays within it; on a well-formed cache the element
    unlinked is exactly the front one, and the cache map never has more
    entries than the queue has elements.  A store made by [NewNodeDB2] or
    [NewNodeDB] with a limit from 0 up starts within the limit, and
    [GetNode], [SaveNode] and [SaveBranch] keep it there, whether they
    return or panic.  In [nodeDB] with [nodeCacheOnlyFlushOnSave] on, an
    insert never evicts: the queue grows by one whatever the limit. *)
Theorem cacheNode_respects_limit `{NodeCodec} (node : Node) :
  (forall ndb : nodeDB2.t,
     let queue := nodeDB2.nodeCacheQueue ndb in
     let limit := nodeDB2.nodeCacheSize ndb in
     let ndb' := after (nodeDB2.cacheNode node) ndb in
     let pushed := elems (PushBack node queue).2 in
     (nodeDB2.cacheNode node ndb).1 = Ok tt
     /\ Len (nodeDB2.nodeCacheQueue ndb') <= Z.max (Len queue) limit
     /\ (Len queue <= limit -> Len (nodeDB2.nodeCacheQueue ndb') <= limit)
     /\ (cache_wf (nodeDB2.nodeCache ndb) queue ->
         cache_wf (nodeDB2.nodeCache ndb') (nodeDB2.nodeCacheQueue ndb')
         /\ Z.of_nat (size (nodeDB2.nodeCache ndb'))
            <= Len (nodeDB2.nodeCacheQueue ndb')
         /\ elems (nodeDB2.nodeCacheQueue ndb')
            = if Len queue + 1 >? limit then tail pushed else pushed)
     /\ (nodeDB2_cache_bounded ndb ->
         nodeDB2_cache_bounded ndb'
         /\ (forall h, nodeDB2_cache_bounded (after (nodeDB2.GetNode h) ndb))
         /\ (forall n f,
               nodeDB2_cache_bounded (after (nodeDB2.SaveNode n f) ndb))
         /\ (forall n f,
               nodeDB2_cache_bounded (after (nodeDB2.SaveBranch n f) ndb))))
  /\ (forall db cacheSize cb,
        0 <= cacheSize ->
        nodeDB2_cache_bounded (nodeDB2.NewNodeDB2 db cacheSize cb)
        /\ nodeDB_cache_bounded (nodeDB.NewNodeDB db cacheSize cb))
  /\
  (forall ndb : nodeDB.t,
     let queue := nodeDB.nodeCacheQueue ndb in
     let limit := nodeDB.nodeCacheSize ndb in
     let ndb' := after (nodeDB.cacheNode node) ndb in
     let pushed := elems (PushBack node queue).2 in
     (nodeDB.cacheNode node ndb).1 = Ok tt
     /\ (nodeDB.nodeCacheOnlyFlushOnSave ndb = true ->
         Len (nodeDB.nodeCacheQueue ndb') = Len queue + 1
         /\ elems (nodeDB.nodeCacheQueue ndb') = pushed)
     /\ (nodeDB.nodeCacheOnlyFlushOnSave ndb = false ->
         Len (nodeDB.nodeCacheQueue ndb') <= Z.max (Len queue) limit
         /\ (Len queue <= limit -> Len (nodeDB.nodeCacheQueue ndb') <= limit)
         /\ (cache_wf (nodeDB.nodeCache ndb) queue ->
             elems (nodeDB.nodeCacheQueue ndb')
             = if Len queue + 1 >? limit then tail pushed else pushed))
     /\ (cache_wf (nodeDB.nodeCache ndb) queue ->
         cache_wf (nodeDB.nodeCache ndb') (nodeDB.nodeCacheQueue ndb')
         /\ Z.of_nat (size (nodeDB.nodeCache ndb'))
            <= Len (nodeDB.nodeCacheQueue ndb'))
     /\ (nodeDB_cache_bounded ndb ->
         nodeDB_cache_bounded ndb'
         /\ (forall h, nodeDB_cache_bounded (after (nodeDB.GetNode h) ndb))
         /\ (forall n f,
               nodeDB_cache_bounded (after (nodeDB.SaveNode n f) ndb))
         /\ (forall n f,
               nodeDB_cache_bounded (after (nodeDB.SaveBranch n f) ndb)))).
Proof.
  split_and!.
  - intros ndb queue limit ndb' pushed. split_and!.
    + by rewrite nodeDB2_cacheNode_eq.
    + apply nodeDB2_cacheNode_Len.
    + intros Hle. pose proof (nodeDB2_cacheNode_Len node ndb).
      subst queue limit ndb'. lia.
    + intros Hwf. pose proof (nodeDB2_cacheNode_wf node ndb Hwf) as Hwf'.
      split; [done|]. split; [by apply cache_wf_size|].
      by apply nodeDB2_cacheNode_elems.
    + intros Hb. split; [by apply nodeDB2_cacheNode_bounded|].
      split; [intros; by apply nodeDB2_GetNode_bounded|].
      split; [intros; by apply nodeDB2_SaveNode_bounded|].
      intros; by apply nodeDB2_saveBranch_bounded.
  - intros db cacheSize cb Hsz. split.
    + split; [apply cache_wf_empty | by cbn].
    + split; [done|]. split; [apply cache_wf_empty | by cbn].
  - intros ndb queue limit ndb' pushed. split_and!.
    + by rewrite nodeDB_cacheNode_eq.
    + intros Hfl. subst ndb'. unfold after.
      rewrite nodeDB_cacheNode_eq, Hfl. cbn [negb andb snd].
      split; [|by destruct ndb].
      rewrite <- (Len_PushBack node queue). by destruct ndb.
    + intros Hfl. split; [by apply nodeDB_cacheNode_Len|]. split.
      * intros Hle. pose proof (nodeDB_cacheNode_Len node ndb Hfl).
        subst queue limit ndb'. lia.
      * intros Hwf. subst ndb'. rewrite nodeDB_cacheNode_elems by done.
        by rewrite Hfl.
    + intros Hwf. pose proof (nodeDB_cacheNode_wf node ndb Hwf) as Hwf'.
      split; [done|]. by apply cache_wf_size.
    + intros Hb. split; [by apply nodeDB_cacheNode_bounded|].
      split; [intros; by apply nodeDB_GetNode_bounded|].
      split; [intros; by apply nodeDB_SaveNode_bounded|].
      intros; by apply nodeDB_SaveBranch_bounded.
Qed.

(** C8, as first stated, fails: the store [store_flush_on_save] is left by a
    [SaveNode] that inserted one node into an empty cache of limit 0, and
    the cache holds that node. *)
Lemma cacheNode_exceeds_limit :
  store_flush_on_save
  = after (@nodeDB.SaveNode sample_codec
             (set_hash (Some [7]) (sample_node [7])) true)
      (nodeDB.NewNodeDB3 ∅ 0 0 true None)
  /\ nodeDB.nodeCacheSize store_flush_on_save = 0
  /\ Len (nodeDB.nodeCacheQueue store_flush_on_save) = 1
  /\ size (nodeDB.nodeCache store_flush_on_save) = 1%nat.
Proof. split; [reflexivity|]. vm_compute. done. Qed.

(** ** Saving orphans *)

(** [nodeDB.SaveOrphans] ends every lifetime it records at [version - 1],
    in the arithmetic of [int64]; it returns when no entry was born later
    than that. *)
Lemma nodeDB_SaveOrphans_in_spec range version (ndb : nodeDB.t) :
  Forall (fun e => e.2 <= sub64 version 1) range ->
  nodeDB.SaveOrphans_in range version ndb
  = (Ok tt,
     nodeDB.set_batch
       (nodeDB.batch ndb
          ++ ((fun e => BSet (orphanKey e.2 (sub64 version 1) e.1) e.1)
                <$> range)) ndb).
Proof.
  unfold nodeDB.SaveOrphans_in. cbn zeta. intros Hall.
  revert ndb. induction Hall as [|[h f] range Hf _ IH]; intros ndb.
  - cbn. rewrite app_nil_r. by destruct ndb.
  - cbn [forM_ fmap list_fmap]. unfold bind.
    rewrite nodeDB_saveOrphan_eq.
    destruct (Z.gtb_spec f (sub64 version 1)); [cbn in *; lia|].
    rewrite IH. destruct ndb; cbn. by rewrite <- (assoc_L (++)).
Qed.

Lemma nodeDB_SaveOrphans_lifetime version orphans (ndb : nodeDB.t) :
  minInt64 < version <= maxInt64 ->
  map_Forall (fun _ first => first <= version - 1) orphans ->
  exists ndb',
    nodeDB.SaveOrphans version orphans ndb = (Ok tt, ndb')
    /\ forall hash first,
         orphans !! hash = Some first ->
         BSet (orphanKey first (version - 1) hash) hash ∈ nodeDB.batch ndb'.
Proof.
  intros Hv Hall. unfold nodeDB.SaveOrphans.
  rewrite nodeDB_SaveOrphans_in_spec.
  - eexists. split; [done|]. intros hash first Hl.
    rewrite sub64_pred by done. destruct ndb; cbn.
    apply elem_of_app. right.
    apply (list_elem_of_fmap_2
             (fun e => BSet (orphanKey e.2 (version - 1) e.1) e.1)
             _ (hash, first)).
    by apply elem_of_map_to_list.
  - rewrite sub64_pred by done. apply Forall_forall.
    intros [h f] Hin%elem_of_map_to_list. cbn. by apply (Hall h f).
Qed.

(** [nodeDB2.SaveOrphans] ends every lifetime it records at
    [getPreviousVersion(version)]. *)
Lemma nodeDB2_SaveOrphans_in_spec range version (ndb : nodeDB2.t) :
  let toVersion := nodeDB2.getPreviousVersion version ndb in
  Forall (fun e => e.2 <= toVersion) range ->
  nodeDB2.SaveOrphans_in range version ndb
  = (Ok tt,
     nodeDB2.set_batch
       (nodeDB2.batch ndb
          ++ ((fun e => BSet (orphanKey e.2 toVersion e.1) e.1) <$> range))
       ndb).
Proof.
  intros toVersion. unfold nodeDB2.SaveOrphans_in, bind at 1, gets.
  fold toVersion. generalize toVersion. clear toVersion.
  intros toVersion Hall.
  revert ndb. induction Hall as [|[h f] range Hf _ IH]; intros ndb.
  - cbn. rewrite app_nil_r. by destruct ndb.
  - cbn [forM_ fmap list_fmap]. unfold bind.
    rewrite nodeDB2_saveOrphan_eq.
    destruct (Z.gtb_spec f toVersion); [cbn in *; lia|].
    rewrite IH. destruct ndb; cbn. by rewrite <- (assoc_L (++)).
Qed.

(** When [version - 1] has a root entry in the store, it is the predecessor
    [getPreviousVersion] finds. *)
Lemma getPreviousVersioni_pred version db :
  2 <= version <= maxInt64 -> wf_roots db ->
  is_Some (db !! rootKey (version - 1)) ->
  nodeDB.getPreviousVersioni version db = version - 1.
Proof.
  intros Hv Hwf Hroot.
  destruct (getPreviousVersioni_spec version db) as (Hp & _ & Hmax);
    [lia | done |].
  specialize (Hmax (version - 1)). cbn zeta in *.
  assert (version - 1 <= nodeDB.getPreviousVersioni version db)
    by (apply Hmax; [lia | done]).
  lia.
Qed.

(** C1.  [nodeDB.SaveOrphans(version, orphans)], for a [version] above the
    smallest [int64] and orphans born no later than [version - 1], returns
    and buffers for every entry [(hash, first)] of the map the orphan key of
    lifetime [first, version - 1], whose leading integer reads back as
    [version - 1].  [nodeDB2.SaveOrphans] buffers the lifetimes
    [first, getPreviousVersion(version)] instead.  The two agree when
    [version - 1] has a root entry in the backing store.  They differ on the
    stores [store2_v2_pending] and [store_v2_pending] (version 1 committed,
    the root of version 2 buffered): saving the orphans of version 3 with one
    orphan born at version 1, [nodeDB2] finds version 1 as the predecessor
    and records the lifetime [1, 1]; [nodeDB] records [1, 2], i.e. up to
    [3 - 1]. *)
Theorem nodeDB2_SaveOrphans_uses_predecessor :
  (forall version orphans (ndb : nodeDB.t),
     minInt64 < version <= maxInt64 ->
     map_Forall (fun _ first => first <= version - 1) orphans ->
     nodeDB.SaveOrphans version orphans ndb
     = (Ok tt,
        nodeDB.set_batch
          (nodeDB.batch ndb
             ++ ((fun e => BSet (orphanKey e.2 (version - 1) e.1) e.1)
                   <$> map_to_list orphans)) ndb))
  /\ (forall first last hash,
        is_int64 first -> is_int64 last ->
        orphan_last (orphanKey first last hash) = last
        /\ orphan_first (orphanKey first last hash) = first)
  /\ (forall version orphans (ndb : nodeDB2.t),
        let toVersion := nodeDB2.getPreviousVersion version ndb in
        map_Forall (fun _ first => first <= toVersion) orphans ->
        nodeDB2.SaveOrphans version orphans ndb
        = (Ok tt,
           nodeDB2.set_batch
             (nodeDB2.batch ndb
                ++ ((fun e => BSet (orphanKey e.2 toVersion e.1) e.1)
                      <$> map_to_list orphans)) ndb))
  /\ (forall version (ndb : nodeDB2.t),
        2 <= version <= maxInt64 -> wf_roots (nodeDB2.db ndb) ->
        is_Some (nodeDB2.db ndb !! rootKey (version - 1)) ->
        nodeDB2.getPreviousVersion version ndb = version - 1)
  /\ (nodeDB2.getLatestVersion store2_v2_pending).1 = Ok 2
  /\ nodeDB2.getPreviousVersion 3 store2_v2_pending = 1
  /\ (nodeDB2.SaveOrphans 3 {[ [9] := 1 ]} store2_v2_pending).1 = Ok tt
  /\ nodeDB2.batch (after (nodeDB2.SaveOrphans 3 {[ [9] := 1 ]})
                      store2_v2_pending)
     = nodeDB2.batch store2_v2_pending ++ [BSet (orphanKey 1 1 [9]) [9]]
  /\ nodeDB.batch (after (nodeDB.SaveOrphans 3 {[ [9] := 1 ]})
                     store_v2_pending)
     = nodeDB.batch store_v2_pending ++ [BSet (orphanKey 1 2 [9]) [9]]
  /\ orphan_last (orphanKey 1 1 [9]) = 1
  /\ orphan_last (orphanKey 1 2 [9]) = 3 - 1.
Proof.
  split_and!.
  - intros version orphans ndb Hv Hall. unfold nodeDB.SaveOrphans.
    rewrite nodeDB_SaveOrphans_in_spec; rewrite sub64_pred by done; [done|].
    apply Forall_forall.
    intros [h f] Hin%elem_of_map_to_list. cbn. by apply (Hall h f).
  - intros first last hash Hf Hl. unfold orphan_last, orphan_first.
    by apply ScanInt64_orphanKey.
  - intros version orphans ndb toVersion Hall. unfold nodeDB2.SaveOrphans.
    apply nodeDB2_SaveOrphans_in_spec, Forall_forall.
    intros [h f] Hin%elem_of_map_to_list. cbn. by apply (Hall h f).
  - intros version ndb Hv Hwf Hroot.
    by apply (getPreviousVersioni_pred version (nodeDB2.db ndb)).
  - vm_compute. done.
  - vm_compute. done.
  - vm_compute. done.
  - vm_compute. done.
  - vm_compute. done.
  - vm_compute. done.
  - vm_compute. done.
Qed.

(** ** The root keys the store writes *)

Lemma uint64_wrap64 v : uint64 (wrap64 v) = uint64 v.
Proof. unfold uint64, wrap64. rewrite Zminus_mod_idemp_l. f_equal. lia. Qed.

Lemma root_op_ok_rootKey v hash : root_op_ok (BSet (rootKey v) hash).
Proof.
  intros _. exists (wrap64 v). split; [apply is_int64_wrap64|].
  by rewrite !rootKey_unfold, uint64_wrap64.
Qed.

Lemma root_op_ok_nodeKey hash buf : root_op_ok (BSet (nodeKey hash) buf).
Proof. rewrite nodeKey_unfold. cbn. intros [=]. Qed.

Lemma root_op_ok_orphanKey fromVersion toVersion hash v :
  root_op_ok (BSet (orphanKey fromVersion toVersion hash) v).
Proof. rewrite orphanKey_unfold. cbn. intros [=]. Qed.

Lemma wf_roots_empty : wf_roots ∅.
Proof. intros k v Hk. by rewrite lookup_empty in Hk. Qed.

Lemma wf_roots_apply_op db op :
  wf_roots db -> root_op_ok op -> wf_roots (apply_op db op).
Proof.
  intros Hwf Hop k v Hk Hh. destruct op as [k' v'|k']; cbn in *.
  - destruct (decide (k = k')) as [->|Hne]; [by apply Hop|].
    rewrite lookup_insert_ne in Hk by done. by eapply Hwf.
  - apply lookup_delete_Some in Hk as [_ Hk]. by eapply Hwf.
Qed.

(** Writing a batch of well-formed operations keeps the root keys of the
    store well formed. *)
Lemma wf_roots_Write ops db :
  wf_roots db -> Forall root_op_ok ops -> wf_roots (Write ops db).
Proof.
  intros Hwf Hops. revert db Hwf. unfold Write.
  induction Hops as [|op ops Hop _ IH]; intros db Hwf; cbn; [done|].
  apply IH. by apply wf_roots_apply_op.
Qed.

Lemma preserves_gets {S A} (I : S -> Prop) (f : S -> A) :
  preserves I (gets f).
Proof. by intros s. Qed.

Lemma preserves_forM_ {S A} (I : S -> Prop) (l : list A)
    (body : A -> M S unit) :
  (forall x, preserves I (body x)) -> preserves I (forM_ l body).
Proof.
  intros Hbody. induction l as [|x l IH]; cbn [forM_].
  - apply preserves_ret.
  - apply preserves_bind; [apply Hbody | by intros _].
Qed.

Ltac preserves_step :=
  lazymatch goal with
  | |- preserves _ (bind _ _) => apply preserves_bind; [|intros ?]
  | |- preserves _ (ret _) => apply preserves_ret
  | |- preserves _ (throw _) => apply preserves_throw
  | |- preserves _ get => apply preserves_get
  | |- preserves _ (gets _) => apply preserves_gets
  | |- preserves _ (forM_ _ _) => apply preserves_forM_; intros ?
  | |- preserves _ (match ?x with _ => _ end) => destruct x
  end.


Lemma nodeDB2_roots_ok_frame (ndb ndb' : nodeDB2.t) :
  nodeDB2.db ndb' = nodeDB2.db ndb ->
  nodeDB2.batch ndb' = nodeDB2.batch ndb ->
  nodeDB2_roots_ok ndb -> nodeDB2_roots_ok ndb'.
Proof. unfold nodeDB2_roots_ok. by intros -> ->. Qed.

Lemma nodeDB2_batch_Set_roots k v :
  root_op_ok (BSet k v) -> preserves nodeDB2_roots_ok (nodeDB2.batch_Set k v).
Proof.
  intros Hop ndb [Hd Hb]. split; destruct ndb; cbn in *; [done|].
  apply Forall_app. split; [done|]. by apply Forall_singleton.
Qed.

Lemma nodeDB2_batch_Delete_roots k :
  preserves nodeDB2_roots_ok (nodeDB2.batch_Delete k).
Proof.
  intros ndb [Hd Hb]. split; destruct ndb; cbn in *; [done|].
  apply Forall_app. split; [done|]. by apply Forall_singleton.
Qed.

Lemma nodeDB2_cacheNode_roots node :
  preserves nodeDB2_roots_ok (nodeDB2.cacheNode node).
Proof.
  intros ndb Hok.
  apply (nodeDB2_roots_ok_frame ndb); [..|done];
    rewrite nodeDB2_cacheNode_eq; cbn [snd]; destruct (_ >? _);
    by destruct ndb.
Qed.

Lemma nodeDB2_uncacheNode_roots hash :
  preserves nodeDB2_roots_ok (nodeDB2.uncacheNode hash).
Proof.
  intros ndb Hok.
  apply (nodeDB2_roots_ok_frame ndb); [..|done];
    rewrite nodeDB2_uncacheNode_spec; by destruct ndb.
Qed.

Lemma nodeDB2_GetNode_roots `{NodeCodec} h :
  preserves nodeDB2_roots_ok (nodeDB2.GetNode h).
Proof.
  intros ndb Hok. rewrite nodeDB2_GetNode_eq. destruct h as [|x h]; [done|].
  destruct (nodeDB2.nodeCache ndb !! (x :: h)) as [elem|].
  - apply (nodeDB2_roots_ok_frame ndb); [..|done]; by destruct ndb.
  - destruct (nodeDB2.db ndb !! nodeKey (x :: h)) as [buf|]; [|done].
    destruct (MakeNode buf (nodeDB2.getLeafValueCb ndb)); [|done].
    by apply nodeDB2_cacheNode_roots.
Qed.

Lemma nodeDB2_SaveNode_roots `{NodeCodec} node flushToDisk :
  preserves nodeDB2_roots_ok (nodeDB2.SaveNode node flushToDisk).
Proof.
  unfold nodeDB2.SaveNode. case_bool_decide; [apply preserves_throw|].
  destruct (persisted node); [apply preserves_throw|].
  unfold nodeDB2.writeNode. repeat preserves_step.
  - apply nodeDB2_batch_Set_roots, root_op_ok_nodeKey.
  - apply nodeDB2_cacheNode_roots.
Qed.

Lemma nodeDB2_saveBranch_roots `{NodeCodec} node :
  preserves nodeDB2_roots_ok (nodeDB2.saveBranch node).
Proof.
  induction node as [node IHl IHr] using Node_ind_children.
  rewrite nodeDB2_saveBranch_unfold.
  destruct (persisted node); [apply preserves_ret|].
  apply preserves_bind.
  { destruct (leftNode node); [|apply preserves_ret].
    apply preserves_bind; [done|]. intros r. apply preserves_ret. }
  intros node1. apply preserves_bind.
  { destruct (rightNode node); [|apply preserves_ret].
    apply preserves_bind; [done|]. intros r. apply preserves_ret. }
  intros node2. apply preserves_bind; [apply nodeDB2_SaveNode_roots|].
  intros node3. apply preserves_ret.
Qed.

Lemma nodeDB2_saveOrphan_roots hash fromVersion toVersion :
  preserves nodeDB2_roots_ok (nodeDB2.saveOrphan hash fromVersion toVersion).
Proof.
  unfold nodeDB2.saveOrphan. destruct (_ >? _); [apply preserves_throw|].
  apply nodeDB2_batch_Set_roots, root_op_ok_orphanKey.
Qed.

Lemma nodeDB2_SaveOrphans_roots version orphans :
  preserves nodeDB2_roots_ok (nodeDB2.SaveOrphans version orphans).
Proof.
  unfold nodeDB2.SaveOrphans, nodeDB2.SaveOrphans_in.
  repeat preserves_step. apply nodeDB2_saveOrphan_roots.
Qed.

Lemma nodeDB2_deleteOrphans_roots version :
  preserves nodeDB2_roots_ok (nodeDB2.deleteOrphans version).
Proof.
  unfold nodeDB2.deleteOrphans, nodeDB2.traverseOrphansVersion,
    nodeDB2.traversePrefix, nodeDB2.deleteOrphans_fn.
  repeat preserves_step;
    auto using nodeDB2_batch_Delete_roots, nodeDB2_uncacheNode_roots,
      nodeDB2_saveOrphan_roots.
Qed.

Lemma nodeDB2_set_latestVersion_roots v :
  preserves nodeDB2_roots_ok (modify (nodeDB2.set_latestVersion v)).
Proof. intros ndb Hok. by destruct ndb. Qed.

Lemma nodeDB2_getLatestVersion_roots :
  preserves nodeDB2_roots_ok nodeDB2.getLatestVersion.
Proof.
  unfold nodeDB2.getLatestVersion.
  repeat preserves_step; apply nodeDB2_set_latestVersion_roots.
Qed.

Lemma nodeDB2_updateLatestVersion_roots v :
  preserves nodeDB2_roots_ok (nodeDB2.updateLatestVersion v).
Proof.
  unfold nodeDB2.updateLatestVersion.
  repeat preserves_step; apply nodeDB2_set_latestVersion_roots.
Qed.

Lemma nodeDB2_deleteRoot_roots version check :
  preserves nodeDB2_roots_ok (nodeDB2.deleteRoot version check).
Proof.
  unfold nodeDB2.deleteRoot.
  repeat preserves_step;
    auto using nodeDB2_batch_Delete_roots, nodeDB2_getLatestVersion_roots.
Qed.

Lemma nodeDB2_DeleteVersion_roots version check :
  preserves nodeDB2_roots_ok (nodeDB2.DeleteVersion version check).
Proof.
  unfold nodeDB2.DeleteVersion.
  repeat preserves_step;
    auto using nodeDB2_deleteOrphans_roots, nodeDB2_deleteRoot_roots.
Qed.

Lemma nodeDB2_saveRoot_roots hash version :
  preserves nodeDB2_roots_ok (nodeDB2.saveRoot hash version).
Proof.
  unfold nodeDB2.saveRoot.
  repeat preserves_step;
    auto using nodeDB2_getLatestVersion_roots,
      nodeDB2_updateLatestVersion_roots, nodeDB2_batch_Set_roots,
      root_op_ok_rootKey.
Qed.

Lemma nodeDB2_Commit_roots : preserves nodeDB2_roots_ok nodeDB2.Commit.
Proof.
  intros ndb [Hd Hb]. split; destruct ndb; cbn in *; [|done].
  by apply wf_roots_Write.
Qed.

Lemma nodeDB_roots_ok_frame (ndb ndb' : nodeDB.t) :
  nodeDB.db ndb' = nodeDB.db ndb ->
  nodeDB.batch ndb' = nodeDB.batch ndb ->
  nodeDB_roots_ok ndb -> nodeDB_roots_ok ndb'.
Proof. unfold nodeDB_roots_ok. by intros -> ->. Qed.

Lemma nodeDB_batch_Set_roots k v :
  root_op_ok (BSet k v) -> preserves nodeDB_roots_ok (nodeDB.batch_Set k v).
Proof.
  intros Hop ndb [Hd Hb]. split; destruct ndb; cbn in *; [done|].
  apply Forall_app. split; [done|]. by apply Forall_singleton.
Qed.

Lemma nodeDB_batch_Delete_roots k :
  preserves nodeDB_roots_ok (nodeDB.batch_Delete k).
Proof.
  intros ndb [Hd Hb]. split; destruct ndb; cbn in *; [done|].
  apply Forall_app. split; [done|]. by apply Forall_singleton.
Qed.

Lemma nodeDB_cacheNode_roots node :
  preserves nodeDB_roots_ok (nodeDB.cacheNode node).
Proof.
  intros ndb Hok.
  apply (nodeDB_roots_ok_frame ndb); [..|done];
    rewrite nodeDB_cacheNode_eq; cbn [snd]; destruct (_ && _);
    by destruct ndb.
Qed.

Lemma nodeDB_uncacheNode_roots hash :
  preserves nodeDB_roots_ok (nodeDB.uncacheNode hash).
Proof.
  intros ndb Hok.
  apply (nodeDB_roots_ok_frame ndb); [..|done];
    rewrite nodeDB_uncacheNode_spec; by destruct ndb.
Qed.

Lemma nodeDB_memNodes_store_roots h node :
  preserves nodeDB_roots_ok (nodeDB.memNodes_store h node).
Proof.
  intros ndb Hok. unfold nodeDB.memNodes_store, bind, get, modify, throw.
  destruct (nodeDB.memNodes ndb); by destruct ndb.
Qed.

Lemma nodeDB_GetNode_roots `{NodeCodec} h :
  preserves nodeDB_roots_ok (nodeDB.GetNode h).
Proof.
  intros ndb Hok. rewrite nodeDB_GetNode_eq. destruct h as [|x h]; [done|].
  destruct (nodeDB.nodeCache ndb !! (x :: h)) as [elem|].
  - apply (nodeDB_roots_ok_frame ndb); [..|done]; by destruct ndb.
  - destruct (nodeDB.memNodes_lookup (x :: h) ndb) as [node|].
    + by apply nodeDB_cacheNode_roots, nodeDB_memNodes_store_roots.
    + destruct (nodeDB.db ndb !! nodeKey (x :: h)) as [buf|]; [|done].
      destruct (MakeNode buf (nodeDB.getLeafValueCb ndb)); [|done].
      by apply nodeDB_cacheNode_roots.
Qed.

Lemma nodeDB_SaveNode_roots `{NodeCodec} node flushToDisk :
  preserves nodeDB_roots_ok (nodeDB.SaveNode node flushToDisk).
Proof.
  unfold nodeDB.SaveNode. case_bool_decide; [apply preserves_throw|].
  destruct (_ && _); [apply preserves_ret|].
  destruct (persisted node); [apply preserves_throw|].
  repeat preserves_step.
  - apply nodeDB_batch_Set_roots, root_op_ok_nodeKey.
  - apply nodeDB_memNodes_store_roots.
  - apply nodeDB_cacheNode_roots.
Qed.

Lemma nodeDB_SaveBranch_roots `{NodeCodec} node flushToDisk :
  preserves nodeDB_roots_ok (nodeDB.SaveBranch node flushToDisk).
Proof.
  induction node as [node IHl IHr] using Node_ind_children.
  rewrite nodeDB_SaveBranch_unfold.
  destruct (persisted node); [apply preserves_ret|].
  destruct (_ && _); [apply preserves_ret|].
  apply preserves_bind.
  { destruct (leftNode node); [|apply preserves_ret].
    apply preserves_bind; [done|]. intros r. apply preserves_ret. }
  intros node1. apply preserves_bind.
  { destruct (rightNode node); [|apply preserves_ret].
    apply preserves_bind; [done|]. intros r. apply preserves_ret. }
  intros node2. apply preserves_bind; [apply nodeDB_SaveNode_roots|].
  intros node3. apply preserves_ret.
Qed.

Lemma nodeDB_saveOrphan_roots hash fromVersion toVersion :
  preserves nodeDB_roots_ok (nodeDB.saveOrphan hash fromVersion toVersion).
Proof.
  unfold nodeDB.saveOrphan. destruct (_ >? _); [apply preserves_throw|].
  apply nodeDB_batch_Set_roots, root_op_ok_orphanKey.
Qed.

Lemma nodeDB_SaveOrphans_roots version orphans :
  preserves nodeDB_roots_ok (nodeDB.SaveOrphans version orphans).
Proof.
  unfold nodeDB.SaveOrphans, nodeDB.SaveOrphans_in. cbn zeta.
  repeat preserves_step. apply nodeDB_saveOrphan_roots.
Qed.

Lemma nodeDB_deleteOrphans_roots version :
  preserves nodeDB_roots_ok (nodeDB.deleteOrphans version).
Proof.
  unfold nodeDB.deleteOrphans, nodeDB.deleteOrphansWithPredecessor,
    nodeDB.traverseOrphansVersion, nodeDB.traversePrefix,
    nodeDB.deleteOrphans_fn.
  repeat preserves_step;
    auto using nodeDB_batch_Delete_roots, nodeDB_uncacheNode_roots,
      nodeDB_saveOrphan_roots.
Qed.

Lemma nodeDB_set_latestVersion_roots v :
  preserves nodeDB_roots_ok (modify (nodeDB.set_latestVersion v)).
Proof. intros ndb Hok. by destruct ndb. Qed.

Lemma nodeDB_getLatestVersion_roots :
  preserves nodeDB_roots_ok nodeDB.getLatestVersion.
Proof.
  unfold nodeDB.getLatestVersion.
  repeat preserves_step; apply nodeDB_set_latestVersion_roots.
Qed.

Lemma nodeDB_updateLatestVersion_roots v :
  preserves nodeDB_roots_ok (nodeDB.updateLatestVersion v).
Proof.
  unfold nodeDB.updateLatestVersion.
  repeat preserves_step; apply nodeDB_set_latestVersion_roots.
Qed.

Lemma nodeDB_deleteRoot_roots version check :
  preserves nodeDB_roots_ok (nodeDB.deleteRoot version check).
Proof.
  unfold nodeDB.deleteRoot.
  repeat preserves_step;
    auto using nodeDB_batch_Delete_roots, nodeDB_getLatestVersion_roots.
Qed.

Lemma nodeDB_DeleteVersion_roots version check :
  preserves nodeDB_roots_ok (nodeDB.DeleteVersion version check).
Proof.
  unfold nodeDB.DeleteVersion.
  repeat preserves_step;
    auto using nodeDB_deleteOrphans_roots, nodeDB_deleteRoot_roots.
Qed.

Lemma nodeDB_saveRoot_roots hash version :
  preserves nodeDB_roots_ok (nodeDB.saveRoot hash version).
Proof.
  unfold nodeDB.saveRoot.
  repeat preserves_step;
    auto using nodeDB_getLatestVersion_roots,
      nodeDB_updateLatestVersion_roots, nodeDB_batch_Set_roots,
      root_op_ok_rootKey.
Qed.

Lemma nodeDB_FlushCache_loop_roots rounds :
  preserves nodeDB_roots_ok (nodeDB.FlushCache_loop rounds).
Proof.
  induction rounds as [|rounds IH]; cbn [nodeDB.FlushCache_loop].
  - apply preserves_ret.
  - repeat preserves_step; [|done].
    intros ndb Hok. unfold nodeDB.evictOldest, bind, get, modify, throw.
    destruct (Front _); by destruct ndb.
Qed.

Lemma nodeDB_Commit_roots : preserves nodeDB_roots_ok nodeDB.Commit.
Proof.
  unfold nodeDB.Commit, nodeDB.FlushCache, nodeDB.batch_Write.
  repeat preserves_step; [| |apply nodeDB_FlushCache_loop_roots].
  - intros ndb [Hd Hb]. unfold modify. cbn [snd].
    destruct (nodeDB.batchOwner ndb); split; destruct ndb; cbn in *;
      try done.
    by apply wf_roots_Write.
  - intros ndb [Hd Hb]. split; by destruct ndb.
Qed.

(** Every method that writes keeps the root keys of the backing store and
    of the batch well formed, whether it returns or panics, and a new store
    over a backing store with well-formed root keys (an empty one, say)
    starts so. *)
Lemma nodeDB2_roots_ok_invariant `{NodeCodec} :
  wf_roots ∅
  /\ (forall db cacheSize cb,
        wf_roots db -> nodeDB2_roots_ok (nodeDB2.NewNodeDB2 db cacheSize cb))
  /\ (forall ndb, nodeDB2_roots_ok ndb -> wf_roots (nodeDB2.db ndb))
  /\ (forall h, preserves nodeDB2_roots_ok (nodeDB2.GetNode h))
  /\ (forall n f, preserves nodeDB2_roots_ok (nodeDB2.SaveNode n f))
  /\ (forall n f, preserves nodeDB2_roots_ok (nodeDB2.SaveBranch n f))
  /\ (forall v o, preserves nodeDB2_roots_ok (nodeDB2.SaveOrphans v o))
  /\ (forall v c, preserves nodeDB2_roots_ok (nodeDB2.DeleteVersion v c))
  /\ (forall h v, preserves nodeDB2_roots_ok (nodeDB2.saveRoot h v))
  /\ preserves nodeDB2_roots_ok nodeDB2.Commit.
Proof.
  split_and!;
    auto using wf_roots_empty, nodeDB2_GetNode_roots, nodeDB2_SaveNode_roots,
      nodeDB2_SaveOrphans_roots, nodeDB2_DeleteVersion_roots,
      nodeDB2_saveRoot_roots, nodeDB2_Commit_roots.
  - intros db cacheSize cb Hwf. by split.
  - by intros ndb [Hd _].
  - intros n f. apply nodeDB2_saveBranch_roots.
Qed.

Lemma nodeDB_roots_ok_invariant `{NodeCodec} :
  (forall db cacheSize cb,
     wf_roots db -> nodeDB_roots_ok (nodeDB.NewNodeDB db cacheSize cb))
  /\ (forall db minSize maxSize fl cb,
        wf_roots db ->
        nodeDB_roots_ok (nodeDB.NewNodeDB3 db minSize maxSize fl cb))
  /\ (forall ndb, nodeDB_roots_ok ndb -> wf_roots (nodeDB.db ndb))
  /\ (forall h, preserves nodeDB_roots_ok (nodeDB.GetNode h))
  /\ (forall n f, preserves nodeDB_roots_ok (nodeDB.SaveNode n f))
  /\ (forall n f, preserves nodeDB_roots_ok (nodeDB.SaveBranch n f))
  /\ (forall v o, preserves nodeDB_roots_ok (nodeDB.SaveOrphans v o))
  /\ (forall v c, preserves nodeDB_roots_ok (nodeDB.DeleteVersion v c))
  /\ (forall h v, preserves nodeDB_roots_ok (nodeDB.saveRoot h v))
  /\ preserves nodeDB_roots_ok nodeDB.Commit.
Proof.
  split_and!;
    auto using nodeDB_GetNode_roots, nodeDB_SaveNode_roots,
      nodeDB_SaveBranch_roots, nodeDB_SaveOrphans_roots,
      nodeDB_DeleteVersion_roots, nodeDB_saveRoot_roots, nodeDB_Commit_roots.
  - intros db cacheSize cb Hwf. by split.
  - intros db minSize maxSize fl cb Hwf. by split.
  - by intros ndb [Hd _].
Qed.

(** * The theorems at concrete stores *)

Lemma wf_roots_check_sound db : wf_roots_check db = true -> wf_roots db.
Proof.
  unfold wf_roots_check. rewrite forallb_forall.
  intros Hall k v Hk Hh.
  assert (root_key_ok k = true) as Hok.
  { apply (Hall (k, v)). apply list_elem_of_In. by apply elem_of_map_to_list. }
  unfold root_key_ok in Hok.
  rewrite bool_decide_eq_true_2 in Hok by done.
  apply bool_decide_eq_true in Hok.
  exists (ScanInt64 rootKeyFormat k 0). split; [apply is_int64_wrap64|done].
Qed.

(** The witness of C7: an orphan of lifetime [1, 2] is buffered under the
    key 'o', 2, 1, hash; one of lifetime [3, 2] is refused. *)
Lemma saveOrphan_records_witness :
  nodeDB2.batch (after (nodeDB2.saveOrphan [9] 1 2) store2_v2_pending)
  = nodeDB2.batch store2_v2_pending
      ++ [BSet [111; 0;0;0;0;0;0;0;2; 0;0;0;0;0;0;0;1; 9] [9]]
  /\ nodeDB.saveOrphan [9] 3 2 store_v2_pending
     = (Panic (OrphanExpiresBeforeAlive 3 2), store_v2_pending).
Proof.
  destruct (saveOrphan_records [9] 1 2) as (_ & _ & H2).
  destruct (saveOrphan_records [9] 3 2) as (_ & H1 & _).
  split.
  - destruct (H2 store2_v2_pending) as [_ Hok].
    unfold after. rewrite Hok by lia. vm_compute. reflexivity.
  - destruct (H1 store_v2_pending) as [Hpanic _]. apply Hpanic. lia.
Defined.

(** The witness of C5: with version 1 the latest, saving the root of version
    3 is refused and saving that of version 2 succeeds. *)
Lemma saveRoot_consecutive_witness :
  (nodeDB2.saveRoot [3] 3 store_v1_orphan).1
  = Ok (Some (MustSaveConsecutive 2 3))
  /\ exists ndb2,
       nodeDB2.saveRoot [2] 2 store_v1_orphan = (Ok None, ndb2)
       /\ nodeDB2.batch ndb2
          = nodeDB2.batch store_v1_orphan ++ [BSet (rootKey 2) [2]]
       /\ nodeDB2.getLatestVersion ndb2 = (Ok 2, ndb2).
Proof.
  assert (0 <= 1 < maxInt64) as Hrange
    by (unfold maxInt64; rewrite pow2_63; lia).
  assert (nodeDB2.getLatestVersion store_v1_orphan = (Ok 1, store_v1_orphan))
    as Hlatest by (vm_compute; reflexivity).
  split.
  - destruct (saveRoot_consecutive [3] 3) as [_ H2].
    destruct (H2 _ _ _ Hlatest) as (_ & _ & _ & Hadd & Hne & _).
    rewrite (Hadd Hrange) in Hne.
    destruct Hne as [-> _]; [lia|reflexivity].
  - destruct (saveRoot_consecutive [2] 2) as [_ H2].
    destruct (H2 _ _ _ Hlatest) as (_ & _ & _ & Hadd & _ & Heq).
    rewrite (Hadd Hrange) in Heq.
    destruct (Heq eq_refl) as (ndb2 & Hs & Hb & _ & _ & Hl).
    exists ndb2. split; [exact Hs|]. split; [exact Hb|]. exact (Hl Hrange).
Defined.

(** The witness of C3: deleting version 2 of [store_v3_orphan], whose
    predecessor is version 1, shortens the orphan of lifetime [1, 2] to
    [1, 1]. *)
Lemma DeleteVersion_prunes_orphans_witness :
  nodeDB2.getPreviousVersion 2 store_v3_orphan = 1
  /\ IteratePrefix (nodeDB2.db store_v3_orphan)
       (Key orphanKeyFormat [Int64 2])
     = [(orphanKey 1 2 [9], [9])]
  /\ 0 <= nodeDB2.getPreviousVersion 2 store_v3_orphan < 2
  /\ exists ndb',
       nodeDB2.deleteOrphans 2 store_v3_orphan = (Ok tt, ndb')
       /\ nodeDB2.batch ndb'
          = [BDelete (orphanKey 1 2 [9]); BSet (orphanKey 1 1 [9]) [9]].
Proof.
  destruct (DeleteVersion_prunes_orphans 2 true) as [_ H2].
  destruct (H2 store_v3_orphan) as (_ & _ & _ & _ & Hrun & Hpred).
  split; [vm_compute; reflexivity|].
  split; [vm_compute; reflexivity|].
  split.
  - apply Hpred.
    + unfold maxInt64. rewrite pow2_63. lia.
    + apply wf_roots_check_sound. vm_compute. reflexivity.
  - destruct Hrun as (ndb' & Hd & _ & Hb & _).
    exists ndb'. split; [exact Hd|]. rewrite Hb. vm_compute. reflexivity.
Defined.

(** The witness of C4: version 1 is the latest of [store_v1_orphan]. *)
Lemma DeleteVersion_latest_panics_witness :
  exists ndb1,
    nodeDB2.deleteOrphans 1 store_v1_orphan = (Ok tt, ndb1)
    /\ nodeDB2.DeleteVersion 1 true store_v1_orphan
       = (Panic DeleteLatestVersion, nodeDB2.set_latestVersion 1 ndb1)
    /\ nodeDB2.batch ndb1
       = [BDelete (orphanKey 1 1 [9]); BDelete (nodeKey [9])].
Proof.
  destruct (DeleteVersion_latest_panics 1) as (_ & _ & H2).
  destruct (H2 store_v1_orphan) as (ndb1 & Hd & Hp & Hb & _).
  - vm_compute. reflexivity.
  - exists ndb1. split; [exact Hd|]. split; [exact Hp|].
    rewrite Hb. vm_compute. reflexivity.
Defined.

(** The witness of C10: deleting the latest version 3 of [store_v3_orphan]
    without the check leaves the counter at 3. *)
Lemma DeleteVersion_keeps_latestVersion_witness :
  (exists ndb',
     nodeDB2.DeleteVersion 3 false store_v3_orphan = (Ok tt, ndb')
     /\ nodeDB2.latestVersion ndb' = 3
     /\ (nodeDB2.getLatestVersion ndb').1 = Ok 3
     /\ last (nodeDB2.batch ndb') = Some (BDelete (rootKey 3)))
  /\ nodeDB2.latestVersion store_v3_orphan
     <= nodeDB2.latestVersion (nodeDB2.getLatestVersion store_v3_orphan).2.
Proof.
  destruct (DeleteVersion_keeps_latestVersion 3) as [_ H2].
  destruct (H2 store_v3_orphan) as (Hdel & _ & Hget & _).
  split.
  - destruct Hdel as (ndb' & Hd & Hl & _ & Hg & Hb).
    exists ndb'. split; [exact Hd|]. split; [rewrite Hl; reflexivity|].
    split; [rewrite Hg; vm_compute; reflexivity | exact Hb].
  - apply Hget. apply wf_roots_check_sound. vm_compute. reflexivity.
Defined.

(** The witness of C2: [Commit] on [store_flush_on_save], whose limit is 0,
    returns with an empty queue, and [Commit] on [store_v2_pending] leaves
    its cache alone. *)
Lemma Commit_flushes_batch_witness :
  (exists ndb',
     nodeDB.Commit store_flush_on_save = (Ok tt, ndb')
     /\ Len (nodeDB.nodeCacheQueue ndb') <= 0
     /\ elems (nodeDB.nodeCacheQueue ndb') = [])
  /\ nodeDB.Commit store_v2_pending
     = (Ok tt, nodeDB_flushed store_v2_pending).
Proof.
  destruct Commit_flushes_batch as [_ H1].
  split.
  - destruct (H1 store_flush_on_save) as (_ & _ & _ & _ & _ & _ & Hlim).
    destruct Hlim as (ndb' & Hc & _ & Hlen & Hdrop).
    + change (0 <= 0). lia.
    + exists ndb'. split; [exact Hc|]. split; [exact Hlen|].
      destruct Hdrop as [-> _]; [|vm_compute; reflexivity].
      vm_compute. apply NoDup_singleton.
  - destruct (H1 store_v2_pending) as (_ & _ & _ & _ & _ & Hsame & _).
    apply Hsame. change (0 <= 10). lia.
Defined.

(** The witness of C6: the hash [7] is not cached in [store2_with_node];
    [GetNode] decodes the stored entry and returns the node, persisted. *)
Lemma GetNode_cache_then_store_witness :
  (@nodeDB2.GetNode sample_codec [7] store2_with_node).1
  = Ok (set_persisted true (set_hash (Some [7]) (sample_node [7])))
  /\ @nodeDB2.GetNode sample_codec [] store2_with_node
     = (Panic GetNodeRequiresHash, store2_with_node)
  /\ @nodeDB2.GetNode sample_codec [8] store2_with_node
     = (Panic (ValueMissing [8]), store2_with_node).
Proof.
  destruct (@GetNode_cache_then_store sample_codec [7]) as (_ & _ & _ & H2 & _).
  destruct (@GetNode_cache_then_store sample_codec []) as (_ & _ & _ & H0 & _).
  destruct (@GetNode_cache_then_store sample_codec [8]) as (_ & _ & _ & H8 & _).
  split_and!.
  - destruct (H2 store2_with_node) as (_ & _ & Hmiss).
    destruct Hmiss as (_ & _ & Hdec);
      [intros [=] | vm_compute; reflexivity|].
    destruct (Hdec [7] (sample_node [7])) as [-> _];
      [vm_compute; reflexivity | reflexivity | reflexivity].
  - destruct (H0 store2_with_node) as (Hempty & _). apply Hempty. reflexivity.
  - destruct (H8 store2_with_node) as (_ & _ & Hmiss).
    destruct Hmiss as (Hnone & _); [intros [=] | vm_compute; reflexivity|].
    apply Hnone. vm_compute. reflexivity.
Defined.

(** The witness of C8: a fresh two-lock store of limit 1 stays within the
    limit when two nodes are read into it. *)
Lemma cacheNode_respects_limit_witness :
  nodeDB2_cache_bounded
    (after (nodeDB2.cacheNode (sample_node [8]))
       (after (nodeDB2.cacheNode (sample_node [7]))
          (nodeDB2.NewNodeDB2 ∅ 1 None))).
Proof.
  destruct (@cacheNode_respects_limit sample_codec (sample_node [7]))
    as (H7 & Hnew & _).
  destruct (@cacheNode_respects_limit sample_codec (sample_node [8]))
    as (H8 & _ & _).
  destruct (Hnew ∅ 1 None) as [Hb0 _]; [lia|].
  destruct (H7 (nodeDB2.NewNodeDB2 ∅ 1 None)) as (_ & _ & _ & _ & Hb1).
  destruct (Hb1 Hb0) as [Hb1' _].
  destruct (H8 (after (nodeDB2.cacheNode (sample_node [7]))
                  (nodeDB2.NewNodeDB2 ∅ 1 None))) as (_ & _ & _ & _ & Hb2).
  destruct (Hb2 Hb1') as [Hb2' _]. exact Hb2'.
Defined.

(** * Further properties *)

(** ** Writing a batch *)

Lemma Write_app ops1 ops2 db :
  Write (ops1 ++ ops2) db = Write ops2 (Write ops1 db).
Proof. unfold Write. apply foldl_app. Qed.

Lemma Write_snoc ops op db :
  Write (ops ++ [op]) db = apply_op (Write ops db) op.
Proof. by rewrite Write_app. Qed.

(** A key the batch deletes and never sets has no entry afterwards. *)
Lemma Write_lookup_deleted ops db k :
  BDelete k ∈ ops -> Forall (fun op => forall v, op <> BSet k v) ops ->
  Write ops db !! k = None.
Proof.
  induction ops as [|op ops IH] using rev_ind; intros Hin Hall.
  - by apply elem_of_nil in Hin.
  - apply Forall_app in Hall as [Hall Hop]. rewrite Forall_singleton in Hop.
    rewrite Write_snoc. destruct op as [k' v'|k']; cbn.
    + assert (k' <> k) by (intros ->; by apply (Hop v')).
      rewrite lookup_insert_ne by done. apply IH; [|done].
      apply elem_of_app in Hin as [?|Hin]; [done|].
      by apply list_elem_of_singleton in Hin.
    + destruct (decide (k' = k)) as [->|Hne]; [by rewrite lookup_delete_eq|].
      rewrite lookup_delete_ne by done. apply IH; [|done].
      apply elem_of_app in Hin as [?|Hin]; [done|].
      apply list_elem_of_singleton in Hin. congruence.
Qed.

(** ** What the methods leave in the store *)

Lemma nodeDB2_saveRoot_Ok hash v (ndb : nodeDB2.t) :
  (nodeDB2.saveRoot hash v ndb).1 = Ok None ->
  nodeDB2.batch (after (nodeDB2.saveRoot hash v) ndb)
  = nodeDB2.batch ndb ++ [BSet (rootKey v) hash]
  /\ nodeDB2.db (after (nodeDB2.saveRoot hash v) ndb) = nodeDB2.db ndb.
Proof.
  pose proof (nodeDB2_getLatestVersion_eq ndb) as Hget. cbn zeta in Hget.
  destruct (nodeDB2_saveRoot_spec ndb _ _ hash v Hget) as [Hne Heq].
  unfold after. destruct (decide (v = add64
    (if nodeDB2.latestVersion ndb =? 0
     then nodeDB2.getPreviousVersion (2 ^ 63 - 1) ndb
     else nodeDB2.latestVersion ndb) 1)) as [E|E].
  - rewrite (Heq E). intros _. by destruct ndb.
  - rewrite (Hne E). intros [=].
Qed.

Lemma nodeDB_saveRoot_Ok hash v (ndb : nodeDB.t) :
  (nodeDB.saveRoot hash v ndb).1 = Ok None ->
  nodeDB.batch (after (nodeDB.saveRoot hash v) ndb)
  = nodeDB.batch ndb ++ [BSet (rootKey v) hash]
  /\ nodeDB.db (after (nodeDB.saveRoot hash v) ndb) = nodeDB.db ndb
  /\ nodeDB.dbMem (after (nodeDB.saveRoot hash v) ndb) = nodeDB.dbMem ndb
  /\ nodeDB.batchOwner (after (nodeDB.saveRoot hash v) ndb)
     = nodeDB.batchOwner ndb.
Proof.
  pose proof (nodeDB_getLatestVersion_eq ndb) as Hget. cbn zeta in Hget.
  destruct (nodeDB_saveRoot_spec ndb _ _ hash v Hget) as [Hne Heq].
  unfold after. destruct (decide (v = add64
    (if nodeDB.latestVersion ndb =? 0
     then nodeDB.getPreviousVersion (2 ^ 63 - 1) ndb
     else nodeDB.latestVersion ndb) 1)) as [E|E].
  - rewrite (Heq E). intros _. by destruct ndb.
  - rewrite (Hne E). intros [=].
Qed.

(** [nodeDB.Commit], whether its [FlushCache] returns or panics, leaves the
    stores, the batch and the counter as the flush of the batch left them. *)
Lemma nodeDB_Commit_store (ndb : nodeDB.t) :
  let ndb' := after nodeDB.Commit ndb in
  nodeDB.db ndb' = nodeDB.db (nodeDB_flushed ndb)
  /\ nodeDB.dbMem ndb' = nodeDB.dbMem (nodeDB_flushed ndb)
  /\ nodeDB.batch ndb' = []
  /\ nodeDB.batchOwner ndb' = nodeDB.OfDB
  /\ nodeDB.memNodes ndb' = nodeDB.memNodes ndb
  /\ nodeDB.latestVersion ndb' = nodeDB.latestVersion ndb.
Proof.
  cbn zeta. unfold after. rewrite nodeDB_Commit_eq, nodeDB_FlushCache_eq.
  destruct (nodeDB_FlushCache_loop_spec
              (S (length (elems (nodeDB.nodeCacheQueue (nodeDB_flushed ndb)))))
              (nodeDB_flushed ndb)) as (r & ndb' & -> & (_ & _ & ->) & _);
    [lia|].
  cbn [snd]. unfold nodeDB_flushed.
  destruct (nodeDB.batchOwner ndb), ndb; done.
Qed.

Lemma nodeDB_flushed_OfDB (ndb : nodeDB.t) :
  nodeDB.batchOwner ndb = nodeDB.OfDB ->
  nodeDB.db (nodeDB_flushed ndb) = Write (nodeDB.batch ndb) (nodeDB.db ndb)
  /\ nodeDB.dbMem (nodeDB_flushed ndb) = nodeDB.dbMem ndb.
Proof. intros Ho. unfold nodeDB_flushed. rewrite Ho. by destruct ndb. Qed.

Lemma nodeDB_flushed_OfDBMem (ndb : nodeDB.t) :
  nodeDB.batchOwner ndb = nodeDB.OfDBMem ->
  nodeDB.db (nodeDB_flushed ndb) = nodeDB.db ndb
  /\ nodeDB.dbMem (nodeDB_flushed ndb)
     = Write (nodeDB.batch ndb) <$> nodeDB.dbMem ndb.
Proof. intros Ho. unfold nodeDB_flushed. rewrite Ho. by destruct ndb. Qed.

(** X1.  A root that [saveRoot] accepted is what [getRoot] returns for its
    version once [Commit] has run, and not before: until then [getRoot]
    answers as it did before the save.  In [nodeDB] this is so for a batch
    of the backing store when the memory store holds no non-empty root for
    the version, whether or not the [FlushCache] of [Commit] panics. *)
Theorem saveRoot_Commit_getRoot (hash : bytes) (v : Z) :
  (forall ndb : nodeDB2.t,
     (nodeDB2.saveRoot hash v ndb).1 = Ok None ->
     nodeDB2.getRoot v (after (nodeDB2.saveRoot hash v) ndb)
     = nodeDB2.getRoot v ndb
     /\ nodeDB2.getRoot v
          (after nodeDB2.Commit (after (nodeDB2.saveRoot hash v) ndb))
        = Some hash)
  /\ (forall (ndb : nodeDB.t) (mem : DB),
        (nodeDB.saveRoot hash v ndb).1 = Ok None ->
        nodeDB.batchOwner ndb = nodeDB.OfDB ->
        nodeDB.dbMem ndb = Some mem ->
        default [] (mem !! rootKey v) = [] ->
        (nodeDB.getRoot v (after (nodeDB.saveRoot hash v) ndb)).1
        = Ok (nodeDB.db ndb !! rootKey v)
        /\ (nodeDB.getRoot v
              (after nodeDB.Commit (after (nodeDB.saveRoot hash v) ndb))).1
           = Ok (Some hash)).
Proof.
  split.
  - intros ndb Hok. destruct (nodeDB2_saveRoot_Ok hash v ndb Hok) as [Hb Hd].
    unfold nodeDB2.getRoot, Get. split; [by rewrite Hd|].
    unfold after at 1. cbn. rewrite Hb, Write_snoc. cbn.
    apply lookup_insert_eq.
  - intros ndb mem Hok Hown Hmem Hempty.
    destruct (nodeDB_saveRoot_Ok hash v ndb Hok) as (Hb & Hd & Hm & Ho).
    split.
    + unfold nodeDB.getRoot, bind, get, ret, Get. rewrite Hm, Hmem, Hempty, Hd.
      done.
    + destruct (nodeDB_Commit_store (after (nodeDB.saveRoot hash v) ndb))
        as (Hd' & Hm' & _).
      destruct (nodeDB_flushed_OfDB (after (nodeDB.saveRoot hash v) ndb))
        as [Hd'' Hm'']; [by rewrite Ho|].
      unfold nodeDB.getRoot, bind, get, ret, Get.
      rewrite Hm', Hm'', Hm, Hmem, Hempty, Hd', Hd'', Hb, Hd, Write_snoc.
      cbn. by rewrite lookup_insert_eq.
Qed.

(** The witness of X1: the first root saved to an empty store and
    committed. *)
Lemma saveRoot_Commit_getRoot_witness :
  nodeDB2.getRoot 1
    (after nodeDB2.Commit
       (after (nodeDB2.saveRoot [1] 1) (nodeDB2.NewNodeDB2 ∅ 10 None)))
  = Some [1].
Proof.
  destruct (saveRoot_Commit_getRoot [1] 1) as [H2 _].
  apply H2. vm_compute. reflexivity.
Defined.

(** ** Saving and reading a node *)

Lemma nodeDB2_SaveNode_eq `{NodeCodec} node flushToDisk (ndb : nodeDB2.t) :
  nodeDB2.SaveNode node flushToDisk ndb =
    match hash node with
    | None => (Panic ExpectedNodeHash, ndb)
    | Some h =>
        if persisted node then (Panic AlreadyPersisted, ndb) else
        match writeBytes node
                (bool_decide (nodeDB2.getLeafValueCb ndb = None)) with
        | None => (Panic WriteBytesError, ndb)
        | Some buf =>
            let node' := set_persisted true node in
            (Ok node',
             after (nodeDB2.cacheNode node')
               (nodeDB2.set_batch
                  (nodeDB2.batch ndb ++ [BSet (nodeKey h) buf]) ndb))
        end
    end.
Proof.
  unfold nodeDB2.SaveNode. destruct (hash node) as [h|] eqn:Hh.
  - rewrite bool_decide_eq_false_2 by done.
    destruct (persisted node); [done|].
    unfold nodeDB2.writeNode, bind at 1 2, get.
    destruct (writeBytes _ _) as [buf|]; [|done].
    unfold bind, nodeDB2.batch_Set, modify, ret, after. rewrite Hh.
    change (string_of (Some h)) with h.
    by rewrite nodeDB2_cacheNode_eq.
  - by rewrite bool_decide_eq_true_2.
Qed.

Lemma nodeDB_SaveNode_eq `{NodeCodec} node flushToDisk (ndb : nodeDB.t) :
  nodeDB.SaveNode node flushToDisk ndb =
    match hash node with
    | None => (Panic ExpectedNodeHash, ndb)
    | Some h =>
        if persistedMem node && negb flushToDisk then (Ok node, ndb) else
        if persisted node then (Panic AlreadyPersisted, ndb) else
        match writeBytes node
                (bool_decide (nodeDB.getLeafValueCb ndb = None)) with
        | None => (Panic WriteBytesError, ndb)
        | Some buf =>
            if flushToDisk then
              let node' := set_persisted true node in
              (Ok node',
               after (nodeDB.cacheNode node')
                 (nodeDB.set_batch
                    (nodeDB.batch ndb ++ [BSet (nodeKey h) buf]) ndb))
            else
              let node' := set_persistedMem true node in
              match nodeDB.memNodes ndb with
              | None => (Panic NilMapAssignment, ndb)
              | Some m =>
                  (Ok node',
                   after (nodeDB.cacheNode node')
                     (nodeDB.set_memNodes (Some (<[h := node']> m)) ndb))
              end
        end
    end.
Proof.
  unfold nodeDB.SaveNode. destruct (hash node) as [h|] eqn:Hh.
  - rewrite bool_decide_eq_false_2 by done.
    destruct (persistedMem node && negb flushToDisk); [done|].
    destruct (persisted node); [done|].
    unfold bind at 1, get.
    destruct (writeBytes _ _) as [buf|]; [|done].
    destruct flushToDisk.
    + unfold bind, nodeDB.batch_Set, modify, ret, after.
      change (string_of (Some h)) with h.
      by rewrite nodeDB_cacheNode_eq.
    + unfold nodeDB.memNodes_store.
      unfold bind, get, modify, ret, throw, after.
      cbn [hash set_persistedMem]. rewrite Hh.
      change (string_of (Some h)) with h.
      destruct (nodeDB.memNodes ndb) as [m|]; [|done].
      by rewrite nodeDB_cacheNode_eq.
  - by rewrite bool_decide_eq_true_2.
Qed.

(** An insert leaves the node in the cache map under its hash when the
    queue has room, or when the element it evicts holds a node of another
    hash. *)
Lemma nodeDB2_cacheNode_lookup node (ndb : nodeDB2.t) :
  Len (nodeDB2.nodeCacheQueue ndb) < nodeDB2.nodeCacheSize ndb
  \/ (exists front,
        Front (nodeDB2.nodeCacheQueue ndb) = Some front
        /\ string_of (hash (Value front)) <> string_of (hash node)) ->
  exists elem,
    nodeDB2.nodeCache (after (nodeDB2.cacheNode node) ndb)
      !! string_of (hash node) = Some elem
    /\ Value elem = node.
Proof.
  intros Hroom. unfold after. rewrite nodeDB2_cacheNode_eq. cbn [snd].
  exists (PushBack node (nodeDB2.nodeCacheQueue ndb)).1. split; [|done].
  destruct (Z.gtb_spec (Len (nodeDB2.nodeCacheQueue ndb) + 1)
              (nodeDB2.nodeCacheSize ndb)) as [Hgt|Hle].
  - destruct Hroom as [?|(front & HF & Hne)]; [lia|].
    unfold Front in HF. rewrite HF. cbn [default from_option id].
    destruct ndb; cbn in *.
    rewrite lookup_delete_ne by done. apply lookup_insert_eq.
  - destruct ndb; cbn. apply lookup_insert_eq.
Qed.

Lemma nodeDB_cacheNode_lookup node (ndb : nodeDB.t) :
  Len (nodeDB.nodeCacheQueue ndb) < nodeDB.nodeCacheSize ndb
  \/ nodeDB.nodeCacheOnlyFlushOnSave ndb = true
  \/ (exists front,
        Front (nodeDB.nodeCacheQueue ndb) = Some front
        /\ string_of (hash (Value front)) <> string_of (hash node)) ->
  exists elem,
    nodeDB.nodeCache (after (nodeDB.cacheNode node) ndb)
      !! string_of (hash node) = Some elem
    /\ Value elem = node.
Proof.
  intros Hroom. unfold after. rewrite nodeDB_cacheNode_eq. cbn [snd].
  exists (PushBack node (nodeDB.nodeCacheQueue ndb)).1. split; [|done].
  destruct (nodeDB.nodeCacheOnlyFlushOnSave ndb) eqn:Hfl; cbn [negb andb].
  { destruct ndb; cbn. apply lookup_insert_eq. }
  destruct (Z.gtb_spec (Len (nodeDB.nodeCacheQueue ndb) + 1)
              (nodeDB.nodeCacheSize ndb)) as [Hgt|Hle].
  - destruct Hroom as [?|[?|(front & HF & Hne)]]; [lia|done|].
    unfold Front in HF. rewrite HF. cbn [default from_option id].
    destruct ndb; cbn in *.
    rewrite lookup_delete_ne by done. apply lookup_insert_eq.
  - destruct ndb; cbn. apply lookup_insert_eq.
Qed.

(** [cacheNode] touches the cache map and the queue only. *)
Lemma nodeDB2_cacheNode_frame node (ndb : nodeDB2.t) :
  let ndb' := after (nodeDB2.cacheNode node) ndb in
  nodeDB2.db ndb' = nodeDB2.db ndb
  /\ nodeDB2.batch ndb' = nodeDB2.batch ndb
  /\ nodeDB2.latestVersion ndb' = nodeDB2.latestVersion ndb
  /\ nodeDB2.nodeCacheSize ndb' = nodeDB2.nodeCacheSize ndb
  /\ nodeDB2.getLeafValueCb ndb' = nodeDB2.getLeafValueCb ndb.
Proof.
  cbn zeta. unfold after. rewrite nodeDB2_cacheNode_eq. cbn [snd].
  destruct (_ >? _); by destruct ndb.
Qed.

Lemma nodeDB_cacheNode_frame node (ndb : nodeDB.t) :
  let ndb' := after (nodeDB.cacheNode node) ndb in
  nodeDB.db ndb' = nodeDB.db ndb
  /\ nodeDB.dbMem ndb' = nodeDB.dbMem ndb
  /\ nodeDB.batchOwner ndb' = nodeDB.batchOwner ndb
  /\ nodeDB.batch ndb' = nodeDB.batch ndb
  /\ nodeDB.memNodes ndb' = nodeDB.memNodes ndb
  /\ nodeDB.latestVersion ndb' = nodeDB.latestVersion ndb
  /\ nodeDB.nodeCacheSize ndb' = nodeDB.nodeCacheSize ndb
  /\ nodeDB.getLeafValueCb ndb' = nodeDB.getLeafValueCb ndb.
Proof.
  cbn zeta. unfold after. rewrite nodeDB_cacheNode_eq. cbn [snd].
  destruct (_ && _); by destruct ndb.
Qed.

Lemma nodeDB_flushed_stores (s s' : nodeDB.t) :
  nodeDB.batchOwner s = nodeDB.batchOwner s' ->
  nodeDB.batch s = nodeDB.batch s' ->
  nodeDB.db s = nodeDB.db s' ->
  nodeDB.dbMem s = nodeDB.dbMem s' ->
  nodeDB.db (nodeDB_flushed s) = nodeDB.db (nodeDB_flushed s')
  /\ nodeDB.dbMem (nodeDB_flushed s) = nodeDB.dbMem (nodeDB_flushed s').
Proof.
  unfold nodeDB_flushed. destruct s, s'; cbn. intros -> -> -> ->.
  by destruct batchOwner0.
Qed.

Lemma nodeDB2_SaveNode_Ok `{NodeCodec} node flushToDisk (ndb : nodeDB2.t)
    node' :
  (nodeDB2.SaveNode node flushToDisk ndb).1 = Ok node' ->
  exists h buf,
    hash node = Some h /\ persisted node = false
    /\ writeBytes node (bool_decide (nodeDB2.getLeafValueCb ndb = None))
       = Some buf
    /\ node' = set_persisted true node
    /\ after (nodeDB2.SaveNode node flushToDisk) ndb
       = after (nodeDB2.cacheNode node')
           (nodeDB2.set_batch
              (nodeDB2.batch ndb ++ [BSet (nodeKey h) buf]) ndb).
Proof.
  unfold after. rewrite nodeDB2_SaveNode_eq.
  destruct (hash node) as [h|]; [|by intros [=]].
  destruct (persisted node); [by intros [=]|].
  destruct (writeBytes _ _) as [buf|]; [|by intros [=]].
  cbn [fst snd]. intros [= <-]. by exists h, buf.
Qed.

Lemma nodeDB_SaveNode_Ok_disk `{NodeCodec} node (ndb : nodeDB.t) node' :
  (nodeDB.SaveNode node true ndb).1 = Ok node' ->
  exists h buf,
    hash node = Some h /\ persisted node = false
    /\ writeBytes node (bool_decide (nodeDB.getLeafValueCb ndb = None))
       = Some buf
    /\ node' = set_persisted true node
    /\ after (nodeDB.SaveNode node true) ndb
       = after (nodeDB.cacheNode node')
           (nodeDB.set_batch
              (nodeDB.batch ndb ++ [BSet (nodeKey h) buf]) ndb).
Proof.
  unfold after. rewrite nodeDB_SaveNode_eq.
  destruct (hash node) as [h|]; [|by intros [=]].
  rewrite andb_false_r.
  destruct (persisted node); [by intros [=]|].
  destruct (writeBytes _ _) as [buf|]; [|by intros [=]].
  cbn [fst snd]. intros [= <-]. by exists h, buf.
Qed.

Lemma nodeDB_SaveNode_Ok_mem `{NodeCodec} node (ndb : nodeDB.t) node' :
  (nodeDB.SaveNode node false ndb).1 = Ok node' ->
  persistedMem node = false ->
  exists h m,
    hash node = Some h /\ persisted node = false
    /\ nodeDB.memNodes ndb = Some m
    /\ node' = set_persistedMem true node
    /\ after (nodeDB.SaveNode node false) ndb
       = after (nodeDB.cacheNode node')
           (nodeDB.set_memNodes (Some (<[h := node']> m)) ndb).
Proof.
  unfold after. rewrite nodeDB_SaveNode_eq. intros Hok Hpm. revert Hok.
  destruct (hash node) as [h|]; [|by intros [=]].
  rewrite Hpm. cbn [andb].
  destruct (persisted node); [by intros [=]|].
  destruct (writeBytes _ _) as [buf|]; [|by intros [=]].
  destruct (nodeDB.memNodes ndb) as [m|]; [|by intros [=]].
  cbn [fst snd]. intros [= <-]. by exists h, m.
Qed.

(** What [nodeDB.SaveNode] leaves in the stores and the batch when the node
    stays in memory: nothing new. *)
Lemma nodeDB_SaveNode_mem_frame `{NodeCodec} node (ndb : nodeDB.t) :
  let saved := after (nodeDB.SaveNode node false) ndb in
  nodeDB.db saved = nodeDB.db ndb
  /\ nodeDB.dbMem saved = nodeDB.dbMem ndb
  /\ nodeDB.batchOwner saved = nodeDB.batchOwner ndb
  /\ nodeDB.batch saved = nodeDB.batch ndb.
Proof.
  cbn zeta. unfold after. rewrite nodeDB_SaveNode_eq.
  destruct (hash node) as [h|]; [|done].
  destruct (persistedMem node && negb false); [done|].
  destruct (persisted node); [done|].
  destruct (writeBytes _ _) as [buf|]; [|done].
  destruct (nodeDB.memNodes ndb) as [m|]; [|done].
  cbn [snd].
  destruct (nodeDB_cacheNode_frame (set_persistedMem true node)
              (nodeDB.set_memNodes
                 (Some (<[h:=set_persistedMem true node]> m)) ndb))
    as (Hd & Hm & Ho & Hb & _).
  unfold after in *. rewrite Hd, Hm, Ho, Hb. by destruct ndb.
Qed.

(** X2.  A node that [SaveNode] wrote to disk is in the backing store once
    [Commit] has run, under the node key of its hash and as the bytes
    [writeBytes] gave, so that [Has] answers true; until [Commit] the
    backing store is as it was.  In [nodeDB] this is so for a batch of the
    backing store.  A node that [nodeDB.SaveNode] keeps in memory
    ([flushToDisk = false]) is not made durable by [Commit]: the stores end
    as a [Commit] without the save leaves them. *)
Theorem SaveNode_Commit_Has `{NodeCodec} (node : Node) :
  (forall (ndb : nodeDB2.t) flushToDisk node',
     (nodeDB2.SaveNode node flushToDisk ndb).1 = Ok node' ->
     let h := string_of (hash node) in
     let saved := after (nodeDB2.SaveNode node flushToDisk) ndb in
     nodeDB2.db saved = nodeDB2.db ndb
     /\ nodeDB2.Has h (after nodeDB2.Commit saved) = true
     /\ nodeDB2.db (after nodeDB2.Commit saved) !! nodeKey h
        = writeBytes node (bool_decide (nodeDB2.getLeafValueCb ndb = None)))
  /\ (forall (ndb : nodeDB.t) node',
        (nodeDB.SaveNode node true ndb).1 = Ok node' ->
        nodeDB.batchOwner ndb = nodeDB.OfDB ->
        let h := string_of (hash node) in
        let saved := after (nodeDB.SaveNode node true) ndb in
        nodeDB.db saved = nodeDB.db ndb
        /\ nodeDB.Has h (after nodeDB.Commit saved) = true
        /\ nodeDB.db (after nodeDB.Commit saved) !! nodeKey h
           = writeBytes node (bool_decide (nodeDB.getLeafValueCb ndb = None)))
  /\ (forall ndb : nodeDB.t,
        let saved := after (nodeDB.SaveNode node false) ndb in
        nodeDB.db (after nodeDB.Commit saved)
        = nodeDB.db (after nodeDB.Commit ndb)
        /\ nodeDB.dbMem (after nodeDB.Commit saved)
           = nodeDB.dbMem (after nodeDB.Commit ndb)).
Proof.
  split_and!.
  - intros ndb f node' Hok h saved.
    destruct (nodeDB2_SaveNode_Ok _ _ _ _ Hok)
      as (h' & buf & Hh & _ & Hw & -> & Hs).
    subst h saved. rewrite Hs, Hh, Hw. cbn [string_of default from_option id].
    destruct (nodeDB2_cacheNode_frame (set_persisted true node)
                (nodeDB2.set_batch
                   (nodeDB2.batch ndb ++ [BSet (nodeKey h') buf]) ndb))
      as (Hd & Hb & _).
    assert (nodeDB2.db
              (after nodeDB2.Commit
                 (after (nodeDB2.cacheNode (set_persisted true node))
                    (nodeDB2.set_batch
                       (nodeDB2.batch ndb ++ [BSet (nodeKey h') buf]) ndb)))
            !! nodeKey h' = Some buf) as Hl.
    { unfold after at 1. cbn. rewrite Hd, Hb. destruct ndb; cbn.
      rewrite Write_snoc. cbn. apply lookup_insert_eq. }
    split; [rewrite Hd; by destruct ndb|].
    split; [|done].
    unfold nodeDB2.Has, Get. rewrite Hl. by apply bool_decide_eq_true_2.
  - intros ndb node' Hok Hown h saved.
    destruct (nodeDB_SaveNode_Ok_disk _ _ _ Hok)
      as (h' & buf & Hh & _ & Hw & -> & Hs).
    subst h saved. rewrite Hs, Hh, Hw. cbn [string_of default from_option id].
    set (s := nodeDB.set_batch
                (nodeDB.batch ndb ++ [BSet (nodeKey h') buf]) ndb).
    destruct (nodeDB_cacheNode_frame (set_persisted true node) s)
      as (Hd & Hm & Ho & Hb & _).
    destruct (nodeDB_Commit_store
                (after (nodeDB.cacheNode (set_persisted true node)) s))
      as (Hd' & _).
    destruct (nodeDB_flushed_OfDB
                (after (nodeDB.cacheNode (set_persisted true node)) s))
      as [Hd'' _]; [rewrite Ho; by destruct ndb|].
    assert (nodeDB.db
              (after nodeDB.Commit
                 (after (nodeDB.cacheNode (set_persisted true node)) s))
            !! nodeKey h' = Some buf) as Hl.
    { rewrite Hd', Hd'', Hd, Hb. subst s. destruct ndb; cbn.
      rewrite Write_snoc. cbn. apply lookup_insert_eq. }
    split; [rewrite Hd; by destruct ndb|].
    split; [|done].
    unfold nodeDB.Has, Get. rewrite Hl. by apply bool_decide_eq_true_2.
  - intros ndb saved.
    destruct (nodeDB_SaveNode_mem_frame node ndb) as (Hd & Hm & Ho & Hb).
    destruct (nodeDB_Commit_store saved) as (-> & -> & _).
    destruct (nodeDB_Commit_store ndb) as (-> & -> & _).
    by apply nodeDB_flushed_stores.
Qed.

(** The witness of X2: one node saved to an empty store and committed. *)
Lemma SaveNode_Commit_Has_witness :
  nodeDB2.Has [7]
    (after nodeDB2.Commit
       (after (@nodeDB2.SaveNode sample_codec
                 (set_hash (Some [7]) (sample_node [7])) true)
          (nodeDB2.NewNodeDB2 ∅ 0 None)))
  = true.
Proof.
  destruct (@SaveNode_Commit_Has sample_codec
              (set_hash (Some [7]) (sample_node [7]))) as [H2 _].
  destruct (H2 (nodeDB2.NewNodeDB2 ∅ 0 None) true
              (set_persisted true (set_hash (Some [7]) (sample_node [7]))))
    as (_ & Hhas & _); [vm_compute; reflexivity|].
  exact Hhas.
Defined.

Lemma set_hash_same (h : bytes) (node : Node) :
  hash node = Some h -> set_hash (Some h) node = node.
Proof. destruct node; cbn. by intros ->. Qed.

(** X3.  A node that [SaveNode] wrote to disk, with a non-empty hash, is
    what [GetNode] returns for that hash right away, before any [Commit],
    when the insert left it in the cache: the queue had room, or the element
    it evicted held a node of another hash (or, in [nodeDB], inserts do not
    evict).  The backing store does not have it yet: [Has] answers as
    before the save. *)
Theorem SaveNode_GetNode_cached `{NodeCodec} (node : Node) :
  (forall (ndb : nodeDB2.t) flushToDisk node',
     (nodeDB2.SaveNode node flushToDisk ndb).1 = Ok node' ->
     string_of (hash node) <> [] ->
     Len (nodeDB2.nodeCacheQueue ndb) < nodeDB2.nodeCacheSize ndb
     \/ (exists front,
           Front (nodeDB2.nodeCacheQueue ndb) = Some front
           /\ string_of (hash (Value front)) <> string_of (hash node)) ->
     let saved := after (nodeDB2.SaveNode node flushToDisk) ndb in
     (nodeDB2.GetNode (string_of (hash node)) saved).1 = Ok node'
     /\ persisted node' = true
     /\ nodeDB2.Has (string_of (hash node)) saved
        = nodeDB2.Has (string_of (hash node)) ndb)
  /\ (forall (ndb : nodeDB.t) node',
        (nodeDB.SaveNode node true ndb).1 = Ok node' ->
        string_of (hash node) <> [] ->
        Len (nodeDB.nodeCacheQueue ndb) < nodeDB.nodeCacheSize ndb
        \/ nodeDB.nodeCacheOnlyFlushOnSave ndb = true
        \/ (exists front,
              Front (nodeDB.nodeCacheQueue ndb) = Some front
              /\ string_of (hash (Value front)) <> string_of (hash node)) ->
        let saved := after (nodeDB.SaveNode node true) ndb in
        (nodeDB.GetNode (string_of (hash node)) saved).1 = Ok node'
        /\ persisted node' = true
        /\ nodeDB.Has (string_of (hash node)) saved
           = nodeDB.Has (string_of (hash node)) ndb).
Proof.
  split.
  - intros ndb f node' Hok Hne Hroom saved.
    destruct (nodeDB2_SaveNode_Ok _ _ _ _ Hok)
      as (h & buf & Hh & _ & Hw & -> & Hs).
    subst saved. rewrite Hs. clear Hs Hok.
    set (s := nodeDB2.set_batch
                (nodeDB2.batch ndb ++ [BSet (nodeKey h) buf]) ndb).
    destruct (nodeDB2_cacheNode_lookup (set_persisted true node) s)
      as (elem & Hl & Hv); [by destruct ndb|].
    destruct (nodeDB2_cacheNode_frame (set_persisted true node) s)
      as (Hd & _).
    change (hash (set_persisted true node)) with (hash node) in Hl.
    split; [|split; [done|]].
    + rewrite nodeDB2_GetNode_eq.
      destruct (string_of (hash node)); [done|]. by rewrite Hl, <- Hv.
    + unfold nodeDB2.Has. rewrite Hd. by destruct ndb.
  - intros ndb node' Hok Hne Hroom saved.
    destruct (nodeDB_SaveNode_Ok_disk _ _ _ Hok)
      as (h & buf & Hh & _ & Hw & -> & Hs).
    subst saved. rewrite Hs. clear Hs Hok.
    set (s := nodeDB.set_batch
                (nodeDB.batch ndb ++ [BSet (nodeKey h) buf]) ndb).
    destruct (nodeDB_cacheNode_lookup (set_persisted true node) s)
      as (elem & Hl & Hv); [by destruct ndb|].
    destruct (nodeDB_cacheNode_frame (set_persisted true node) s)
      as (Hd & _).
    change (hash (set_persisted true node)) with (hash node) in Hl.
    split; [|split; [done|]].
    + rewrite nodeDB_GetNode_eq.
      destruct (string_of (hash node)); [done|]. by rewrite Hl, <- Hv.
    + unfold nodeDB.Has. rewrite Hd. by destruct ndb.
Qed.

(** The witness of X3: a node saved to an empty store with room for ten. *)
Lemma SaveNode_GetNode_cached_witness :
  (@nodeDB2.GetNode sample_codec [7]
     (after (@nodeDB2.SaveNode sample_codec
               (set_hash (Some [7]) (sample_node [7])) true)
        (nodeDB2.NewNodeDB2 ∅ 10 None))).1
  = Ok (set_persisted true (set_hash (Some [7]) (sample_node [7]))).
Proof.
  destruct (@SaveNode_GetNode_cached sample_codec
              (set_hash (Some [7]) (sample_node [7]))) as [H2 _].
  destruct (H2 (nodeDB2.NewNodeDB2 ∅ 10 None) true
              (set_persisted true (set_hash (Some [7]) (sample_node [7]))))
    as (Hget & _).
  - vm_compute. reflexivity.
  - cbn. intros [=].
  - left. change (0 < 10). lia.
  - exact Hget.
Defined.

(** X4.  A node saved but not committed is readable through the cache (or,
    in [nodeDB], the memory-node map) only.  In [nodeDB2] with an empty
    queue and a limit of 0 or less the insert evicts the node it has just
    pushed, and [GetNode] of its hash panics with "Value missing" until
    [Commit] has written the batch; after [Commit] it returns what
    [MakeNode] decodes from the bytes [writeBytes] gave, with the hash set
    and marked persisted.  In [nodeDB] a node saved to memory
    ([flushToDisk = false], not yet marked [persistedMem]) is returned by
    [GetNode] whatever the state of the cache. *)
Theorem SaveNode_GetNode_uncommitted `{NodeCodec} (node : Node) :
  (forall (ndb : nodeDB2.t) flushToDisk node',
     (nodeDB2.SaveNode node flushToDisk ndb).1 = Ok node' ->
     string_of (hash node) <> [] ->
     elems (nodeDB2.nodeCacheQueue ndb) = [] ->
     nodeDB2.nodeCacheSize ndb <= 0 ->
     nodeDB2.db ndb !! nodeKey (string_of (hash node)) = None ->
     let saved := after (nodeDB2.SaveNode node flushToDisk) ndb in
     nodeDB2.GetNode (string_of (hash node)) saved
     = (Panic (ValueMissing (string_of (hash node))), saved)
     /\ forall buf decoded,
          writeBytes node (bool_decide (nodeDB2.getLeafValueCb ndb = None))
          = Some buf ->
          MakeNode buf (nodeDB2.getLeafValueCb ndb) = Some decoded ->
          (nodeDB2.GetNode (string_of (hash node))
             (after nodeDB2.Commit saved)).1
          = Ok (set_persisted true (set_hash (hash node) decoded)))
  /\ (forall (ndb : nodeDB.t) node',
        (nodeDB.SaveNode node false ndb).1 = Ok node' ->
        persistedMem node = false ->
        string_of (hash node) <> [] ->
        let saved := after (nodeDB.SaveNode node false) ndb in
        (nodeDB.GetNode (string_of (hash node)) saved).1 = Ok node'
        /\ persistedMem node' = true /\ persisted node' = false).
Proof.
  split.
  - intros ndb f node' Hok Hne Hq Hsz Hdb saved.
    destruct (nodeDB2_SaveNode_Ok _ _ _ _ Hok)
      as (h & buf & Hh & _ & Hw & -> & Hs).
    subst saved. rewrite Hs. clear Hs Hok.
    rewrite Hh in *. cbn [string_of default from_option id] in *.
    destruct h as [|x h]; [done|].
    assert ((Len (nodeDB2.nodeCacheQueue ndb) + 1
             >? nodeDB2.nodeCacheSize ndb) = true) as Hgt
      by (apply Z.gtb_lt; unfold Len; rewrite Hq; cbn; lia).
    split.
    + rewrite nodeDB2_GetNode_eq.
      unfold after. rewrite nodeDB2_cacheNode_eq. cbn [snd].
      destruct ndb as [d b l c cs q cb]; cbn in *.
      rewrite Hgt, Hq. unfold nodeDB2_evicted, nodeDB2_pushed. cbn.
      rewrite Hh. cbn [string_of default from_option id].
      by rewrite lookup_delete_eq, Hdb.
    + intros buf' decoded Hw' Hdec.
      assert (buf' = buf) as -> by congruence.
      rewrite nodeDB2_GetNode_eq.
      unfold after. rewrite nodeDB2_cacheNode_eq. cbn [snd].
      destruct ndb as [d b l c cs q cb]; cbn in *.
      rewrite Hgt, Hq. unfold nodeDB2_evicted, nodeDB2_pushed. cbn.
      rewrite Hh. cbn [string_of default from_option id].
      rewrite lookup_delete_eq, Write_snoc. cbn.
      by rewrite lookup_insert_eq, Hdec.
  - intros ndb node' Hok Hpm Hne saved.
    destruct (nodeDB_SaveNode_Ok_mem _ _ _ Hok Hpm)
      as (h & m & Hh & Hp & Hm & -> & Hs).
    subst saved. rewrite Hs. clear Hs Hok.
    rewrite Hh in *. cbn [string_of default from_option id] in *.
    split; [|by destruct node].
    set (node' := set_persistedMem true node).
    set (s := nodeDB.set_memNodes (Some (<[h := node']> m)) ndb).
    assert (hash node' = Some h) as Hh' by done.
    rewrite nodeDB_GetNode_eq. destruct h as [|x h]; [done|].
    assert (nodeDB.memNodes_lookup (x :: h)
              (after (nodeDB.cacheNode node') s) = Some node') as Hmem.
    { destruct (nodeDB_cacheNode_frame node' s) as (_ & _ & _ & _ & Hmn & _).
      unfold nodeDB.memNodes_lookup. rewrite Hmn. subst s.
      destruct ndb; cbn. apply lookup_insert_eq. }
    destruct (nodeDB.nodeCache (after (nodeDB.cacheNode node') s)
                !! (x :: h)) as [elem|] eqn:Hl.
    + cbn [fst]. f_equal. revert Hl. unfold after.
      rewrite nodeDB_cacheNode_eq. cbn [snd].
      unfold nodeDB_evicted, nodeDB_pushed. rewrite Hh'.
      cbn [string_of default from_option id].
      destruct (_ && _); subst s; destruct ndb; cbn.
      * intros [_ Hl]%lookup_delete_Some.
        rewrite lookup_insert_eq in Hl. by injection Hl as <-.
      * rewrite lookup_insert_eq. by intros [= <-].
    + rewrite Hmem. cbn [fst]. f_equal. by apply set_hash_same.
Qed.

(** The witness of X4: a node saved to a two-lock store with a cache limit
    of 0 cannot be read back before [Commit]. *)
Lemma SaveNode_GetNode_uncommitted_witness :
  (@nodeDB2.GetNode sample_codec [7]
     (after (@nodeDB2.SaveNode sample_codec
               (set_hash (Some [7]) (sample_node [7])) true)
        (nodeDB2.NewNodeDB2 ∅ 0 None))).1
  = Panic (ValueMissing [7]).
Proof.
  destruct (@SaveNode_GetNode_uncommitted sample_codec
              (set_hash (Some [7]) (sample_node [7]))) as [H2 _].
  destruct (H2 (nodeDB2.NewNodeDB2 ∅ 0 None) true
              (set_persisted true (set_hash (Some [7]) (sample_node [7]))))
    as [Hpanic _].
  - vm_compute. reflexivity.
  - cbn. intros [=].
  - reflexivity.
  - cbn. lia.
  - reflexivity.
  - exact (f_equal fst Hpanic).
Defined.

(** X5.  [SaveNode] and [GetNode] are all-or-nothing: when either panics,
    the store is exactly as before the call.  A node [SaveNode] has written
    to disk cannot be written again: a second [SaveNode(_, true)] of the
    node it returned panics with "already persisted" in any state.  A node
    [nodeDB.SaveNode] has saved to memory is marked [persistedMem], and
    saving it to memory again returns without doing anything. *)
Theorem SaveNode_all_or_nothing `{NodeCodec} (node : Node) (flushToDisk : bool) :
  (forall (ndb : nodeDB2.t) p,
     (nodeDB2.SaveNode node flushToDisk ndb).1 = Panic p ->
     after (nodeDB2.SaveNode node flushToDisk) ndb = ndb)
  /\ (forall (ndb : nodeDB2.t) h p,
        (nodeDB2.GetNode h ndb).1 = Panic p ->
        after (nodeDB2.GetNode h) ndb = ndb)
  /\ (forall (ndb ndb' : nodeDB2.t) node' f',
        (nodeDB2.SaveNode node flushToDisk ndb).1 = Ok node' ->
        nodeDB2.SaveNode node' f' ndb' = (Panic AlreadyPersisted, ndb'))
  /\ (forall (ndb : nodeDB.t) p,
        (nodeDB.SaveNode node flushToDisk ndb).1 = Panic p ->
        after (nodeDB.SaveNode node flushToDisk) ndb = ndb)
  /\ (forall (ndb : nodeDB.t) h p,
        (nodeDB.GetNode h ndb).1 = Panic p ->
        after (nodeDB.GetNode h) ndb = ndb)
  /\ (forall (ndb ndb' : nodeDB.t) node',
        (nodeDB.SaveNode node true ndb).1 = Ok node' ->
        nodeDB.SaveNode node' true ndb' = (Panic AlreadyPersisted, ndb'))
  /\ (forall (ndb ndb' : nodeDB.t) node',
        (nodeDB.SaveNode node false ndb).1 = Ok node' ->
        persistedMem node' = true
        /\ nodeDB.SaveNode node' false ndb' = (Ok node', ndb')).
Proof.
  split_and!.
  - intros ndb p. unfold after. rewrite nodeDB2_SaveNode_eq.
    destruct (hash node); [|done]. destruct (persisted node); [done|].
    by destruct (writeBytes _ _).
  - intros ndb h p. unfold after. rewrite nodeDB2_GetNode_eq.
    destruct h; [done|]. destruct (nodeDB2.nodeCache ndb !! _); [done|].
    destruct (nodeDB2.db ndb !! _); [|done].
    by destruct (MakeNode _ _).
  - intros ndb ndb' node' f' Hok.
    destruct (nodeDB2_SaveNode_Ok _ _ _ _ Hok) as (h & buf & Hh & _ & _ & -> & _).
    rewrite nodeDB2_SaveNode_eq. cbn [hash persisted set_persisted].
    by rewrite Hh.
  - intros ndb p. unfold after. rewrite nodeDB_SaveNode_eq.
    destruct (hash node); [|done]. destruct (_ && _); [done|].
    destruct (persisted node); [done|].
    destruct (writeBytes _ _); [|done]. destruct flushToDisk; [done|].
    by destruct (nodeDB.memNodes ndb).
  - intros ndb h p. unfold after. rewrite nodeDB_GetNode_eq.
    destruct h; [done|]. destruct (nodeDB.nodeCache ndb !! _); [done|].
    destruct (nodeDB.memNodes_lookup _ _); [done|].
    destruct (nodeDB.db ndb !! _); [|done].
    by destruct (MakeNode _ _).
  - intros ndb ndb' node' Hok.
    destruct (nodeDB_SaveNode_Ok_disk _ _ _ Hok)
      as (h & buf & Hh & _ & _ & -> & _).
    rewrite nodeDB_SaveNode_eq. cbn [hash persisted set_persisted].
    rewrite Hh, andb_false_r. done.
  - intros ndb ndb' node'. rewrite !nodeDB_SaveNode_eq.
    destruct (hash node) as [h|] eqn:Hh; [|by intros [=]].
    destruct (persistedMem node) eqn:Hpm; cbn [andb negb].
    + intros [= <-]. by rewrite Hh, Hpm.
    + destruct (persisted node); [by intros [=]|].
      destruct (writeBytes _ _); [|by intros [=]].
      destruct (nodeDB.memNodes ndb); [|by intros [=]].
      intros [= <-]. cbn [hash persistedMem set_persistedMem].
      by rewrite Hh.
Qed.

(** The witness of X5: saving a node that has no hash panics and leaves an
    empty store empty; saving twice panics the second time. *)
Lemma SaveNode_all_or_nothing_witness :
  after (@nodeDB2.SaveNode sample_codec (sample_node [7]) true)
    (nodeDB2.NewNodeDB2 ∅ 10 None)
  = nodeDB2.NewNodeDB2 ∅ 10 None.
Proof.
  destruct (@SaveNode_all_or_nothing sample_codec (sample_node [7]) true)
    as [H2 _].
  apply (H2 _ ExpectedNodeHash). reflexivity.
Defined.

(** ** Saving a branch *)

Lemma nodeDB2_appended_refl ndb : nodeDB2_appended ndb ndb.
Proof.
  split; [done|]. split; [done|]. exists []. by rewrite app_nil_r.
Qed.

Lemma nodeDB_appended_refl ndb : nodeDB_appended ndb ndb.
Proof. split_and!; try done. exists []. by rewrite app_nil_r. Qed.

Lemma nodeDB2_SaveNode_appended `{NodeCodec} s0 node flushToDisk :
  preserves (nodeDB2_appended s0) (nodeDB2.SaveNode node flushToDisk).
Proof.
  intros s (Hd & Hl & ops & Hb & Hops). rewrite nodeDB2_SaveNode_eq.
  destruct (hash node) as [h|]; [|by split_and!; eauto].
  destruct (persisted node); [by split_and!; eauto|].
  destruct (writeBytes _ _) as [buf|]; [|by split_and!; eauto].
  cbn [snd].
  destruct (nodeDB2_cacheNode_frame (set_persisted true node)
              (nodeDB2.set_batch (nodeDB2.batch s ++ [BSet (nodeKey h) buf]) s))
    as (Hd' & Hb' & Hl' & _).
  split; [rewrite Hd'; by destruct s|]. split; [rewrite Hl'; by destruct s|].
  exists (ops ++ [BSet (nodeKey h) buf]). rewrite Hb'. split.
  - destruct s; cbn in *. by rewrite Hb, <- (assoc_L (++)).
  - apply Forall_app. split; [done|]. apply Forall_singleton. by exists h, buf.
Qed.

Lemma nodeDB2_saveBranch_appended `{NodeCodec} s0 node :
  preserves (nodeDB2_appended s0) (nodeDB2.saveBranch node).
Proof.
  induction node as [node IHl IHr] using Node_ind_children.
  rewrite nodeDB2_saveBranch_unfold.
  destruct (persisted node); [apply preserves_ret|].
  apply preserves_bind.
  { destruct (leftNode node); [|apply preserves_ret].
    apply preserves_bind; [done|]. intros r. apply preserves_ret. }
  intros node1. apply preserves_bind.
  { destruct (rightNode node); [|apply preserves_ret].
    apply preserves_bind; [done|]. intros r. apply preserves_ret. }
  intros node2. apply preserves_bind; [apply nodeDB2_SaveNode_appended|].
  intros node3. apply preserves_ret.
Qed.

Lemma nodeDB_SaveNode_appended `{NodeCodec} s0 node flushToDisk :
  preserves (nodeDB_appended s0) (nodeDB.SaveNode node flushToDisk).
Proof.
  intros s (Hd & Hm & Ho & Hl & ops & Hb & Hops). rewrite nodeDB_SaveNode_eq.
  destruct (hash node) as [h|]; [|by split_and!; eauto].
  destruct (_ && _); [by split_and!; eauto|].
  destruct (persisted node); [by split_and!; eauto|].
  destruct (writeBytes _ _) as [buf|]; [|by split_and!; eauto].
  destruct flushToDisk.
  - cbn [snd].
    destruct (nodeDB_cacheNode_frame (set_persisted true node)
                (nodeDB.set_batch (nodeDB.batch s ++ [BSet (nodeKey h) buf]) s))
      as (Hd' & Hm' & Ho' & Hb' & _ & Hl' & _).
    split; [rewrite Hd'; by destruct s|]. split; [rewrite Hm'; by destruct s|].
    split; [rewrite Ho'; by destruct s|]. split; [rewrite Hl'; by destruct s|].
    exists (ops ++ [BSet (nodeKey h) buf]). rewrite Hb'. split.
    + destruct s; cbn in *. by rewrite Hb, <- (assoc_L (++)).
    + apply Forall_app. split; [done|]. apply Forall_singleton.
      by exists h, buf.
  - destruct (nodeDB.memNodes s) as [m|]; [|by split_and!; eauto].
    cbn [snd].
    destruct (nodeDB_cacheNode_frame (set_persistedMem true node)
                (nodeDB.set_memNodes
                   (Some (<[h:=set_persistedMem true node]> m)) s))
      as (Hd' & Hm' & Ho' & Hb' & _ & Hl' & _).
    split; [rewrite Hd'; by destruct s|]. split; [rewrite Hm'; by destruct s|].
    split; [rewrite Ho'; by destruct s|]. split; [rewrite Hl'; by destruct s|].
    exists ops. rewrite Hb'. split; [by destruct s|done].
Qed.

Lemma nodeDB_SaveBranch_appended `{NodeCodec} s0 node flushToDisk :
  preserves (nodeDB_appended s0) (nodeDB.SaveBranch node flushToDisk).
Proof.
  induction node as [node IHl IHr] using Node_ind_children.
  rewrite nodeDB_SaveBranch_unfold.
  destruct (persisted node); [apply preserves_ret|].
  destruct (_ && _); [apply preserves_ret|].
  apply preserves_bind.
  { destruct (leftNode node); [|apply preserves_ret].
    apply preserves_bind; [done|]. intros r. apply preserves_ret. }
  intros node1. apply preserves_bind.
  { destruct (rightNode node); [|apply preserves_ret].
    apply preserves_bind; [done|]. intros r. apply preserves_ret. }
  intros node2. apply preserves_bind; [apply nodeDB_SaveNode_appended|].
  intros node3. apply preserves_ret.
Qed.

(** Saving to memory leaves the batch alone. *)
Lemma nodeDB_SaveBranch_mem_batch `{NodeCodec} b node :
  preserves (fun s => nodeDB.batch s = b) (nodeDB.SaveBranch node false).
Proof.
  induction node as [node IHl IHr] using Node_ind_children.
  rewrite nodeDB_SaveBranch_unfold.
  destruct (persisted node); [apply preserves_ret|].
  destruct (_ && _); [apply preserves_ret|].
  apply preserves_bind.
  { destruct (leftNode node); [|apply preserves_ret].
    apply preserves_bind; [done|]. intros r. apply preserves_ret. }
  intros node1. apply preserves_bind.
  { destruct (rightNode node); [|apply preserves_ret].
    apply preserves_bind; [done|]. intros r. apply preserves_ret. }
  intros node2. apply preserves_bind; [|intros node3; apply preserves_ret].
  intros s Hs.
  destruct (nodeDB_SaveNode_mem_frame (Node_hash node2) s) as (_ & _ & _ & Hb).
  unfold after in Hb. by rewrite Hb.
Qed.

Lemma bind_Ok_inv {S A B} (m : M S A) (f : A -> M S B) s b s'' :
  bind m f s = (Ok b, s'') ->
  exists a s', m s = (Ok a, s') /\ f a s' = (Ok b, s'').
Proof.
  unfold bind. destruct (m s) as [[a|p] s']; [|by intros [=]].
  intros Hf. by exists a, s'.
Qed.

Lemma nodeDB2_saveBranch_result `{NodeCodec} node (ndb : nodeDB2.t) r ndb' :
  nodeDB2.saveBranch node ndb = (Ok r, ndb') ->
  persisted r.2 = true
  /\ r.1 = hash r.2
  /\ (persisted node = false ->
      r.1 <> None /\ leftNode r.2 = None /\ rightNode r.2 = None).
Proof.
  rewrite nodeDB2_saveBranch_unfold. destruct (persisted node) eqn:Hp.
  - by intros [= <- <-].
  - intros (node1 & s1 & _ & Hrun)%bind_Ok_inv.
    apply bind_Ok_inv in Hrun as (node2 & s2 & _ & Hrun).
    apply bind_Ok_inv in Hrun as (node3 & s3 & Hsave & Hret).
    injection Hret as <- <-.
    destruct (nodeDB2_SaveNode_Ok (Node_hash node2) true s2 node3)
      as (h & buf & Hh & _ & _ & -> & _); [by rewrite Hsave|].
    cbn. by rewrite Hh.
Qed.

Lemma nodeDB_SaveBranch_result `{NodeCodec} node flushToDisk (ndb : nodeDB.t)
    r ndb' :
  nodeDB.SaveBranch node flushToDisk ndb = (Ok r, ndb') ->
  r.1 = hash r.2
  /\ (persisted r.2 = true \/ (flushToDisk = false /\ persistedMem r.2 = true))
  /\ (flushToDisk = true -> persisted node = false ->
      r.1 <> None /\ leftNode r.2 = None /\ rightNode r.2 = None).
Proof.
  rewrite nodeDB_SaveBranch_unfold. destruct (persisted node) eqn:Hp.
  { intros [= <- <-]. cbn. split; [done|]. split; [by left|].
    intros _ Hp'. congruence. }
  destruct (persistedMem node && negb flushToDisk) eqn:Hpm.
  { intros [= <- <-]. cbn. apply andb_true_iff in Hpm as [Hpm Hf].
    destruct flushToDisk; [done|]. split; [done|]. split; [by right|done]. }
  intros (node1 & s1 & _ & Hrun)%bind_Ok_inv.
  apply bind_Ok_inv in Hrun as (node2 & s2 & _ & Hrun).
  apply bind_Ok_inv in Hrun as (node3 & s3 & Hsave & Hret).
  injection Hret as <- <-. revert Hsave. rewrite nodeDB_SaveNode_eq.
  destruct (hash (Node_hash node2)) as [h|] eqn:Hh; [|by intros [=]].
  destruct flushToDisk.
  - rewrite andb_false_r.
    destruct (persisted (Node_hash node2)); [by intros [=]|].
    destruct (writeBytes _ _); [|by intros [=]].
    intros [= <- _]. cbn. rewrite Hh. split; [done|]. split; [by left|done].
  - rewrite andb_true_r.
    destruct (persistedMem (Node_hash node2)) eqn:Hpm2.
    { intros [= <- _]. cbn. split; [by rewrite Hh|]. split; [by right|done]. }
    destruct (persisted (Node_hash node2)); [by intros [=]|].
    destruct (writeBytes _ _); [|by intros [=]].
    destruct (nodeDB.memNodes s2); [|by intros [=]].
    intros [= <- _]. cbn. split; [by rewrite Hh|]. split; [by right|done].
Qed.

(** X6.  [SaveBranch] never touches the backing store or the version
    counter, and all it adds to the batch are writes of node entries,
    whether it returns or panics.  On a node already persisted (or, in
    [nodeDB] when saving to memory, already saved to memory) it returns the
    node's hash and changes nothing.  When it returns, the hash returned is
    the hash of the node as the call leaves it, and that node is marked
    persisted (saved to memory at least, when [nodeDB] saves to memory); a
    node that was not persisted and is saved to disk ends with a non-nil
    hash and both child pointers cleared.  [nodeDB.SaveBranch] to memory
    leaves the batch as it was. *)
Theorem SaveBranch_postcondition `{NodeCodec} (node : Node) (flushToDisk : bool) :
  (forall ndb : nodeDB2.t,
     nodeDB2_appended ndb (after (nodeDB2.SaveBranch node flushToDisk) ndb)
     /\ (persisted node = true ->
         nodeDB2.SaveBranch node flushToDisk ndb = (Ok (hash node, node), ndb))
     /\ (forall r ndb',
           nodeDB2.SaveBranch node flushToDisk ndb = (Ok r, ndb') ->
           persisted r.2 = true
           /\ r.1 = hash r.2
           /\ (persisted node = false ->
               r.1 <> None /\ leftNode r.2 = None /\ rightNode r.2 = None)))
  /\ (forall ndb : nodeDB.t,
        nodeDB_appended ndb (after (nodeDB.SaveBranch node flushToDisk) ndb)
        /\ (flushToDisk = false ->
            nodeDB.batch (after (nodeDB.SaveBranch node flushToDisk) ndb)
            = nodeDB.batch ndb)
        /\ (persisted node = true
            \/ (persistedMem node = true /\ flushToDisk = false) ->
            nodeDB.SaveBranch node flushToDisk ndb
            = (Ok (hash node, node), ndb))
        /\ (forall r ndb',
              nodeDB.SaveBranch node flushToDisk ndb = (Ok r, ndb') ->
              r.1 = hash r.2
              /\ (persisted r.2 = true
                  \/ (flushToDisk = false /\ persistedMem r.2 = true))
              /\ (flushToDisk = true -> persisted node = false ->
                  r.1 <> None
                  /\ leftNode r.2 = None /\ rightNode r.2 = None))).
Proof.
  split; intros ndb.
  - split; [apply nodeDB2_saveBranch_appended, nodeDB2_appended_refl|].
    split; [|intros r ndb'; apply nodeDB2_saveBranch_result].
    intros Hp. unfold nodeDB2.SaveBranch.
    rewrite nodeDB2_saveBranch_unfold. by rewrite Hp.
  - split; [apply nodeDB_SaveBranch_appended, nodeDB_appended_refl|].
    split.
    { intros ->. by apply (nodeDB_SaveBranch_mem_batch (nodeDB.batch ndb)). }
    split; [|intros r ndb'; apply nodeDB_SaveBranch_result].
    rewrite nodeDB_SaveBranch_unfold.
    intros [Hp|[Hpm ->]]; [by rewrite Hp|].
    rewrite Hpm. by destruct (persisted node).
Qed.

(** The witness of X6: saving a parent with one unsaved child to an empty
    store buffers two node entries, the child's first, and returns the
    parent persisted and without children. *)
Lemma SaveBranch_postcondition_witness :
  let child := sample_node [8] in
  let parent :=
    set_leftNode (Some child) (sample_node [7]) in
  let ndb := nodeDB2.NewNodeDB2 ∅ 10 None in
  (exists r ndb',
     @nodeDB2.SaveBranch sample_codec parent true ndb = (Ok r, ndb')
     /\ persisted r.2 = true /\ leftNode r.2 = None)
  /\ nodeDB2.batch (after (@nodeDB2.SaveBranch sample_codec parent true) ndb)
     = [BSet (nodeKey [8]) [8]; BSet (nodeKey [7]) [7]].
Proof.
  intros child parent ndb. split; [|vm_compute; reflexivity].
  destruct (@SaveBranch_postcondition sample_codec parent true) as [H2 _].
  destruct (H2 ndb) as (_ & _ & Hres).
  destruct (@nodeDB2.SaveBranch sample_codec parent true ndb) as [r ndb']
    eqn:Hrun.
  assert (exists r0, r = Ok r0) as [r0 ->]
    by (assert (r = (@nodeDB2.SaveBranch sample_codec parent true ndb).1)
          as -> by (by rewrite Hrun); vm_compute; eauto).
  exists r0, ndb'. split; [done|].
  destruct (Hres r0 ndb' eq_refl) as (Hp & _ & Hc). split; [done|].
  by apply Hc.
Defined.

(** ** Pruning, end to end *)

Lemma elem_of_concat_fmap {A B} (f : A -> list B) (l : list A) x y :
  x ∈ l -> y ∈ f x -> y ∈ concat (f <$> l).
Proof.
  intros Hx Hy. induction l as [|a l IH]; [by apply elem_of_nil in Hx|].
  cbn. apply elem_of_app. apply elem_of_cons in Hx as [->|Hx]; auto.
Qed.

Lemma Forall_concat_fmap {A B} (P : B -> Prop) (f : A -> list B)
    (l : list A) :
  (forall x, x ∈ l -> Forall P (f x)) -> Forall P (concat (f <$> l)).
Proof.
  induction l as [|a l IH]; intros Hall; cbn; [done|].
  apply Forall_app. split.
  - apply Hall, list_elem_of_here.
  - apply IH. intros x Hx. by apply Hall, list_elem_of_further.
Qed.

Lemma orphanKey_prefix fromVersion toVersion hash :
  HasPrefix (orphanKey fromVersion toVersion hash)
    (Key orphanKeyFormat [Int64 toVersion]) = true.
Proof.
  apply HasPrefix_spec. rewrite orphanKey_unfold, orphanPrefix_unfold.
  by eexists.
Qed.

Lemma orphanKey_not_nodeKey fromVersion toVersion hash hash' :
  orphanKey fromVersion toVersion hash <> nodeKey hash'.
Proof. rewrite orphanKey_unfold, nodeKey_unfold. intros [=]. Qed.

(** The operations pruning buffers never write a key that no replacement
    orphan entry has. *)
Lemma prune_ops_no_set K predecessor entries :
  (forall f h, orphanKey f predecessor h <> K) ->
  Forall (fun op => forall val, op <> BSet K val)
    (concat (prune_ops predecessor <$> entries)).
Proof.
  intros HK. apply Forall_concat_fmap. intros [key hash] _.
  unfold prune_ops. cbn [fst snd]. apply Forall_cons. split; [done|].
  destruct (orphan_expired predecessor key); apply Forall_singleton;
    [done|].
  intros val [= Hk _]. by apply (HK _ _ Hk).
Qed.

Lemma prune_cache_deleted predecessor entries cache key hash :
  (key, hash) ∈ entries -> orphan_expired predecessor key = true ->
  foldl (prune_cache predecessor) cache entries !! hash = None.
Proof.
  assert (forall es c, c !! hash = None ->
            foldl (prune_cache predecessor) c es !! hash = None) as Hkeep.
  { induction es as [|e es IH]; intros c Hc; cbn; [done|].
    apply IH. unfold prune_cache. destruct (orphan_expired _ _); [|done].
    destruct (decide (e.2 = hash)) as [->|?];
      [apply lookup_delete_eq | by rewrite lookup_delete_ne]. }
  intros Hin He. revert cache.
  induction entries as [|e es IH]; intros cache;
    [by apply elem_of_nil in Hin|].
  cbn. apply elem_of_cons in Hin as [<-|Hin]; [|by apply IH].
  apply Hkeep. unfold prune_cache. cbn [fst snd]. rewrite He.
  apply lookup_delete_eq.
Qed.

(** What [DeleteVersion(version, false)] leaves: the batch with the pruning
    operations and the deletion of the root entry appended, the cache
    without the nodes deleted, the backing store untouched. *)
Lemma nodeDB2_DeleteVersion_unchecked version (ndb : nodeDB2.t) :
  let predecessor := nodeDB2.getPreviousVersion version ndb in
  let entries :=
    IteratePrefix (nodeDB2.db ndb) (Key orphanKeyFormat [Int64 version]) in
  exists ndb',
    nodeDB2.DeleteVersion version false ndb = (Ok tt, ndb')
    /\ nodeDB2.batch ndb'
       = nodeDB2.batch ndb
           ++ (concat (prune_ops predecessor <$> entries)
                 ++ [BDelete (rootKey version)])
    /\ nodeDB2.nodeCache ndb'
       = foldl (prune_cache predecessor) (nodeDB2.nodeCache ndb) entries
    /\ nodeDB2.db ndb' = nodeDB2.db ndb.
Proof.
  intros predecessor entries.
  destruct (nodeDB2_prune_all predecessor entries ndb)
    as (ndb1 & Hrun & Hb & Hc & _ & Hd & _).
  eexists. split.
  { unfold nodeDB2.DeleteVersion, bind. rewrite nodeDB2_deleteOrphans_eq.
    fold predecessor entries. rewrite Hrun.
    apply nodeDB2_deleteRoot_unchecked. }
  destruct ndb1; cbn in *. rewrite Hb, Hc, Hd.
  by rewrite <- (assoc_L (++)).
Qed.

Lemma nodeDB_prune_all_mem predecessor entries (ndb : nodeDB.t) :
  let s := after (forM_ entries
                    (fun '(k, v) => nodeDB.deleteOrphans_fn predecessor k v))
             ndb in
  nodeDB.dbMem s = nodeDB.dbMem ndb
  /\ nodeDB.batchOwner s = nodeDB.batchOwner ndb.
Proof.
  cbn zeta. unfold after. revert ndb.
  induction entries as [|[k v] entries IH]; intros ndb; [done|].
  cbn [forM_]. unfold bind. rewrite nodeDB_deleteOrphans_fn_spec.
  cbn zeta.
  match goal with |- context [forM_ entries _ ?s] => specialize (IH s) end.
  destruct (forM_ entries _ _) as [[[]|p] s']; cbn [snd] in *;
    destruct IH as [-> ->];
    destruct (orphan_expired predecessor k), ndb; done.
Qed.

Lemma nodeDB_DeleteVersion_unchecked version (ndb : nodeDB.t) :
  let predecessor := nodeDB.getPreviousVersion version ndb in
  let entries :=
    IteratePrefix (nodeDB.db ndb) (Key orphanKeyFormat [Int64 version]) in
  exists ndb',
    nodeDB.DeleteVersion version false ndb = (Ok tt, ndb')
    /\ nodeDB.batch ndb'
       = nodeDB.batch ndb
           ++ (concat (prune_ops predecessor <$> entries)
                 ++ [BDelete (rootKey version)])
    /\ nodeDB.nodeCache ndb'
       = foldl (prune_cache predecessor) (nodeDB.nodeCache ndb) entries
    /\ nodeDB.db ndb' = nodeDB.db ndb
    /\ nodeDB.dbMem ndb' = nodeDB.dbMem ndb
    /\ nodeDB.batchOwner ndb' = nodeDB.batchOwner ndb.
Proof.
  intros predecessor entries.
  destruct (nodeDB_prune_all predecessor entries ndb)
    as (ndb1 & Hrun & Hb & Hc & _ & Hd & _).
  destruct (nodeDB_prune_all_mem predecessor entries ndb) as [Hm Ho].
  unfold after in Hm, Ho. rewrite Hrun in Hm, Ho. cbn [snd] in Hm, Ho.
  eexists. split.
  { unfold nodeDB.DeleteVersion, bind. rewrite nodeDB_deleteOrphans_eq.
    fold predecessor entries. rewrite Hrun.
    apply nodeDB_deleteRoot_unchecked. }
  destruct ndb1; cbn in *. rewrite Hb, Hc, Hd, Hm, Ho.
  by rewrite <- (assoc_L (++)).
Qed.

(** A key the batch sets, and afterwards neither deletes nor sets to
    another value, holds that value. *)
Lemma Write_lookup_set ops db k v :
  BSet k v ∈ ops ->
  Forall (fun op => op <> BDelete k /\ forall v', op = BSet k v' -> v' = v)
    ops ->
  Write ops db !! k = Some v.
Proof.
  induction ops as [|op ops IH] using rev_ind; intros Hin Hall.
  - by apply elem_of_nil in Hin.
  - apply Forall_app in Hall as [Hall Hop]. rewrite Forall_singleton in Hop.
    destruct Hop as [Hnd Hset].
    rewrite Write_snoc. destruct op as [k' v'|k']; cbn.
    + destruct (decide (k' = k)) as [->|Hne].
      * rewrite (Hset v') by done. apply lookup_insert_eq.
      * rewrite lookup_insert_ne by done. apply IH; [|done].
        apply elem_of_app in Hin as [?|Hin]; [done|].
        apply list_elem_of_singleton in Hin. congruence.
    + assert (k' <> k) by congruence.
      rewrite lookup_delete_ne by done. apply IH; [|done].
      apply elem_of_app in Hin as [?|Hin]; [done|].
      by apply list_elem_of_singleton in Hin.
Qed.

Lemma orphanKey_inj_hash f t h f' t' h' :
  orphanKey f t h = orphanKey f' t' h' -> h = h'.
Proof.
  rewrite !orphanKey_unfold. intros Heq0.
  assert (be_bytes int64Size (uint64 t)
            ++ be_bytes int64Size (uint64 f) ++ h
          = be_bytes int64Size (uint64 t')
              ++ be_bytes int64Size (uint64 f') ++ h') as Heq
    by congruence.
  apply app_inj_1 in Heq as [_ Heq]; [|by rewrite !length_be_bytes].
  apply app_inj_1 in Heq as [_ Heq]; [done|by rewrite !length_be_bytes].
Qed.

Lemma orphanKey_not_rootKey fromVersion toVersion hash version :
  orphanKey fromVersion toVersion hash <> rootKey version.
Proof. rewrite orphanKey_unfold, rootKey_unfold. intros [=]. Qed.

(** An orphan key that ends its lifetime at [p] does not start with the
    prefix of another version. *)
Lemma orphanKey_other_prefix f p h version :
  is_int64 p -> is_int64 version -> p <> version ->
  HasPrefix (orphanKey f p h) (Key orphanKeyFormat [Int64 version]) = false.
Proof.
  intros Hp Hv Hne.
  destruct (HasPrefix _ _) eqn:Hpre; [|done]. exfalso. apply Hne.
  rewrite <- (ScanInt64_orphan_to _ _ Hv Hpre).
  symmetry. apply ScanInt64_orphan_to; [done|]. apply orphanKey_prefix.
Qed.

(** What the backing store holds once the operations of a pruning have been
    written to it. *)
Lemma prune_Write db version predecessor entries :
  is_int64 version -> is_int64 predecessor -> predecessor <> version ->
  (forall key hash, (key, hash) ∈ entries ->
     HasPrefix key (Key orphanKeyFormat [Int64 version]) = true) ->
  let db' :=
    Write (concat (prune_ops predecessor <$> entries)
             ++ [BDelete (rootKey version)]) db in
  db' !! rootKey version = None
  /\ forall key hash, (key, hash) ∈ entries ->
       db' !! key = None
       /\ (orphan_expired predecessor key = true ->
           db' !! nodeKey hash = None)
       /\ (orphan_expired predecessor key = false ->
           db' !! orphanKey (orphan_first key) predecessor hash
           = Some hash).
Proof.
  intros Hv Hp Hne Hpre db'. subst db'. split.
  { rewrite Write_snoc. cbn. apply lookup_delete_eq. }
  intros key hash Hin. pose proof (Hpre _ _ Hin) as Hk.
  assert (forall f h, orphanKey f predecessor h <> key) as Hfresh.
  { intros f h <-. by rewrite orphanKey_other_prefix in Hk. }
  split_and!.
  - apply Write_lookup_deleted.
    + apply elem_of_app. left.
      apply (elem_of_concat_fmap _ _ (key, hash)); [done|].
      apply list_elem_of_here.
    + apply Forall_app. split; [by apply prune_ops_no_set|].
      by apply Forall_singleton.
  - intros He. apply Write_lookup_deleted.
    + apply elem_of_app. left.
      apply (elem_of_concat_fmap _ _ (key, hash)); [done|].
      unfold prune_ops. cbn [fst snd]. rewrite He.
      apply list_elem_of_further, list_elem_of_here.
    + apply Forall_app. split; [|by apply Forall_singleton].
      apply prune_ops_no_set. intros f h. apply orphanKey_not_nodeKey.
  - intros He. apply Write_lookup_set.
    + apply elem_of_app. left.
      apply (elem_of_concat_fmap _ _ (key, hash)); [done|].
      unfold prune_ops. cbn [fst snd]. rewrite He.
      apply list_elem_of_further, list_elem_of_here.
    + apply Forall_app. split.
      * apply Forall_concat_fmap. intros [key' hash'] Hin'.
        pose proof (Hpre _ _ Hin') as Hk'.
        unfold prune_ops. cbn [fst snd]. apply Forall_cons. split.
        { split; [|done]. intros [= ->].
          by rewrite orphanKey_other_prefix in Hk'. }
        destruct (orphan_expired predecessor key'); apply Forall_singleton.
        { split; [|done]. intros Heq.
          by apply (orphanKey_not_nodeKey (orphan_first key) predecessor
                      hash hash'); congruence. }
        split; [done|]. intros v' Heq.
        assert (orphanKey (orphan_first key') predecessor hash'
                = orphanKey (orphan_first key) predecessor hash
                /\ hash' = v') as [Hk2 <-] by (split; congruence).
        by apply orphanKey_inj_hash in Hk2.
      * apply Forall_singleton. split; [|done]. intros Heq.
        by apply (orphanKey_not_rootKey (orphan_first key) predecessor
                    hash version); congruence.
Qed.

(** X7.  Pruning takes effect at [Commit].  After [DeleteVersion(version,
    false)] and [Commit] the root entry of the version is gone.  For a
    version from 1 up, on a store with well-formed root keys, every orphan
    entry that expired at the version is gone too; if [predecessor < first]
    or [first == last] the node entry of its hash is gone with it, so that
    [Has] answers false and, in [nodeDB2], the node is out of the cache and
    [GetNode] of its hash panics with "Value missing"; otherwise the store
    holds the replacement orphan entry ending at the predecessor.  In
    [nodeDB] this is so for a batch of the backing store. *)
Theorem DeleteVersion_Commit_prunes `{NodeCodec} (version : Z) :
  (forall ndb : nodeDB2.t,
     let predecessor := nodeDB2.getPreviousVersion version ndb in
     let ndb' :=
       after nodeDB2.Commit
         (after (nodeDB2.DeleteVersion version false) ndb) in
     nodeDB2.getRoot version ndb' = None
     /\ (1 <= version <= maxInt64 -> wf_roots (nodeDB2.db ndb) ->
         forall key hash,
           nodeDB2.db ndb !! key = Some hash ->
           HasPrefix key (Key orphanKeyFormat [Int64 version]) = true ->
           nodeDB2.db ndb' !! key = None
           /\ (orphan_expired predecessor key = true ->
               nodeDB2.Has hash ndb' = false
               /\ nodeDB2.nodeCache ndb' !! hash = None
               /\ (hash <> [] ->
                   nodeDB2.GetNode hash ndb'
                   = (Panic (ValueMissing hash), ndb')))
           /\ (orphan_expired predecessor key = false ->
               nodeDB2.db ndb'
                 !! orphanKey (orphan_first key) predecessor hash
               = Some hash)))
  /\ (forall ndb : nodeDB.t,
        nodeDB.batchOwner ndb = nodeDB.OfDB ->
        let predecessor := nodeDB.getPreviousVersion version ndb in
        let ndb' :=
          after nodeDB.Commit
            (after (nodeDB.DeleteVersion version false) ndb) in
        nodeDB.db ndb' !! rootKey version = None
        /\ (1 <= version <= maxInt64 -> wf_roots (nodeDB.db ndb) ->
            forall key hash,
              nodeDB.db ndb !! key = Some hash ->
              HasPrefix key (Key orphanKeyFormat [Int64 version]) = true ->
              nodeDB.db ndb' !! key = None
              /\ (orphan_expired predecessor key = true ->
                  nodeDB.Has hash ndb' = false)
              /\ (orphan_expired predecessor key = false ->
                  nodeDB.db ndb'
                    !! orphanKey (orphan_first key) predecessor hash
                  = Some hash))).
Proof.
  split.
  - intros ndb predecessor ndb'.
    destruct (nodeDB2_DeleteVersion_unchecked version ndb)
      as (ndb1 & Hrun & Hb & Hc & Hd).
    fold predecessor in Hb, Hc.
    assert (after (nodeDB2.DeleteVersion version false) ndb = ndb1) as Hafter
      by (unfold after; by rewrite Hrun).
    assert (nodeDB2.db ndb'
            = Write (concat (prune_ops predecessor
                               <$> IteratePrefix (nodeDB2.db ndb)
                                     (Key orphanKeyFormat [Int64 version]))
                       ++ [BDelete (rootKey version)])
                (Write (nodeDB2.batch ndb) (nodeDB2.db ndb))) as Hdb.
    { subst ndb'. rewrite Hafter. unfold after. cbn.
      by rewrite Hb, Hd, Write_app. }
    assert (nodeDB2.nodeCache ndb'
            = foldl (prune_cache predecessor) (nodeDB2.nodeCache ndb)
                (IteratePrefix (nodeDB2.db ndb)
                   (Key orphanKeyFormat [Int64 version]))) as Hcache.
    { subst ndb'. rewrite Hafter. unfold after. cbn. by rewrite Hc. }
    split.
    { unfold nodeDB2.getRoot, Get. rewrite Hdb, Write_snoc. cbn.
      apply lookup_delete_eq. }
    intros Hv Hwf key hash Hkey Hpre.
    destruct (getPreviousVersioni_spec version (nodeDB2.db ndb) Hv Hwf)
      as (Hp & _).
    change (nodeDB.getPreviousVersioni version (nodeDB2.db ndb))
      with predecessor in Hp.
    assert (is_int64 version /\ is_int64 predecessor) as [Hiv Hip]
      by (unfold is_int64, minInt64, maxInt64 in *; rewrite pow2_63 in *; lia).
    destruct (prune_Write (Write (nodeDB2.batch ndb) (nodeDB2.db ndb))
                version predecessor
                (IteratePrefix (nodeDB2.db ndb)
                   (Key orphanKeyFormat [Int64 version])))
      as [_ Hent]; [done | done | lia | |].
    { by intros k h [_ ?]%elem_of_IteratePrefix. }
    destruct (Hent key hash) as (Hgone & Hnode & Hrepl);
      [by apply elem_of_IteratePrefix|].
    rewrite <- Hdb in Hgone, Hnode, Hrepl.
    split; [done|]. split; [|done].
    intros He. specialize (Hnode He).
    assert (nodeDB2.nodeCache ndb' !! hash = None) as Hnc.
    { rewrite Hcache. apply (prune_cache_deleted _ _ _ key); [|done].
      by apply elem_of_IteratePrefix. }
    split; [|split; [done|]].
    + unfold nodeDB2.Has, Get. rewrite Hnode.
      apply bool_decide_eq_false_2. by intros [? ?].
    + intros Hne. rewrite nodeDB2_GetNode_eq.
      destruct hash; [done|]. by rewrite Hnc, Hnode.
  - intros ndb Hown predecessor ndb'.
    destruct (nodeDB_DeleteVersion_unchecked version ndb)
      as (ndb1 & Hrun & Hb & Hc & Hd & Hm & Ho).
    fold predecessor in Hb, Hc.
    assert (after (nodeDB.DeleteVersion version false) ndb = ndb1) as Hafter
      by (unfold after; by rewrite Hrun).
    assert (nodeDB.db ndb'
            = Write (concat (prune_ops predecessor
                               <$> IteratePrefix (nodeDB.db ndb)
                                     (Key orphanKeyFormat [Int64 version]))
                       ++ [BDelete (rootKey version)])
                (Write (nodeDB.batch ndb) (nodeDB.db ndb))) as Hdb.
    { subst ndb'. rewrite Hafter.
      destruct (nodeDB_Commit_store ndb1) as (-> & _).
      destruct (nodeDB_flushed_OfDB ndb1) as [-> _]; [by rewrite Ho|].
      by rewrite Hb, Hd, Write_app. }
    split.
    { rewrite Hdb, Write_snoc. cbn. apply lookup_delete_eq. }
    intros Hv Hwf key hash Hkey Hpre.
    destruct (getPreviousVersioni_spec version (nodeDB.db ndb) Hv Hwf)
      as (Hp & _).
    change (nodeDB.getPreviousVersioni version (nodeDB.db ndb))
      with predecessor in Hp.
    assert (is_int64 version /\ is_int64 predecessor) as [Hiv Hip]
      by (unfold is_int64, minInt64, maxInt64 in *; rewrite pow2_63 in *; lia).
    destruct (prune_Write (Write (nodeDB.batch ndb) (nodeDB.db ndb))
                version predecessor
                (IteratePrefix (nodeDB.db ndb)
                   (Key orphanKeyFormat [Int64 version])))
      as [_ Hent]; [done | done | lia | |].
    { by intros k h [_ ?]%elem_of_IteratePrefix. }
    destruct (Hent key hash) as (Hgone & Hnode & Hrepl);
      [by apply elem_of_IteratePrefix|].
    rewrite <- Hdb in Hgone, Hnode, Hrepl.
    split; [done|]. split; [|done].
    intros He. specialize (Hnode He).
    unfold nodeDB.Has, Get. rewrite Hnode.
    apply bool_decide_eq_false_2. by intros [? ?].
Qed.

(** The witness of X7: deleting version 2 of [store_v3_orphan] and
    committing removes the orphan entry of lifetime [1, 2]. *)
Lemma DeleteVersion_Commit_prunes_witness :
  nodeDB2.db
    (after nodeDB2.Commit
       (after (nodeDB2.DeleteVersion 2 false) store_v3_orphan))
    !! orphanKey 1 2 [9]
  = None.
Proof.
  assert (1 <= 2 <= maxInt64) as Hrange
    by (unfold maxInt64; rewrite pow2_63; lia).
  destruct (@DeleteVersion_Commit_prunes sample_codec 2) as [H2 _].
  destruct (H2 store_v3_orphan) as [_ Hent].
  destruct (Hent Hrange) with (key := orphanKey 1 2 [9]) (hash := [9])
    as [Hgone _].
  - apply wf_roots_check_sound. vm_compute. reflexivity.
  - vm_compute. reflexivity.
  - vm_compute. reflexivity.
  - exact Hgone.
Defined.

(** ** Resetting the batch *)

(** X8.  [ResetBatch] drops what is pending: a [Commit] after it leaves the
    backing store as it was.  What the dropped calls did in memory stays:
    after a [saveRoot] of version [L + 1] that succeeded, [ResetBatch] and
    [Commit], the store has no more of a root for [L + 1] than before, yet
    [getLatestVersion] answers [L + 1], and saving the root of [L + 1]
    again is refused as not consecutive. *)
Theorem ResetBatch_drops_pending (hash : bytes) :
  (forall (ndb ndb1 : nodeDB2.t) (L : Z),
     nodeDB2.getLatestVersion ndb = (Ok L, ndb1) ->
     0 <= L < maxInt64 ->
     let saved := after (nodeDB2.saveRoot hash (L + 1)) ndb in
     let ndb' := after nodeDB2.Commit (after nodeDB2.ResetBatch saved) in
     (nodeDB2.saveRoot hash (L + 1) ndb).1 = Ok None
     /\ nodeDB2.db ndb' = nodeDB2.db ndb
     /\ nodeDB2.getRoot (L + 1) ndb' = nodeDB2.getRoot (L + 1) ndb
     /\ (nodeDB2.getLatestVersion ndb').1 = Ok (L + 1)
     /\ forall hash',
          (nodeDB2.saveRoot hash' (L + 1) ndb').1
          = Ok (Some (MustSaveConsecutive (add64 (L + 1) 1) (L + 1))))
  /\ (forall (ndb ndb1 : nodeDB.t) (L : Z),
        nodeDB.getLatestVersion ndb = (Ok L, ndb1) ->
        0 <= L < maxInt64 ->
        let saved := after (nodeDB.saveRoot hash (L + 1)) ndb in
        let ndb' := after nodeDB.Commit (after nodeDB.ResetBatch saved) in
        (nodeDB.saveRoot hash (L + 1) ndb).1 = Ok None
        /\ nodeDB.db ndb' = nodeDB.db ndb
        /\ nodeDB.dbMem ndb' = nodeDB.dbMem ndb
        /\ (nodeDB.getLatestVersion ndb').1 = Ok (L + 1)
        /\ forall hash',
             (nodeDB.saveRoot hash' (L + 1) ndb').1
             = Ok (Some (MustSaveConsecutive (add64 (L + 1) 1) (L + 1)))).
Proof.
  assert (forall L, 0 <= L < maxInt64 ->
            add64 L 1 = L + 1 /\ L + 1 <> add64 (L + 1) 1) as Hadd.
  { intros L HL. split.
    - apply add64_succ. unfold minInt64, maxInt64 in *. lia.
    - destruct (decide (L + 1 = maxInt64)) as [E|E].
      + rewrite E. intros Hx. vm_compute in Hx. discriminate.
      + rewrite add64_succ by (unfold minInt64, maxInt64 in *; lia). lia. }
  split.
  - intros ndb ndb1 L Hget HL saved ndb'.
    destruct (Hadd L HL) as [Hs Hns].
    destruct (nodeDB2_saveRoot_spec ndb ndb1 L hash (L + 1) Hget)
      as [_ Heq].
    specialize (Heq (eq_sym Hs)).
    assert (ndb' = nodeDB2.set_latestVersion (L + 1)
                     (nodeDB2.set_batch [] ndb)) as ->.
    { subst ndb' saved. unfold after. rewrite Heq. cbn.
      rewrite Z.max_r by lia. by destruct ndb. }
    split; [by rewrite Heq|]. split; [by destruct ndb|].
    split; [by destruct ndb|].
    assert (nodeDB2.getLatestVersion
              (nodeDB2.set_latestVersion (L + 1) (nodeDB2.set_batch [] ndb))
            = (Ok (L + 1),
               nodeDB2.set_latestVersion (L + 1) (nodeDB2.set_batch [] ndb)))
      as Hget'.
    { rewrite nodeDB2_getLatestVersion_eq. destruct ndb; cbn.
      destruct (Z.eqb_spec (L + 1) 0); [lia|done]. }
    split; [by rewrite Hget'|]. intros hash'.
    destruct (nodeDB2_saveRoot_spec _ _ _ hash' (L + 1) Hget') as [Hne _].
    by rewrite Hne.
  - intros ndb ndb1 L Hget HL saved ndb'.
    destruct (Hadd L HL) as [Hs Hns].
    destruct (nodeDB_saveRoot_spec ndb ndb1 L hash (L + 1) Hget)
      as [_ Heq].
    specialize (Heq (eq_sym Hs)).
    set (s := nodeDB.set_batchOwner nodeDB.OfDB
                (nodeDB.set_batch []
                   (nodeDB.set_latestVersion (L + 1) ndb))).
    assert (after nodeDB.ResetBatch saved = s) as Hreset.
    { subst saved s. unfold after. rewrite Heq. cbn.
      rewrite Z.max_r by lia. by destruct ndb. }
    destruct (nodeDB_Commit_store s) as (Hd & Hm & _ & _ & _ & Hl).
    destruct (nodeDB_flushed_OfDB s) as [Hd' Hm']; [done|].
    subst ndb'. rewrite Hreset.
    split; [by rewrite Heq|].
    split; [rewrite Hd, Hd'; by destruct ndb|].
    split; [rewrite Hm, Hm'; by destruct ndb|].
    assert (nodeDB.getLatestVersion (after nodeDB.Commit s)
            = (Ok (L + 1), after nodeDB.Commit s)) as Hget'.
    { assert (nodeDB.latestVersion (after nodeDB.Commit s) = L + 1) as Hl'
        by (rewrite Hl; by destruct ndb).
      rewrite nodeDB_getLatestVersion_eq. cbn zeta. rewrite Hl'.
      destruct (Z.eqb_spec (L + 1) 0); [lia|].
      f_equal. rewrite <- Hl'. by destruct (after nodeDB.Commit s). }
    split; [by rewrite Hget'|]. intros hash'.
    destruct (nodeDB_saveRoot_spec _ _ _ hash' (L + 1) Hget') as [Hne _].
    by rewrite Hne.
Qed.

(** The witness of X8: on the store [store_v1_orphan], whose latest version
    is 1, the root of version 2 is saved, dropped and then refused. *)
Lemma ResetBatch_drops_pending_witness :
  (nodeDB2.saveRoot [3] 2
     (after nodeDB2.Commit
        (after nodeDB2.ResetBatch
           (after (nodeDB2.saveRoot [2] (1 + 1)) store_v1_orphan)))).1
  = Ok (Some (MustSaveConsecutive (add64 (1 + 1) 1) (1 + 1))).
Proof.
  assert (0 <= 1 < maxInt64) as Hrange
    by (unfold maxInt64; rewrite pow2_63; lia).
  assert (nodeDB2.getLatestVersion store_v1_orphan = (Ok 1, store_v1_orphan))
    as Hlatest by (vm_compute; reflexivity).
  destruct (ResetBatch_drops_pending [2]) as [H2 _].
  destruct (H2 _ _ _ Hlatest Hrange) as (_ & _ & _ & _ & Hre).
  exact (Hre [3]).
Defined.

(** ** The memory store of [nodeDB] *)

(** X9.  After [RestMemBatch] the batch belongs to the memory store: what
    was pending for the backing store is dropped, and a root that
    [saveRoot] then accepts is written by [Commit] to the memory store,
    not to the backing store.  [getRoot] returns it from there, unless it is
    the empty root, which [getRoot] takes for no root and passes over for
    the entry of the backing store.  [ResetMemNodes] forgets it: [getRoot]
    then answers from the backing store. *)
Theorem RestMemBatch_routes_to_memory (hash : bytes) (v : Z) :
  forall (ndb : nodeDB.t) (mem : DB),
    nodeDB.dbMem ndb = Some mem ->
    let ndb0 := after nodeDB.RestMemBatch ndb in
    (nodeDB.saveRoot hash v ndb0).1 = Ok None ->
    let ndb' := after nodeDB.Commit (after (nodeDB.saveRoot hash v) ndb0) in
    nodeDB.db ndb' = nodeDB.db ndb
    /\ nodeDB.dbMem ndb' = Some (<[rootKey v := hash]> mem)
    /\ nodeDB.batchOwner ndb' = nodeDB.OfDB
    /\ (hash <> [] -> (nodeDB.getRoot v ndb').1 = Ok (Some hash))
    /\ (hash = [] ->
        (nodeDB.getRoot v ndb').1 = Ok (nodeDB.db ndb !! rootKey v))
    /\ (nodeDB.getRoot v (after nodeDB.ResetMemNodes ndb')).1
       = Ok (nodeDB.db ndb !! rootKey v).
Proof.
  intros ndb mem Hmem ndb0 Hok ndb'.
  assert (ndb0 = nodeDB.set_batchOwner nodeDB.OfDBMem
                   (nodeDB.set_batch [] ndb)) as Hndb0.
  { subst ndb0. unfold after, nodeDB.RestMemBatch, bind, get, modify.
    by rewrite Hmem. }
  destruct (nodeDB_saveRoot_Ok hash v ndb0 Hok) as (Hb & Hd & Hm & Ho).
  destruct (nodeDB_Commit_store (after (nodeDB.saveRoot hash v) ndb0))
    as (Hd' & Hm' & _ & Ho' & _).
  destruct (nodeDB_flushed_OfDBMem (after (nodeDB.saveRoot hash v) ndb0))
    as [Hd'' Hm'']; [rewrite Ho, Hndb0; by destruct ndb|].
  fold ndb' in Hd', Hm', Ho'.
  assert (nodeDB.db ndb' = nodeDB.db ndb) as Hdb
    by (rewrite Hd', Hd'', Hd, Hndb0; by destruct ndb).
  assert (nodeDB.dbMem ndb' = Some (<[rootKey v := hash]> mem)) as Hdm.
  { rewrite Hm', Hm'', Hb, Hm, Hndb0.
    replace (nodeDB.dbMem _) with (Some mem) by (by destruct ndb).
    by destruct ndb. }
  split; [done|]. split; [done|]. split; [done|].
  split_and!.
  - intros Hne. unfold nodeDB.getRoot, bind, get, ret, Get.
    rewrite Hdm, lookup_insert_eq. cbn [default from_option id].
    destruct hash; [done|]. done.
  - intros ->. unfold nodeDB.getRoot, bind, get, ret, Get.
    rewrite Hdm, lookup_insert_eq, Hdb. done.
  - unfold nodeDB.getRoot, nodeDB.ResetMemNodes, after, bind, get, ret,
      modify, Get.
    destruct ndb' as [d dm bo b mn l c cs mcs fl q cb]; cbn in *.
    rewrite lookup_empty. cbn. by rewrite Hdb.
Qed.

(** The witness of X9: the first root saved to memory on a new store. *)
Lemma RestMemBatch_routes_to_memory_witness :
  (nodeDB.getRoot 1
     (after nodeDB.Commit
        (after (nodeDB.saveRoot [1] 1)
           (after nodeDB.RestMemBatch (nodeDB.NewNodeDB ∅ 10 None))))).1
  = Ok (Some [1]).
Proof.
  destruct (RestMemBatch_routes_to_memory [1] 1
              (nodeDB.NewNodeDB ∅ 10 None) ∅) as (_ & _ & _ & Hget & _).
  - reflexivity.
  - vm_compute. reflexivity.
  - apply Hget. intros [=].
Defined.

Lemma nodeDB_cacheNode_no_memory node :
  preserves nodeDB_no_memory (nodeDB.cacheNode node).
Proof.
  intros s [Hd Hm].
  destruct (nodeDB_cacheNode_frame node s) as (_ & Hd' & _ & _ & Hm' & _).
  split; unfold after in *; congruence.
Qed.

Lemma nodeDB_uncacheNode_no_memory hash :
  preserves nodeDB_no_memory (nodeDB.uncacheNode hash).
Proof. intros s Hs. rewrite nodeDB_uncacheNode_spec. by destruct s. Qed.

Lemma nodeDB_GetNode_no_memory `{NodeCodec} h :
  preserves nodeDB_no_memory (nodeDB.GetNode h).
Proof.
  intros s Hs. rewrite nodeDB_GetNode_eq. destruct h as [|x h]; [done|].
  destruct (nodeDB.nodeCache s !! (x :: h)); [by destruct s|].
  unfold nodeDB.memNodes_lookup. destruct Hs as [Hd Hm]. rewrite Hm. cbn.
  destruct (nodeDB.db s !! nodeKey (x :: h)) as [buf|]; [|done].
  destruct (MakeNode buf (nodeDB.getLeafValueCb s)); [|done].
  by apply nodeDB_cacheNode_no_memory.
Qed.

Lemma nodeDB_SaveNode_no_memory `{NodeCodec} node flushToDisk :
  preserves nodeDB_no_memory (nodeDB.SaveNode node flushToDisk).
Proof.
  intros s Hs. rewrite nodeDB_SaveNode_eq.
  destruct (hash node) as [h|]; [|done]. destruct (_ && _); [done|].
  destruct (persisted node); [done|].
  destruct (writeBytes _ _) as [buf|]; [|done]. destruct flushToDisk.
  - apply nodeDB_cacheNode_no_memory. by destruct s.
  - destruct Hs as [Hd Hm]. by rewrite Hm.
Qed.

Lemma nodeDB_SaveBranch_no_memory `{NodeCodec} node flushToDisk :
  preserves nodeDB_no_memory (nodeDB.SaveBranch node flushToDisk).
Proof.
  induction node as [node IHl IHr] using Node_ind_children.
  rewrite nodeDB_SaveBranch_unfold.
  destruct (persisted node); [apply preserves_ret|].
  destruct (_ && _); [apply preserves_ret|].
  apply preserves_bind.
  { destruct (leftNode node); [|apply preserves_ret].
    apply preserves_bind; [done|]. intros r. apply preserves_ret. }
  intros node1. apply preserves_bind.
  { destruct (rightNode node); [|apply preserves_ret].
    apply preserves_bind; [done|]. intros r. apply preserves_ret. }
  intros node2. apply preserves_bind; [apply nodeDB_SaveNode_no_memory|].
  intros node3. apply preserves_ret.
Qed.

Lemma nodeDB_batch_Set_no_memory k v :
  preserves nodeDB_no_memory (nodeDB.batch_Set k v).
Proof. intros s Hs. by destruct s. Qed.

Lemma nodeDB_batch_Delete_no_memory k :
  preserves nodeDB_no_memory (nodeDB.batch_Delete k).
Proof. intros s Hs. by destruct s. Qed.

Lemma nodeDB_saveOrphan_no_memory hash fromVersion toVersion :
  preserves nodeDB_no_memory (nodeDB.saveOrphan hash fromVersion toVersion).
Proof.
  unfold nodeDB.saveOrphan. destruct (_ >? _); [apply preserves_throw|].
  apply nodeDB_batch_Set_no_memory.
Qed.

Lemma nodeDB_SaveOrphans_no_memory version orphans :
  preserves nodeDB_no_memory (nodeDB.SaveOrphans version orphans).
Proof.
  unfold nodeDB.SaveOrphans, nodeDB.SaveOrphans_in. cbn zeta.
  repeat preserves_step. apply nodeDB_saveOrphan_no_memory.
Qed.

Lemma nodeDB_getLatestVersion_no_memory :
  preserves nodeDB_no_memory nodeDB.getLatestVersion.
Proof.
  intros s Hs. rewrite nodeDB_getLatestVersion_eq. by destruct s.
Qed.

Lemma nodeDB_DeleteVersion_no_memory version check :
  preserves nodeDB_no_memory (nodeDB.DeleteVersion version check).
Proof.
  unfold nodeDB.DeleteVersion, nodeDB.deleteOrphans,
    nodeDB.deleteOrphansWithPredecessor, nodeDB.traverseOrphansVersion,
    nodeDB.traversePrefix, nodeDB.deleteOrphans_fn, nodeDB.deleteRoot.
  repeat preserves_step;
    auto using nodeDB_batch_Delete_no_memory, nodeDB_uncacheNode_no_memory,
      nodeDB_saveOrphan_no_memory, nodeDB_getLatestVersion_no_memory.
Qed.

Lemma nodeDB_saveRoot_no_memory hash version :
  preserves nodeDB_no_memory (nodeDB.saveRoot hash version).
Proof.
  unfold nodeDB.saveRoot, nodeDB.updateLatestVersion.
  repeat preserves_step;
    auto using nodeDB_getLatestVersion_no_memory, nodeDB_batch_Set_no_memory.
  apply preserves_modify. intros s Hs. by destruct s.
Qed.

Lemma nodeDB_Commit_no_memory : preserves nodeDB_no_memory nodeDB.Commit.
Proof.
  intros s [Hd Hm].
  destruct (nodeDB_Commit_store s) as (_ & Hd' & _ & _ & Hm' & _).
  unfold after in *. split; [|congruence].
  rewrite Hd'. unfold nodeDB_flushed.
  destruct (nodeDB.batchOwner s), s; cbn in *; by subst.
Qed.

(** X10.  A store made by [NewNodeDB3] has no memory tier: its memory store
    and memory-node map are nil, and stay nil through [GetNode], [SaveNode],
    [SaveBranch], [SaveOrphans], [DeleteVersion], [saveRoot] and [Commit],
    whether they return or panic.  On such a store [getRoot] and
    [RestMemBatch] panic on the nil memory store, and [SaveNode] to memory
    of a node it would otherwise save panics on the nil map, each leaving
    the store as it was; [GetNode] finds nothing in memory.  Only
    [ResetMemNodes] gives the store a memory tier, after which [getRoot]
    answers from the backing store. *)
Theorem NewNodeDB3_has_no_memory `{NodeCodec} :
  (forall db minCacheSize maxCacheSize flag cb,
     nodeDB_no_memory
       (nodeDB.NewNodeDB3 db minCacheSize maxCacheSize flag cb))
  /\ (forall h, preserves nodeDB_no_memory (nodeDB.GetNode h))
  /\ (forall n f, preserves nodeDB_no_memory (nodeDB.SaveNode n f))
  /\ (forall n f, preserves nodeDB_no_memory (nodeDB.SaveBranch n f))
  /\ (forall v o, preserves nodeDB_no_memory (nodeDB.SaveOrphans v o))
  /\ (forall v c, preserves nodeDB_no_memory (nodeDB.DeleteVersion v c))
  /\ (forall h v, preserves nodeDB_no_memory (nodeDB.saveRoot h v))
  /\ preserves nodeDB_no_memory nodeDB.Commit
  /\ (forall ndb : nodeDB.t,
        nodeDB_no_memory ndb ->
        (forall v, nodeDB.getRoot v ndb = (Panic NilDereference, ndb))
        /\ nodeDB.RestMemBatch ndb = (Panic NilDereference, ndb)
        /\ (forall h, nodeDB.memNodes_lookup h ndb = None)
        /\ (forall node buf,
              hash node <> None -> persisted node = false ->
              persistedMem node = false ->
              writeBytes node (bool_decide (nodeDB.getLeafValueCb ndb = None))
              = Some buf ->
              nodeDB.SaveNode node false ndb = (Panic NilMapAssignment, ndb))
        /\ (forall v,
              (nodeDB.getRoot v (after nodeDB.ResetMemNodes ndb)).1
              = Ok (nodeDB.db ndb !! rootKey v))).
Proof.
  split_and!;
    auto using nodeDB_GetNode_no_memory, nodeDB_SaveNode_no_memory,
      nodeDB_SaveBranch_no_memory, nodeDB_SaveOrphans_no_memory,
      nodeDB_DeleteVersion_no_memory, nodeDB_saveRoot_no_memory,
      nodeDB_Commit_no_memory.
  - by intros.
  - intros ndb [Hd Hm]. split_and!.
    + intros v. unfold nodeDB.getRoot, bind, get, throw. by rewrite Hd.
    + unfold nodeDB.RestMemBatch, bind, get, throw. by rewrite Hd.
    + intros h. unfold nodeDB.memNodes_lookup. by rewrite Hm.
    + intros node buf Hh Hp Hpm Hw. rewrite nodeDB_SaveNode_eq.
      destruct (hash node); [|done]. by rewrite Hpm, Hp, Hw, Hm.
    + intros v. unfold nodeDB.getRoot, nodeDB.ResetMemNodes, after, bind,
        get, ret, modify, Get.
      destruct ndb; cbn. by rewrite lookup_empty.
Qed.

(** The witness of X10: [getRoot] on a new store made by [NewNodeDB3]. *)
Lemma NewNodeDB3_has_no_memory_witness :
  nodeDB.getRoot 1 (nodeDB.NewNodeDB3 ∅ 0 0 true None)
  = (Panic NilDereference, nodeDB.NewNodeDB3 ∅ 0 0 true None).
Proof.
  destruct (@NewNodeDB3_has_no_memory sample_codec)
    as (Hnew & _ & _ & _ & _ & _ & _ & _ & Hno).
  destruct (Hno _ (Hnew ∅ 0 0 true None)) as [Hget _].
  apply Hget.
Defined.

(** ** Listing the roots *)

Lemma foldl_insert_lookup_other {K A B} `{Countable B} (f : K -> B)
    (l : list (K * A)) (m : gmap B A) x :
  (forall k v, (k, v) ∈ l -> f k <> x) ->
  foldl (fun m '(k, v) => <[f k := v]> m) m l !! x = m !! x.
Proof.
  revert m. induction l as [|[k v] l IH]; intros m Hl; cbn; [done|].
  rewrite IH by (intros k' v' Hin; by apply (Hl k' v'),
                   list_elem_of_further).
  apply lookup_insert_ne, (Hl k v), list_elem_of_here.
Qed.

Lemma foldl_insert_lookup {K A B} `{Countable B} (f : K -> B)
    (l : list (K * A)) (m : gmap B A) k v :
  (k, v) ∈ l ->
  (forall k1 v1 k2 v2,
     (k1, v1) ∈ l -> (k2, v2) ∈ l -> f k1 = f k2 -> v1 = v2) ->
  foldl (fun m '(k, v) => <[f k := v]> m) m l !! f k = Some v.
Proof.
  induction l as [|[k' v'] l IH] using rev_ind; intros Hin Hfun.
  - by apply elem_of_nil in Hin.
  - rewrite foldl_app. cbn.
    destruct (decide (f k' = f k)) as [E|E].
    + rewrite E, lookup_insert_eq. f_equal.
      apply (Hfun k' v' k v); [|done..].
      apply elem_of_app. right. apply list_elem_of_here.
    + rewrite lookup_insert_ne by done. apply IH.
      * apply elem_of_app in Hin as [?|Hin]; [done|].
        apply list_elem_of_singleton in Hin. congruence.
      * intros k1 v1 k2 v2 H1 H2. apply Hfun; apply elem_of_app; by left.
Qed.

Lemma root_prefix_head k :
  HasPrefix k (Key rootKeyFormat []) = true <-> head k = Some 114.
Proof.
  change (Key rootKeyFormat []) with [114]. destruct k as [|x k]; cbn.
  - split; done.
  - rewrite andb_true_r, Z.eqb_eq. split; congruence.
Qed.

(** What [getRoots] computes from a backing store with well-formed root
    keys: the root entry of every version. *)
Lemma getRoots_lookup (db : DB) (v : Z) :
  wf_roots db -> is_int64 v ->
  foldl (fun roots '(k, val) => <[ScanInt64 rootKeyFormat k 0 := val]> roots)
    (∅ : gmap Z bytes) (IteratePrefix db (Key rootKeyFormat [])) !! v
  = db !! rootKey v.
Proof.
  intros Hwf Hv.
  assert (forall k val,
            (k, val) ∈ IteratePrefix db (Key rootKeyFormat []) ->
            db !! k = Some val
            /\ exists ver, is_int64 ver /\ k = rootKey ver) as Hent.
  { intros k val [Hk Hp]%elem_of_IteratePrefix. split; [done|].
    apply (Hwf k val Hk). by apply root_prefix_head. }
  destruct (db !! rootKey v) as [val|] eqn:Hroot.
  - rewrite <- (ScanInt64_rootKey v Hv) at 1.
    apply (foldl_insert_lookup (fun k => ScanInt64 rootKeyFormat k 0)).
    + apply elem_of_IteratePrefix. split; [done|].
      apply root_prefix_head. by rewrite rootKey_unfold.
    + intros k1 v1 k2 v2 [Hk1 (a & Ha & ->)]%Hent [Hk2 (b & Hb & ->)]%Hent.
      rewrite !ScanInt64_rootKey by done. intros ->. congruence.
  - rewrite foldl_insert_lookup_other; [apply lookup_empty|].
    intros k val [Hk (a & Ha & ->)]%Hent.
    rewrite ScanInt64_rootKey by done. intros ->. congruence.
Qed.

(** X11.  On a backing store with well-formed root keys, the map [getRoots]
    (and [roots]) returns holds, for every version, the root entry of that
    version in the backing store: what [nodeDB2.getRoot] returns.
    [nodeDB.getRoot] returns the same unless the memory store holds a
    non-empty root for the version, which [getRoots] does not list. *)
Theorem getRoots_getRoot (v : Z) :
  (forall ndb : nodeDB2.t,
     wf_roots (nodeDB2.db ndb) -> is_int64 v ->
     nodeDB2.getRoots ndb !! v = nodeDB2.getRoot v ndb
     /\ nodeDB2.roots ndb !! v = nodeDB2.getRoot v ndb)
  /\ (forall (ndb : nodeDB.t) (mem : DB),
        wf_roots (nodeDB.db ndb) -> is_int64 v ->
        nodeDB.dbMem ndb = Some mem ->
        nodeDB.getRoots ndb !! v = nodeDB.db ndb !! rootKey v
        /\ (default [] (mem !! rootKey v) = [] ->
            (nodeDB.getRoot v ndb).1 = Ok (nodeDB.getRoots ndb !! v))
        /\ (default [] (mem !! rootKey v) <> [] ->
            (nodeDB.getRoot v ndb).1 = Ok (mem !! rootKey v))).
Proof.
  split.
  - intros ndb Hwf Hv. unfold nodeDB2.roots, nodeDB2.getRoots.
    by rewrite getRoots_lookup.
  - intros ndb mem Hwf Hv Hmem. unfold nodeDB.getRoots.
    rewrite getRoots_lookup by done. split; [done|].
    unfold nodeDB.getRoot, bind, get, ret, Get. rewrite Hmem.
    split.
    + by intros ->.
    + intros Hne. by destruct (default [] (mem !! rootKey v)).
Qed.

(** The witness of X11: the root of version 2 in [store_v3_orphan]. *)
Lemma getRoots_getRoot_witness :
  nodeDB2.getRoots store_v3_orphan !! 2 = nodeDB2.getRoot 2 store_v3_orphan.
Proof.
  destruct (getRoots_getRoot 2) as [H2 _].
  destruct (H2 store_v3_orphan) as [Hget _].
  - apply wf_roots_check_sound. vm_compute. reflexivity.
  - unfold is_int64, minInt64, maxInt64. rewrite pow2_63. lia.
  - exact Hget.
Defined.

(** ** The order of eviction *)

Lemma tail_keeps_last_two {A} (l : list A) (x y : A) :
  l <> [] -> exists l', tail (l ++ [x; y]) = l' ++ [x; y].
Proof. destruct l as [|a l]; [done|]. intros _. by exists l. Qed.

(** X12.  The cache is least-recently-used, not first-in-first-out: a hit
    moves the element to the back of the queue, so that, in a well-formed
    cache of two elements or more, the insert that follows evicts another
    element.  After a [GetNode] that found [hash] in the cache and any
    [cacheNode], the queue ends with the element that was hit and the
    element just inserted. *)
Theorem GetNode_hit_protects `{NodeCodec} (h : bytes) (node : Node) :
  (forall (ndb : nodeDB2.t) elem,
     cache_wf (nodeDB2.nodeCache ndb) (nodeDB2.nodeCacheQueue ndb) ->
     nodeDB2.nodeCache ndb !! h = Some elem ->
     h <> [] ->
     2 <= Len (nodeDB2.nodeCacheQueue ndb) ->
     let hit := after (nodeDB2.GetNode h) ndb in
     let inserted := (PushBack node (nodeDB2.nodeCacheQueue hit)).1 in
     Value inserted = node
     /\ exists l,
          elems (nodeDB2.nodeCacheQueue (after (nodeDB2.cacheNode node) hit))
          = l ++ [elem; inserted])
  /\ (forall (ndb : nodeDB.t) elem,
        cache_wf (nodeDB.nodeCache ndb) (nodeDB.nodeCacheQueue ndb) ->
        nodeDB.nodeCache ndb !! h = Some elem ->
        h <> [] ->
        2 <= Len (nodeDB.nodeCacheQueue ndb) ->
        let hit := after (nodeDB.GetNode h) ndb in
        let inserted := (PushBack node (nodeDB.nodeCacheQueue hit)).1 in
        Value inserted = node
        /\ exists l,
             elems (nodeDB.nodeCacheQueue (after (nodeDB.cacheNode node) hit))
             = l ++ [elem; inserted]).
Proof.
  split.
  - intros ndb elem Hwf Hl Hne Hlen hit inserted. split; [done|].
    assert (hit = nodeDB2.set_nodeCacheQueue
                    (MoveToBack elem (nodeDB2.nodeCacheQueue ndb)) ndb)
      as Hhit.
    { subst hit. unfold after. rewrite nodeDB2_GetNode_eq.
      destruct h; [done|]. by rewrite Hl. }
    assert (cache_wf (nodeDB2.nodeCache hit) (nodeDB2.nodeCacheQueue hit))
      as Hwf'.
    { rewrite Hhit. destruct ndb; cbn in *. by apply cache_wf_MoveToBack. }
    assert (elems (nodeDB2.nodeCacheQueue hit)
            = filter (fun e' => eid e' <> eid elem)
                (elems (nodeDB2.nodeCacheQueue ndb)) ++ [elem]) as Helems.
    { rewrite Hhit. destruct ndb; cbn in *. by eapply MoveToBack_last. }
    rewrite nodeDB2_cacheNode_elems by done. cbn zeta.
    assert (elems (PushBack node (nodeDB2.nodeCacheQueue hit)).2
            = filter (fun e' => eid e' <> eid elem)
                (elems (nodeDB2.nodeCacheQueue ndb)) ++ [elem; inserted])
      as ->.
    { unfold PushBack at 1. cbn [snd elems]. rewrite Helems.
      by rewrite <- (assoc_L (++)). }
    destruct (_ >? _); [|by eexists].
    apply tail_keeps_last_two. intros Hnil.
    pose proof (Len_MoveToBack elem (nodeDB2.nodeCacheQueue ndb)) as HL.
    assert (elems (MoveToBack elem (nodeDB2.nodeCacheQueue ndb))
            = elems (nodeDB2.nodeCacheQueue hit)) as Hsame
      by (rewrite Hhit; by destruct ndb).
    unfold Len in HL, Hlen. rewrite Hsame, Helems, Hnil in HL. cbn in HL.
    lia.
  - intros ndb elem Hwf Hl Hne Hlen hit inserted. split; [done|].
    assert (hit = nodeDB.set_nodeCacheQueue
                    (MoveToBack elem (nodeDB.nodeCacheQueue ndb)) ndb)
      as Hhit.
    { subst hit. unfold after. rewrite nodeDB_GetNode_eq.
      destruct h; [done|]. by rewrite Hl. }
    assert (cache_wf (nodeDB.nodeCache hit) (nodeDB.nodeCacheQueue hit))
      as Hwf'.
    { rewrite Hhit. destruct ndb; cbn in *. by apply cache_wf_MoveToBack. }
    assert (elems (nodeDB.nodeCacheQueue hit)
            = filter (fun e' => eid e' <> eid elem)
                (elems (nodeDB.nodeCacheQueue ndb)) ++ [elem]) as Helems.
    { rewrite Hhit. destruct ndb; cbn in *. by eapply MoveToBack_last. }
    rewrite nodeDB_cacheNode_elems by done. cbn zeta.
    assert (elems (PushBack node (nodeDB.nodeCacheQueue hit)).2
            = filter (fun e' => eid e' <> eid elem)
                (elems (nodeDB.nodeCacheQueue ndb)) ++ [elem; inserted])
      as ->.
    { unfold PushBack at 1. cbn [snd elems]. rewrite Helems.
      by rewrite <- (assoc_L (++)). }
    destruct (_ && _); [|by eexists].
    apply tail_keeps_last_two. intros Hnil.
    pose proof (Len_MoveToBack elem (nodeDB.nodeCacheQueue ndb)) as HL.
    assert (elems (MoveToBack elem (nodeDB.nodeCacheQueue ndb))
            = elems (nodeDB.nodeCacheQueue hit)) as Hsame
      by (rewrite Hhit; by destruct ndb).
    unfold Len in HL, Hlen. rewrite Hsame, Helems, Hnil in HL. cbn in HL.
    lia.
Qed.

(** The witness of X12: two nodes are cached, the older one is read, a
    third is inserted into the cache of limit 2; the queue ends with the
    node read and the node inserted. *)
Lemma GetNode_hit_protects_witness :
  let n7 := set_hash (Some [7]) (sample_node [7]) in
  let n8 := set_hash (Some [8]) (sample_node [8]) in
  let n9 := set_hash (Some [9]) (sample_node [9]) in
  let ndb :=
    after (@nodeDB2.SaveNode sample_codec n8 true)
      (after (@nodeDB2.SaveNode sample_codec n7 true)
         (nodeDB2.NewNodeDB2 ∅ 2 None)) in
  exists l,
    elems (nodeDB2.nodeCacheQueue
             (after (nodeDB2.cacheNode n9)
                (after (@nodeDB2.GetNode sample_codec [7]) ndb)))
    = l ++ [mkElement 0 (set_persisted true n7); mkElement 2 n9].
Proof.
  intros n7 n8 n9 ndb.
  destruct (@GetNode_hit_protects sample_codec [7] n9) as [H2 _].
  destruct (H2 ndb (mkElement 0 (set_persisted true n7))) as [_ Hl].
  - apply (@nodeDB2_SaveNode_bounded sample_codec),
      (@nodeDB2_SaveNode_bounded sample_codec).
    split; [apply cache_wf_empty|]. vm_compute. intros [=].
  - vm_compute. reflexivity.
  - intros [=].
  - vm_compute. intros [=].
  - exact Hl.
Defined.

(** ** Opening a store over an existing database *)

(** X13.  A store opened over a backing store with well-formed root keys
    continues where that store ends.  Its first [getLatestVersion] returns
    [L], the greatest version from 1 up to, but not including, the largest
    [int64] that has a root entry, or 0 when there is none; [saveRoot]
    accepts version [L + 1] and refuses every other version as not
    consecutive.  This holds for [NewNodeDB2], [NewNodeDB] and
    [NewNodeDB3] alike. *)
Theorem opened_store_continues (db : DB) (cb : option (bytes -> bytes)) :
  wf_roots db ->
  exists L,
    0 <= L < maxInt64
    /\ (L <> 0 -> is_Some (db !! rootKey L))
    /\ (forall v',
          1 <= v' < maxInt64 -> is_Some (db !! rootKey v') -> v' <= L)
    /\ (forall cacheSize hash v,
          let ndb := nodeDB2.NewNodeDB2 db cacheSize cb in
          (nodeDB2.getLatestVersion ndb).1 = Ok L
          /\ (nodeDB2.saveRoot hash (L + 1) ndb).1 = Ok None
          /\ (v <> L + 1 ->
              (nodeDB2.saveRoot hash v ndb).1
              = Ok (Some (MustSaveConsecutive (L + 1) v))))
    /\ (forall cacheSize hash v,
          let ndb := nodeDB.NewNodeDB db cacheSize cb in
          (nodeDB.getLatestVersion ndb).1 = Ok L
          /\ (nodeDB.saveRoot hash (L + 1) ndb).1 = Ok None
          /\ (v <> L + 1 ->
              (nodeDB.saveRoot hash v ndb).1
              = Ok (Some (MustSaveConsecutive (L + 1) v))))
    /\ (forall minCacheSize maxCacheSize flag hash v,
          let ndb :=
            nodeDB.NewNodeDB3 db minCacheSize maxCacheSize flag cb in
          (nodeDB.getLatestVersion ndb).1 = Ok L
          /\ (nodeDB.saveRoot hash (L + 1) ndb).1 = Ok None
          /\ (v <> L + 1 ->
              (nodeDB.saveRoot hash v ndb).1
              = Ok (Some (MustSaveConsecutive (L + 1) v)))).
Proof.
  intros Hwf. exists (nodeDB.getPreviousVersioni (2 ^ 63 - 1) db).
  destruct (getPreviousVersioni_spec (2 ^ 63 - 1) db) as (Hp & Hin & Hmax);
    [unfold maxInt64; rewrite pow2_63; lia | done |].
  cbn zeta in Hp, Hin, Hmax.
  set (L := nodeDB.getPreviousVersioni (2 ^ 63 - 1) db) in *.
  assert (0 <= L < maxInt64) as HL by (unfold maxInt64; lia).
  assert (add64 L 1 = L + 1) as Hadd
    by (apply add64_succ; unfold minInt64, maxInt64 in *; lia).
  split; [done|]. split; [done|]. split; [exact Hmax|].
  split_and!.
  - intros cacheSize hash v ndb.
    assert (nodeDB2.getLatestVersion ndb
            = (Ok L, nodeDB2.set_latestVersion L ndb)) as Hget
      by (by rewrite nodeDB2_getLatestVersion_eq).
    destruct (nodeDB2_saveRoot_spec _ _ _ hash (L + 1) Hget) as [_ Heq].
    destruct (nodeDB2_saveRoot_spec _ _ _ hash v Hget) as [Hne _].
    rewrite Hadd in *.
    split; [by rewrite Hget|]. split; [by rewrite Heq|].
    intros Hv. by rewrite Hne.
  - intros cacheSize hash v ndb.
    assert (nodeDB.getLatestVersion ndb
            = (Ok L, nodeDB.set_latestVersion L ndb)) as Hget
      by (by rewrite nodeDB_getLatestVersion_eq).
    destruct (nodeDB_saveRoot_spec _ _ _ hash (L + 1) Hget) as [_ Heq].
    destruct (nodeDB_saveRoot_spec _ _ _ hash v Hget) as [Hne _].
    rewrite Hadd in *.
    split; [by rewrite Hget|]. split; [by rewrite Heq|].
    intros Hv. by rewrite Hne.
  - intros minCacheSize maxCacheSize flag hash v ndb.
    assert (nodeDB.getLatestVersion ndb
            = (Ok L, nodeDB.set_latestVersion L ndb)) as Hget
      by (by rewrite nodeDB_getLatestVersion_eq).
    destruct (nodeDB_saveRoot_spec _ _ _ hash (L + 1) Hget) as [_ Heq].
    destruct (nodeDB_saveRoot_spec _ _ _ hash v Hget) as [Hne _].
    rewrite Hadd in *.
    split; [by rewrite Hget|]. split; [by rewrite Heq|].
    intros Hv. by rewrite Hne.
Qed.

(** The witness of X13: a store opened over the backing store of
    [store_v3_orphan], which holds the roots of versions 1, 2 and 3. *)
Lemma opened_store_continues_witness :
  exists L,
    0 <= L < maxInt64
    /\ (nodeDB2.getLatestVersion
          (nodeDB2.NewNodeDB2 (nodeDB2.db store_v3_orphan) 10 None)).1
       = Ok L.
Proof.
  destruct (opened_store_continues (nodeDB2.db store_v3_orphan) None)
    as (L & HL & _ & _ & H2 & _).
  - apply wf_roots_check_sound. vm_compute. reflexivity.
  - exists L. split; [exact HL|]. by destruct (H2 10 [] 0) as [Hget _].
Defined.

(** ** From recording an orphan to pruning it *)

Lemma orphan_sets_lookup (t : Z) (range : list (bytes * Z)) db hash first :
  (hash, first) ∈ range ->
  Write ((fun e => BSet (orphanKey e.2 t e.1) e.1) <$> range) db
    !! orphanKey first t hash
  = Some hash.
Proof.
  intros Hin. apply Write_lookup_set.
  - by apply (list_elem_of_fmap_2
                (fun e => BSet (orphanKey e.2 t e.1) e.1) _ (hash, first)).
  - apply Forall_fmap, Forall_forall. intros [h f] _. cbn.
    split; [done|]. intros v' Heq.
    assert (orphanKey f t h = orphanKey first t hash /\ h = v') as [Hk <-]
      by (split; congruence).
    by apply orphanKey_inj_hash in Hk.
Qed.

(** X14.  An orphan that [SaveOrphans] recorded is, once [Commit] has run,
    among the entries [DeleteVersion] enumerates for the version its
    lifetime ends at: the entries of the backing store under the orphan
    prefix of that version.  For [nodeDB] that version is [version - 1];
    for [nodeDB2] it is the predecessor found in the root index.  In
    [nodeDB] this is so for a batch of the backing store. *)
Theorem SaveOrphans_Commit_enumerated (version : Z) (orphans : gmap bytes Z)
    (hash : bytes) (first : Z) :
  orphans !! hash = Some first ->
  (forall ndb : nodeDB.t,
     minInt64 < version <= maxInt64 ->
     map_Forall (fun _ f => f <= version - 1) orphans ->
     nodeDB.batchOwner ndb = nodeDB.OfDB ->
     let ndb' :=
       after nodeDB.Commit (after (nodeDB.SaveOrphans version orphans) ndb) in
     (nodeDB.SaveOrphans version orphans ndb).1 = Ok tt
     /\ (orphanKey first (version - 1) hash, hash)
          ∈ IteratePrefix (nodeDB.db ndb')
              (Key orphanKeyFormat [Int64 (version - 1)]))
  /\ (forall ndb : nodeDB2.t,
        let predecessor := nodeDB2.getPreviousVersion version ndb in
        map_Forall (fun _ f => f <= predecessor) orphans ->
        let ndb' :=
          after nodeDB2.Commit
            (after (nodeDB2.SaveOrphans version orphans) ndb) in
        (nodeDB2.SaveOrphans version orphans ndb).1 = Ok tt
        /\ (orphanKey first predecessor hash, hash)
             ∈ IteratePrefix (nodeDB2.db ndb')
                 (Key orphanKeyFormat [Int64 predecessor])).
Proof.
  intros Hlook.
  assert ((hash, first) ∈ map_to_list orphans) as Hin
    by by apply elem_of_map_to_list.
  split.
  - intros ndb Hv Hall Hown ndb'.
    assert (nodeDB.SaveOrphans version orphans ndb
            = (Ok tt,
               nodeDB.set_batch
                 (nodeDB.batch ndb
                    ++ ((fun e => BSet (orphanKey e.2 (version - 1) e.1) e.1)
                          <$> map_to_list orphans)) ndb)) as Hrun.
    { unfold nodeDB.SaveOrphans.
      rewrite nodeDB_SaveOrphans_in_spec; rewrite sub64_pred by done;
        [done|].
      apply Forall_forall. intros [h f] Hi%elem_of_map_to_list. cbn.
      by apply (Hall h f). }
    split; [by rewrite Hrun|].
    apply elem_of_IteratePrefix. split; [|apply orphanKey_prefix].
    subst ndb'. unfold after at 2. rewrite Hrun. cbn [snd].
    match goal with |- nodeDB.db (after nodeDB.Commit ?s) !! _ = _ =>
      destruct (nodeDB_Commit_store s) as (-> & _);
      destruct (nodeDB_flushed_OfDB s) as [-> _]; [by destruct ndb|]
    end.
    destruct ndb; cbn. rewrite Write_app. by apply orphan_sets_lookup.
  - intros ndb predecessor Hall ndb'.
    assert (nodeDB2.SaveOrphans version orphans ndb
            = (Ok tt,
               nodeDB2.set_batch
                 (nodeDB2.batch ndb
                    ++ ((fun e => BSet (orphanKey e.2 predecessor e.1) e.1)
                          <$> map_to_list orphans)) ndb)) as Hrun.
    { unfold nodeDB2.SaveOrphans.
      apply nodeDB2_SaveOrphans_in_spec, Forall_forall.
      intros [h f] Hi%elem_of_map_to_list. cbn. by apply (Hall h f). }
    split; [by rewrite Hrun|].
    apply elem_of_IteratePrefix. split; [|apply orphanKey_prefix].
    subst ndb'. unfold after. rewrite Hrun. destruct ndb; cbn.
    rewrite Write_app. by apply orphan_sets_lookup.
Qed.

(** The witness of X14: the orphan of the store [store_v1_orphan]. *)
Lemma SaveOrphans_Commit_enumerated_witness :
  (orphanKey 1 (3 - 1) [9], [9])
    ∈ IteratePrefix
        (nodeDB.db
           (after nodeDB.Commit
              (after (nodeDB.SaveOrphans 3 {[ [9] := 1 ]})
                 (nodeDB.NewNodeDB ∅ 10 None))))
        (Key orphanKeyFormat [Int64 (3 - 1)]).
Proof.
  destruct (SaveOrphans_Commit_enumerated 3 {[ [9] := 1 ]} [9] 1) as [H1 _].
  - apply lookup_singleton_eq.
  - destruct (H1 (nodeDB.NewNodeDB ∅ 10 None)) as [_ Hin].
    + unfold minInt64, maxInt64. rewrite pow2_63. lia.
    + apply map_Forall_singleton. lia.
    + reflexivity.
    + exact Hin.
Defined.

(** ** Reading twice *)

(** X15.  Reads repeat: when [GetNode] has returned a node for a hash, a
    second [GetNode] of the hash returns the same node from the cache,
    without reading the backing store, provided the first call left the
    node in the cache: it found it there, or the queue had room, or the
    element the insert evicted held a node of another hash (or, in
    [nodeDB], inserts do not evict).  Neither call writes the backing store
    or the batch. *)
Theorem GetNode_repeats `{NodeCodec} (h : bytes) :
  (forall (ndb : nodeDB2.t) node,
     (nodeDB2.GetNode h ndb).1 = Ok node ->
     is_Some (nodeDB2.nodeCache ndb !! h)
     \/ Len (nodeDB2.nodeCacheQueue ndb) < nodeDB2.nodeCacheSize ndb
     \/ (exists front,
           Front (nodeDB2.nodeCacheQueue ndb) = Some front
           /\ string_of (hash (Value front)) <> h) ->
     let ndb' := after (nodeDB2.GetNode h) ndb in
     is_Some (nodeDB2.nodeCache ndb' !! h)
     /\ (nodeDB2.GetNode h ndb').1 = Ok node
     /\ nodeDB2.db ndb' = nodeDB2.db ndb
     /\ nodeDB2.batch ndb' = nodeDB2.batch ndb)
  /\ (forall (ndb : nodeDB.t) node,
        (nodeDB.GetNode h ndb).1 = Ok node ->
        is_Some (nodeDB.nodeCache ndb !! h)
        \/ Len (nodeDB.nodeCacheQueue ndb) < nodeDB.nodeCacheSize ndb
        \/ nodeDB.nodeCacheOnlyFlushOnSave ndb = true
        \/ (exists front,
              Front (nodeDB.nodeCacheQueue ndb) = Some front
              /\ string_of (hash (Value front)) <> h) ->
        let ndb' := after (nodeDB.GetNode h) ndb in
        is_Some (nodeDB.nodeCache ndb' !! h)
        /\ (nodeDB.GetNode h ndb').1 = Ok node
        /\ nodeDB.db ndb' = nodeDB.db ndb
        /\ nodeDB.batch ndb' = nodeDB.batch ndb).
Proof.
  split.
  - intros ndb node Hok Hkeep ndb'. subst ndb'. unfold after.
    revert Hok. rewrite nodeDB2_GetNode_eq.
    destruct h as [|x h]; [by intros [=]|].
    destruct (nodeDB2.nodeCache ndb !! (x :: h)) as [elem|] eqn:Hl.
    + cbn [fst snd]. intros [= <-].
      assert (nodeDB2.nodeCache
                (nodeDB2.set_nodeCacheQueue
                   (MoveToBack elem (nodeDB2.nodeCacheQueue ndb)) ndb)
                !! (x :: h) = Some elem) as Hl' by (by destruct ndb).
      split; [by rewrite Hl'|]. rewrite nodeDB2_GetNode_eq, Hl'.
      split; [done|]. by destruct ndb.
    + destruct Hkeep as [[? [=]]|Hkeep].
      destruct (nodeDB2.db ndb !! nodeKey (x :: h)) as [buf|];
        [|by intros [=]].
      destruct (MakeNode buf (nodeDB2.getLeafValueCb ndb)) as [node0|];
        [|by intros [=]].
      cbn [fst snd]. intros [= <-].
      set (node := set_persisted true (set_hash (Some (x :: h)) node0)).
      destruct (nodeDB2_cacheNode_lookup node ndb) as (elem & Hl' & Hv);
        [exact Hkeep|].
      destruct (nodeDB2_cacheNode_frame node ndb) as (Hd & Hb & _).
      change (string_of (hash node)) with (x :: h) in Hl'.
      unfold after in *.
      split; [by rewrite Hl'|]. rewrite nodeDB2_GetNode_eq, Hl'.
      split; [by rewrite <- Hv|done].
  - intros ndb node Hok Hkeep ndb'. subst ndb'. unfold after.
    revert Hok. rewrite nodeDB_GetNode_eq.
    destruct h as [|x h]; [by intros [=]|].
    destruct (nodeDB.nodeCache ndb !! (x :: h)) as [elem|] eqn:Hl.
    + cbn [fst snd]. intros [= <-].
      assert (nodeDB.nodeCache
                (nodeDB.set_nodeCacheQueue
                   (MoveToBack elem (nodeDB.nodeCacheQueue ndb)) ndb)
                !! (x :: h) = Some elem) as Hl' by (by destruct ndb).
      split; [by rewrite Hl'|]. rewrite nodeDB_GetNode_eq, Hl'.
      split; [done|]. by destruct ndb.
    + destruct Hkeep as [[? [=]]|Hkeep].
      destruct (nodeDB.memNodes_lookup (x :: h) ndb) as [node0|] eqn:Hmem.
      * cbn [fst snd]. intros [= <-].
        set (node := set_hash (Some (x :: h)) node0).
        set (s := after (nodeDB.memNodes_store (x :: h) node) ndb).
        assert (nodeDB.nodeCacheQueue s = nodeDB.nodeCacheQueue ndb
                /\ nodeDB.nodeCacheSize s = nodeDB.nodeCacheSize ndb
                /\ nodeDB.nodeCacheOnlyFlushOnSave s
                   = nodeDB.nodeCacheOnlyFlushOnSave ndb
                /\ nodeDB.db s = nodeDB.db ndb
                /\ nodeDB.batch s = nodeDB.batch ndb) as (Hq & Hs & Hf & Hd0 & Hb0).
        { subst s. unfold after, nodeDB.memNodes_store, bind, get, modify,
            throw.
          destruct (nodeDB.memNodes ndb); by destruct ndb. }
        destruct (nodeDB_cacheNode_lookup node s) as (elem & Hl' & Hv);
          [by rewrite Hq, Hs, Hf|].
        destruct (nodeDB_cacheNode_frame node s)
          as (Hd & _ & _ & Hb & _).
        change (string_of (hash node)) with (x :: h) in Hl'.
        unfold after in *.
        split; [by rewrite Hl'|]. rewrite nodeDB_GetNode_eq, Hl'.
        split; [by rewrite <- Hv|]. by rewrite Hd, Hb.
      * destruct (nodeDB.db ndb !! nodeKey (x :: h)) as [buf|];
          [|by intros [=]].
        destruct (MakeNode buf (nodeDB.getLeafValueCb ndb)) as [node0|];
          [|by intros [=]].
        cbn [fst snd]. intros [= <-].
        set (node := set_hash (Some (x :: h)) (set_persisted true node0)).
        destruct (nodeDB_cacheNode_lookup node ndb) as (elem & Hl' & Hv);
          [exact Hkeep|].
        destruct (nodeDB_cacheNode_frame node ndb)
          as (Hd & _ & _ & Hb & _).
        change (string_of (hash node)) with (x :: h) in Hl'.
        unfold after in *.
        split; [by rewrite Hl'|]. rewrite nodeDB_GetNode_eq, Hl'.
        split; [by rewrite <- Hv|done].
Qed.

(** The witness of X15: the node of [store2_with_node], read twice through
    a store of cache limit 10 over the same backing store. *)
Lemma GetNode_repeats_witness :
  let ndb := nodeDB2.NewNodeDB2 (nodeDB2.db store2_with_node) 10 None in
  (@nodeDB2.GetNode sample_codec [7]
     (after (@nodeDB2.GetNode sample_codec [7]) ndb)).1
  = Ok (set_persisted true (set_hash (Some [7]) (sample_node [7]))).
Proof.
  intros ndb.
  destruct (@GetNode_repeats sample_codec [7]) as [H2 _].
  destruct (H2 ndb (set_persisted true (set_hash (Some [7]) (sample_node [7]))))
    as (_ & Hget & _).
  - vm_compute. reflexivity.
  - right. left. vm_compute. reflexivity.
  - exact Hget.
Defined.

(** ** Deleting a version that is not the latest *)

(** X16.  [DeleteVersion(v, true)] of a version that is not the latest
    returns and does what [DeleteVersion(v, false)] does; the check costs
    nothing but the lazy initialisation of the version counter, which is
    left holding the latest version. *)
Theorem DeleteVersion_checked_not_latest (v : Z) :
  (forall (ndb : nodeDB2.t) (L : Z),
     (nodeDB2.getLatestVersion ndb).1 = Ok L ->
     v <> L ->
     nodeDB2.DeleteVersion v true ndb
     = (Ok tt,
        nodeDB2.set_latestVersion L
          (after (nodeDB2.DeleteVersion v false) ndb)))
  /\ (forall (ndb : nodeDB.t) (L : Z),
        (nodeDB.getLatestVersion ndb).1 = Ok L ->
        v <> L ->
        nodeDB.DeleteVersion v true ndb
        = (Ok tt,
           nodeDB.set_latestVersion L
             (after (nodeDB.DeleteVersion v false) ndb))).
Proof.
  split.
  - intros ndb L Hlatest Hne.
    destruct (nodeDB2_prune_all (nodeDB2.getPreviousVersion v ndb)
                (IteratePrefix (nodeDB2.db ndb)
                   (Key orphanKeyFormat [Int64 v])) ndb)
      as (ndb1 & Hrun & _ & _ & _ & Hd & Hl & _).
    unfold after, nodeDB2.DeleteVersion, bind.
    rewrite nodeDB2_deleteOrphans_eq, Hrun.
    rewrite (nodeDB2_deleteRoot_checked v ndb1 L)
      by (by rewrite (nodeDB2_getLatestVersion_frame ndb ndb1)).
    rewrite nodeDB2_deleteRoot_unchecked.
    destruct (Z.eqb_spec v L); [done|]. by destruct ndb1.
  - intros ndb L Hlatest Hne.
    destruct (nodeDB_prune_all (nodeDB.getPreviousVersion v ndb)
                (IteratePrefix (nodeDB.db ndb)
                   (Key orphanKeyFormat [Int64 v])) ndb)
      as (ndb1 & Hrun & _ & _ & _ & Hd & Hl & _).
    unfold after, nodeDB.DeleteVersion, bind.
    rewrite nodeDB_deleteOrphans_eq, Hrun.
    rewrite (nodeDB_deleteRoot_checked v ndb1 L)
      by (by rewrite (nodeDB_getLatestVersion_frame ndb ndb1)).
    rewrite nodeDB_deleteRoot_unchecked.
    destruct (Z.eqb_spec v L); [done|]. by destruct ndb1.
Qed.

(** The witness of X16: version 1 of [store_v3_orphan], whose latest version
    is 3, is deleted with the check on. *)
Lemma DeleteVersion_checked_not_latest_witness :
  (nodeDB2.DeleteVersion 1 true store_v3_orphan).1 = Ok tt.
Proof.
  destruct (DeleteVersion_checked_not_latest 1) as [H2 _].
  rewrite (H2 store_v3_orphan 3); [reflexivity | | lia].
  vm_compute. reflexivity.
Defined.
